(** * AllDownloader: the media resolution engine

    A shallow embedding of the resolution engine of the repository
    (platform detection, per-platform resolvers, mirror iteration,
    option normalisation, de-duplication and ranking) and of what stands
    around it (the page with its history, preview and theme, the cache
    of the backend), and the proofs of their properties.

    Conventions of the model.
    - A JavaScript string is a [string]: a sequence of code units below
      256.  White space is the part of ECMAScript's [\s] in that range.
    - A JSON number is an integer [Z]; the fields the code reads through
      [Number(...)], [/] or [-] may also hold a numeric string
      ([numeric]).  Byte counts and scores are exact below [2^53].
    - A JSON document is a record with one optional field per property
      the code reads; [None] is a missing ([undefined]) property.
    - An [async] function is a computation in the monad [M]: it threads
      the trace of network requests issued so far and either returns a
      value or throws an error.  The network is an oracle that answers
      the [i]-th request of a run. *)

From Stdlib Require Import List String Ascii ZArith Bool Lia Arith PeanoNat.
From Stdlib Require Import Sorting.Sorted Sorting.Permutation.
Import ListNotations.
Local Open Scope list_scope.
Local Open Scope string_scope.

(* ===================================================================== *)
(** * JavaScript values                                                   *)
(* ===================================================================== *)

Module Js.

(** [String.prototype.startsWith] *)
Definition startsWith (s p : string) : bool := String.prefix p s.

(** [String.prototype.includes]: [sub] occurs somewhere in [s]. *)
Fixpoint includes (s sub : string) : bool :=
  String.prefix sub s ||
  match s with
  | EmptyString => false
  | String _ t => includes t sub
  end.

(** Truthiness of a string: the empty string is falsy. *)
Definition nonempty (s : string) : bool :=
  match s with EmptyString => false | _ => true end.

(** Truthiness of an optional string property. *)
Definition truthy_str (o : option string) : bool :=
  match o with Some s => nonempty s | None => false end.

(** [a || b] on an optional string with a string default. *)
Definition or_str (o : option string) (d : string) : string :=
  match o with Some s => if nonempty s then s else d | None => d end.

(** [a || b] on two optional strings. *)
Definition or_opt (a b : option string) : option string :=
  if truthy_str a then a else b.

(** [a ?? b] on an optional string with a string default. *)
Definition nullish_str (o : option string) (d : string) : string :=
  match o with Some s => s | None => d end.

(** A property the code uses as a number: a JSON number, or a JSON
    string holding the decimal numeral of the number. *)
Inductive numeric : Type :=
| Num (z : Z)
| NumStr (z : Z).

(** [Number(v)] and the numeric coercion of [/], [*] and [-]: exact on
    the integers of magnitude below [2^53], the numbers of the model;
    beyond them JavaScript rounds, and the theorems that compare numbers
    state that bound. *)
Definition toNumber (v : numeric) : Z :=
  match v with Num z => z | NumStr z => z end.

(** Truthiness: the number [0] is falsy, a numeral string never is. *)
Definition truthy_num (o : option numeric) : bool :=
  match o with
  | Some (Num z) => negb (z =? 0)%Z
  | Some (NumStr _) => true
  | None => false
  end.

(** [(v || 0)] read as a number. *)
Definition num_or0 (o : option numeric) : Z :=
  match o with Some v => toNumber v | None => 0%Z end.

Definition digit (n : Z) : ascii := ascii_of_nat (48 + Z.to_nat n).

Fixpoint decimal_pos (fuel : nat) (n : Z) (acc : string) : string :=
  match fuel with
  | O => acc
  | S f =>
      let acc' := String (digit (n mod 10)) acc in
      if (n <? 10)%Z then acc' else decimal_pos f (n / 10) acc'
  end.

(** The decimal numeral of an integer, as template literals print it. *)
Definition decimal (n : Z) : string :=
  if (n <? 0)%Z
  then "-" ++ decimal_pos (S (Z.to_nat (Z.log2 (- n)))) (- n) ""
  else decimal_pos (S (Z.to_nat (Z.log2 n))) n "".

(** [s], with zeros in front up to [f] characters. *)
Definition pad_fraction (f : nat) (s : string) : string :=
  let fix zeros (k : nat) : string :=
    match k with O => "" | S k' => String "0" (zeros k') end in
  zeros (f - String.length s) ++ s.

(** [(bytes / 1024 / 1024).toFixed(f)].  The two divisions are exact in
    binary floating point, and [toFixed] picks the integer [t] closest to
    [10^f * x], the larger one on a tie: [t = floor (10^f * x + 1/2)].  The
    result has at least one digit before the point and exactly [f] after
    it. *)
Definition mebibytes_toFixed (f : nat) (bytes : Z) : string :=
  let scale := (10 ^ Z.of_nat f)%Z in
  let render (n : Z) : string :=
    let t := ((scale * n + 2 ^ 19) / 2 ^ 20)%Z in
    decimal (t / scale) ++
    match f with
    | O => ""
    | _ => "." ++ pad_fraction f (decimal (t mod scale))
    end in
  if (bytes <? 0)%Z then "-" ++ render (- bytes)%Z else render bytes.

(** [String.prototype.slice(0, n)] *)
Definition slice0 (n : nat) (s : string) : string := String.substring 0 n s.

(** [s.split('.').pop()]: the text after the last dot, all of [s] when it
    has no dot. *)
Fixpoint after_last_dot_aux (s acc : string) : string :=
  match s with
  | EmptyString => acc
  | String c t =>
      if Ascii.eqb c "." then after_last_dot_aux t t
      else after_last_dot_aux t acc
  end.

Definition split_dot_pop (s : string) : string := after_last_dot_aux s s.

(** Characters of [StrWhiteSpaceChar] below 256. *)
Definition is_white (c : ascii) : bool :=
  let n := nat_of_ascii c in
  (((9 <=? n) && (n <=? 13)) || (n =? 32) || (n =? 160))%nat.

Fixpoint trim_start (s : string) : string :=
  match s with
  | String c t => if is_white c then trim_start t else s
  | EmptyString => s
  end.

(** The value of a digit in the given radix, if it is one. *)
Definition digit_value (radix : Z) (c : ascii) : option Z :=
  let n := Z.of_nat (nat_of_ascii c) in
  let v := if ((48 <=? n) && (n <=? 57))%Z then Some (n - 48)%Z
           else if ((97 <=? n) && (n <=? 122))%Z then Some (n - 87)%Z
           else if ((65 <=? n) && (n <=? 90))%Z then Some (n - 55)%Z
           else None in
  match v with
  | Some d => if (d <? radix)%Z then Some d else None
  | None => None
  end.

(** The leading digits of [s], accumulated; [None] when there is none. *)
Fixpoint digits_value (radix : Z) (s : string) (acc : option Z) : option Z :=
  match s with
  | String c t =>
      match digit_value radix c with
      | Some d =>
          digits_value radix t
            (Some (match acc with Some a => a * radix + d | None => d end)%Z)
      | None => acc
      end
  | EmptyString => acc
  end.

(** [parseInt(s)]: leading white space, a sign, a [0x] prefix, then the
    longest run of digits; [None] is [NaN]. *)
Definition parseInt (s : string) : option Z :=
  let s1 := trim_start s in
  let (neg, s2) :=
    match s1 with
    | String "-" t => (true, t)
    | String "+" t => (false, t)
    | _ => (false, s1)
    end in
  let (radix, s3) :=
    match s2 with
    | String "0" (String "x" t) => (16%Z, t)
    | String "0" (String "X" t) => (16%Z, t)
    | _ => (10%Z, s2)
    end in
  match digits_value radix s3 None with
  | Some v => Some (if neg then (- v)%Z else v)
  | None => None
  end.

End Js.

(* ===================================================================== *)
(** * Arrays and maps                                                     *)
(* ===================================================================== *)

Module JsArray.

Section Sort.
Context {A : Type}.
Variable compareFn : A -> A -> Z.

(** [x] is placed in front of the first element it does not have to
    follow. *)
Fixpoint insert (x : A) (l : list A) : list A :=
  match l with
  | [] => [x]
  | y :: t => if (compareFn x y <=? 0)%Z then x :: l else y :: insert x t
  end.

(** [Array.prototype.sort(compareFn)].  ECMAScript requires the sort to
    be stable; for a comparator that orders the elements consistently
    this fixes the result, whatever algorithm the engine runs.  The
    model is the stable insertion sort. *)
Definition sort (l : list A) : list A := fold_right insert [] l.

(** [x] may stand in front of [y]. *)
Definition in_order (x y : A) : Prop := (compareFn x y <= 0)%Z.
End Sort.

(** [arr[0]] *)
Definition first {A : Type} (l : list A) : option A := hd_error l.

(** [arr.indexOf(x)] on an array of strings. *)
Fixpoint indexOf_from (i : Z) (l : list string) (x : string) : Z :=
  match l with
  | [] => (-1)%Z
  | y :: t => if String.eqb y x then i else indexOf_from (i + 1)%Z t x
  end.

Definition indexOf (l : list string) (x : string) : Z := indexOf_from 0%Z l x.

End JsArray.

(** A [Map] with string keys: its entries in insertion order.  [set] on a
    key already present replaces the value and leaves the entry where it
    is. *)
Module JsMap.

Section Map.
Context {V : Type}.

Definition t : Type := list (string * V).

Fixpoint set (k : string) (v : V) (m : t) : t :=
  match m with
  | [] => [(k, v)]
  | (k', v') :: rest =>
      if String.eqb k' k then (k', v) :: rest else (k', v') :: set k v rest
  end.

(** [new Map(entries)] *)
Definition of_entries (entries : list (string * V)) : t :=
  fold_left (fun m e => set (fst e) (snd e) m) entries [].

(** [Array.from(m.values())] *)
Definition values (m : t) : list V := map snd m.

Definition keys (m : t) : list string := map fst m.

(** [m.get(k)] *)
Fixpoint get (k : string) (m : t) : option V :=
  match m with
  | [] => None
  | (k', v) :: rest => if String.eqb k' k then Some v else get k rest
  end.

(** [m.delete(k)] *)
Fixpoint delete (k : string) (m : t) : t :=
  match m with
  | [] => []
  | (k', v) :: rest => if String.eqb k' k then rest else (k', v) :: delete k rest
  end.
End Map.

End JsMap.

(* ===================================================================== *)
(** * Regular expressions                                                 *)
(* ===================================================================== *)

(** The patterns of the repository use literals, character classes,
    groups, alternation and the quantifiers [?], [*], [+], [*?] and [{n}];
    no anchors, flags, look-around or back-references.  [rmatch r s] lists
    the remainders of [s] after each way [r] matches a prefix of it, in
    the priority order a backtracking matcher explores them. *)
Module Regex.

Inductive pattern : Type :=
| Class (p : ascii -> bool)
| Eps
| Seq (a b : pattern)
| Alt (a b : pattern)
| Star (greedy : bool) (a : pattern).

(** Iterating [step] at most [fuel] times; an iteration that consumes
    nothing is rejected, as ECMAScript does. *)
Fixpoint star_from (step : string -> list string) (greedy : bool)
    (fuel : nat) (s : string) : list string :=
  match fuel with
  | O => [s]
  | S f =>
      let shorter t := (String.length t <? String.length s)%nat in
      let more := flat_map (star_from step greedy f) (filter shorter (step s)) in
      if greedy then (more ++ [s])%list else s :: more
  end.

Fixpoint rmatch (r : pattern) (s : string) : list string :=
  match r with
  | Class p =>
      match s with
      | String c t => if p c then [t] else []
      | EmptyString => []
      end
  | Eps => [s]
  | Seq a b => flat_map (rmatch b) (rmatch a s)
  | Alt a b => (rmatch a s ++ rmatch b s)%list
  | Star greedy a => star_from (rmatch a) greedy (String.length s) s
  end.

(** The suffixes of [s], longest first: the start positions of a search. *)
Fixpoint suffixes (s : string) : list string :=
  s :: match s with EmptyString => [] | String _ t => suffixes t end.

(** [RegExp.prototype.test] of a pattern without the [g] flag. *)
Definition test (r : pattern) (s : string) : bool :=
  existsb (fun t => match rmatch r t with [] => false | _ => true end)
          (suffixes s).

(** [s.match(r)] for a pattern [r = prefix ([cls]{n}) rest] whose [rest]
    always matches: the leftmost, highest-priority match, and the text of
    its only capture group, [m[1]]. *)
Fixpoint take_class (cls : ascii -> bool) (n : nat) (s : string) : option string :=
  match n with
  | O => Some ""
  | S k =>
      match s with
      | String c t =>
          if cls c then option_map (String c) (take_class cls k t) else None
      | EmptyString => None
      end
  end.

Fixpoint first_some {A B : Type} (f : A -> option B) (l : list A) : option B :=
  match l with
  | [] => None
  | x :: t => match f x with Some y => Some y | None => first_some f t end
  end.

Definition match_group1 (prefix : pattern) (cls : ascii -> bool) (n : nat)
    (s : string) : option string :=
  first_some (fun start => first_some (take_class cls n) (rmatch prefix start))
             (suffixes s).

(** Pattern syntax. *)
Definition chr (c : ascii) : pattern := Class (Ascii.eqb c).

Fixpoint lit (s : string) : pattern :=
  match s with
  | EmptyString => Eps
  | String c EmptyString => chr c
  | String c t => Seq (chr c) (lit t)
  end.

Definition opt (a : pattern) : pattern := Alt a Eps.
Definition plus (a : pattern) : pattern := Seq a (Star true a).

Fixpoint seqs (l : list pattern) : pattern :=
  match l with
  | [] => Eps
  | [a] => a
  | a :: t => Seq a (seqs t)
  end.

Fixpoint alts (a : pattern) (l : list pattern) : pattern :=
  match l with
  | [] => a
  | b :: t => Alt a (alts b t)
  end.

(** Character classes. *)
Definition in_range (lo hi c : ascii) : bool :=
  ((nat_of_ascii lo <=? nat_of_ascii c) && (nat_of_ascii c <=? nat_of_ascii hi))%nat.

Definition is_digit (c : ascii) : bool := in_range "0" "9" c.
Definition is_alpha (c : ascii) : bool := in_range "a" "z" c || in_range "A" "Z" c.

(** [\w] *)
Definition is_word (c : ascii) : bool := is_alpha c || is_digit c || Ascii.eqb c "_".

(** [\s] *)
Definition is_space (c : ascii) : bool :=
  let n := nat_of_ascii c in
  (((9 <=? n) && (n <=? 13)) || (n =? 32) || (n =? 160))%nat.

(** [\S] *)
Definition not_space (c : ascii) : bool := negb (is_space c).

(** [[\w.-]] *)
Definition is_word_dot_dash (c : ascii) : bool :=
  is_word c || Ascii.eqb c "." || Ascii.eqb c "-".

(** [[\w-]], also written [[a-zA-Z0-9_-]] and [[0-9A-Za-z_-]] *)
Definition is_word_dash (c : ascii) : bool := is_word c || Ascii.eqb c "-".

(** [(?:https?:\/\/)?(?:www\.)?], the head of every platform pattern. *)
Definition scheme_www : pattern :=
  Seq (opt (seqs [lit "http"; opt (chr "s"); lit "://"])) (opt (lit "www.")).

End Regex.

(* ===================================================================== *)
(** * types.ts                                                            *)
(* ===================================================================== *)

Inductive PlatformName : Type :=
| YouTube | TikTok | Instagram | Twitter | Facebook | LinkedIn | Pinterest.

(** The string a [PlatformName] is at run time. *)
Definition name_string (n : PlatformName) : string :=
  match n with
  | YouTube => "YouTube"
  | TikTok => "TikTok"
  | Instagram => "Instagram"
  | Twitter => "Twitter"
  | Facebook => "Facebook"
  | LinkedIn => "LinkedIn"
  | Pinterest => "Pinterest"
  end.

(** [icon] is a React element; the model keeps the component's name. *)
Record Platform : Type := mkPlatform {
  name : PlatformName;
  color : string;
  icon : string;
  regex : Regex.pattern
}.

Record DownloadOption : Type := mkOption {
  quality : string;
  url : option string;
  format : option string;
  size : option string
}.

(** The interface declares most fields as strings; the resolvers fill
    several of them from optional upstream properties, so they may be
    [undefined] at run time. *)
Record MediaInfo : Type := mkMediaInfo {
  title : option string;
  thumbnail : option string;
  duration : option string;
  author : option string;
  platform : PlatformName;
  source_url : option string;          (* the field [url] *)
  description : option string;
  downloadOptions : list DownloadOption
}.

(* ===================================================================== *)
(** * constants.tsx and utils/platform.ts                                 *)
(* ===================================================================== *)

Module Detector.
Import Regex.

Definition youtube_regex : pattern :=
  seqs [scheme_www; Alt (lit "youtube.com") (lit "youtu.be"); chr "/";
        opt (lit "watch?v="); opt (lit "embed/"); opt (lit "v/");
        plus (Class not_space)].

Definition tiktok_regex : pattern :=
  seqs [scheme_www; lit "tiktok.com/";
        alts (seqs [chr "@"; plus (Class is_word_dot_dash); lit "/video/"])
             [lit "v/"; lit "embed/"; Eps];
        plus (Class is_digit)].

Definition instagram_regex : pattern :=
  seqs [scheme_www; lit "instagram.com/";
        alts (lit "p") [lit "reel"; lit "tv"]; chr "/";
        plus (Class is_word_dash)].

Definition twitter_regex : pattern :=
  seqs [scheme_www; Alt (lit "twitter.com") (lit "x.com"); chr "/";
        plus (Class is_word); lit "/status/"; plus (Class is_digit)].

Definition facebook_regex : pattern :=
  seqs [scheme_www; lit "facebook.com/";
        alts (seqs [lit "watch"; opt (chr "/"); lit "?v="])
             [lit "video.php?v="; Eps];
        plus (Class is_word_dot_dash)].

Definition linkedin_regex : pattern :=
  seqs [scheme_www; lit "linkedin.com/";
        alts (lit "feed/update/urn:li:activity:")
             [lit "embed/feed/update/urn:li:share:"; lit "posts/"]].

Definition pinterest_regex : pattern :=
  seqs [scheme_www; lit "pinterest.";
        alts (lit "com")
             [lit "ca"; lit "co.uk"; lit "fr"; lit "de"; lit "es"; lit "it";
              lit "jp"; lit "com.au"];
        lit "/pin/"; plus (Class is_digit)].

(** [PLATFORMS]: an object literal; its keys are listed in the order they
    are written, which is the order [Object.values] enumerates them. *)
Definition PLATFORMS : list (PlatformName * Platform) :=
  [ (YouTube,   mkPlatform YouTube   "#FF0000" "YouTubeIcon"   youtube_regex);
    (TikTok,    mkPlatform TikTok    "#000000" "TikTokIcon"    tiktok_regex);
    (Instagram, mkPlatform Instagram "#E4405F" "InstagramIcon" instagram_regex);
    (Twitter,   mkPlatform Twitter   "#1DA1F2" "TwitterIcon"   twitter_regex);
    (Facebook,  mkPlatform Facebook  "#1877F2" "FacebookIcon"  facebook_regex);
    (LinkedIn,  mkPlatform LinkedIn  "#0A66C2" "LinkedInIcon"  linkedin_regex);
    (Pinterest, mkPlatform Pinterest "#E60023" "PinterestIcon" pinterest_regex) ].

Definition Object_values {K V : Type} (o : list (K * V)) : list V := map snd o.

(** [for (const platform of table) if (platform.regex.test(url)) return platform;
    return null] *)
Fixpoint getPlatform_loop (table : list Platform) (url : string) : option Platform :=
  match table with
  | [] => None
  | platform :: rest =>
      if test (regex platform) url then Some platform
      else getPlatform_loop rest url
  end.

Definition getPlatform (url : string) : option Platform :=
  getPlatform_loop (Object_values PLATFORMS) url.

End Detector.


(* ===================================================================== *)
(** * Errors, the network and asynchronous code                           *)
(* ===================================================================== *)

Record JsError : Type := mkError {
  error_name : string;
  message : string
}.

(** [new Error(msg)] *)
Definition Error (msg : string) : JsError := mkError "Error" msg.

(** The [TypeError] of reading a property of [undefined] (V8's text). *)
Definition undefined_property (prop : string) : JsError :=
  mkError "TypeError"
          ("Cannot read properties of undefined (reading '" ++ prop ++ "')").

Record Request : Type := mkRequest {
  rq_method : string;
  rq_url : string;
  rq_timeout : option Z;              (* [AbortSignal.timeout(ms)] *)
  rq_headers : list (string * string)
}.

(** [fetch(url)], [fetch(url, { signal: AbortSignal.timeout(ms) })], ... *)
Definition GET (u : string) : Request := mkRequest "GET" u None [].
Definition GET_within (ms : Z) (u : string) : Request := mkRequest "GET" u (Some ms) [].
Definition GET_json_within (ms : Z) (u : string) : Request :=
  mkRequest "GET" u (Some ms) [("Accept", "application/json")].
Definition HEAD_within (ms : Z) (u : string) : Request := mkRequest "HEAD" u (Some ms) [].

(** What a run does to the outside world, in order. *)
Inductive Call : Type :=
| Fetch (rq : Request)
| GenerateContent (model contents : string).

Definition Trace : Type := list Call.

(** A [Response] whose body, once parsed by [res.json()], has shape [B];
    [inl e] is a body that does not parse. *)
Record Response (B : Type) : Type := mkResponse {
  status : Z;
  statusText : string;
  body : JsError + B
}.
Arguments mkResponse {B}.
Arguments status {B}.
Arguments statusText {B}.
Arguments body {B}.

(** [res.ok]: the status is in the range 200-299. *)
Definition ok {B : Type} (res : Response B) : bool :=
  ((200 <=? status res) && (status res <=? 299))%Z.

(** The promise [fetch] returns: rejected (connection error, time-out) or
    fulfilled with a response. *)
Inductive Fetched (B : Type) : Type :=
| Rejected (e : JsError)
| Responded (r : Response B).
Arguments Rejected {B}.
Arguments Responded {B}.

(** An upstream service: its answer to a request, given how many calls
    the run has made before it. *)
Definition Service (B : Type) : Type := nat -> Request -> Fetched B.

Inductive Outcome (A : Type) : Type :=
| Returned (a : A)
| Thrown (e : JsError).
Arguments Returned {A}.
Arguments Thrown {A}.

(** An [async] computation. *)
Definition M (A : Type) : Type := Trace -> Outcome A * Trace.

Definition ret {A : Type} (a : A) : M A := fun tr => (Returned a, tr).

Definition throw {A : Type} (e : JsError) : M A := fun tr => (Thrown e, tr).

Definition bind {A B : Type} (m : M A) (k : A -> M B) : M B :=
  fun tr =>
    match m tr with
    | (Returned a, tr') => k a tr'
    | (Thrown e, tr') => (Thrown e, tr')
    end.

(** [try { m } catch (e) { handler e }] *)
Definition try_catch {A : Type} (m : M A) (handler : JsError -> M A) : M A :=
  fun tr =>
    match m tr with
    | (Returned a, tr') => (Returned a, tr')
    | (Thrown e, tr') => handler e tr'
    end.

Declare Scope async_scope.
Delimit Scope async_scope with async.
Notation "x <- m ;; k" := (bind m (fun x => k))
  (at level 61, m at next level, right associativity) : async_scope.
Notation "m ;;; k" := (bind m (fun _ => k))
  (at level 61, right associativity) : async_scope.
Local Open Scope async_scope.

(** [await fetch(...)] against a service. *)
Definition fetch {B : Type} (service : Service B) (rq : Request) : M (Response B) :=
  fun tr =>
    match service (List.length tr) rq with
    | Rejected e => (Thrown e, (tr ++ [Fetch rq])%list)
    | Responded r => (Returned r, (tr ++ [Fetch rq])%list)
    end.

(** [await res.json()] *)
Definition json {B : Type} (res : Response B) : M B :=
  match body res with
  | inl e => throw e
  | inr b => ret b
  end.

(** A synchronous step that may throw. *)
Definition lift {A : Type} (r : JsError + A) : M A :=
  match r with
  | inl e => throw e
  | inr a => ret a
  end.

(** [if (c) throw e] *)
Definition throw_if (c : bool) (e : JsError) : M unit :=
  if c then throw e else ret tt.

(* ===================================================================== *)
(** * Upstream documents                                                  *)
(* ===================================================================== *)

(** One record per JSON object the resolvers read, one optional field per
    property they access. *)

Module InvStream.
Record t : Type := mk {
  type : option string;
  qualityLabel : option string;
  height : option Z;
  url : option string;
  contentLength : option Js.numeric;
  bitrate : option Js.numeric;
  container : option string;
  size : option Js.numeric
}.
End InvStream.

Module InvThumb.
Record t : Type := mk {
  quality : option string;
  url : option string
}.
End InvThumb.

Module InvVideo.
Record t : Type := mk {
  title : option string;
  videoThumbnails : option (list InvThumb.t);
  author : option string;
  description : option string;
  lengthSeconds : option Z;
  formatStreams : option (list InvStream.t);
  adaptiveFormats : option (list InvStream.t)
}.
End InvVideo.

Module TikData.
Record t : Type := mk {
  hdplay : option string;
  play : option string;
  wmplay : option string;
  size : option Js.numeric;
  music : option string;
  title : option string;
  cover : option string;
  duration : option Z;
  author_nickname : option (option string)   (* [author], then [nickname] *)
}.
End TikData.

Module TikReply.
Record t : Type := mk {
  code : option Z;
  msg : option string;
  data : option TikData.t
}.
End TikReply.

Module VxMedia.
Record t : Type := mk {
  type : option string;
  height : option Z;
  url : option string;
  thumbnail_url : option string
}.
End VxMedia.

Module VxTweet.
Record t : Type := mk {
  text : option string;
  media_all : option (option (list VxMedia.t));   (* [media], then [all] *)
  user_name : option string;
  user_screen_name : option string;
  tweetURL : option string
}.
End VxTweet.

Module VxReply.
Record t : Type := mk {
  tweet : option VxTweet.t;
  message : option string
}.
End VxReply.

Module IgSlide.
Record t : Type := mk {
  video_url : option string;
  image_url : option string
}.
End IgSlide.

Module IgData.
Record t : Type := mk {
  video_url : option string;
  image_url : option string;
  carousel : option (list IgSlide.t);
  caption : option string;
  thumbnail : option string;
  username : option string
}.
End IgData.

Module IgReply.
Record t : Type := mk {
  success : bool;
  message : option string;
  data : option IgData.t
}.
End IgReply.

Module FbReply.
Record t : Type := mk {
  success : bool;
  message : option string;
  hd : option string;
  sd : option string;
  thumbnail : option string
}.
End FbReply.

Module PinReply.
Record t : Type := mk {
  success : bool;
  message : option string;
  video : option string;
  image : option string;
  title : option string;
  author : option string;
  description : option string
}.
End PinReply.

Module Oembed.
Record t : Type := mk {
  title : option string;
  author_name : option string
}.
End Oembed.

(** Everything outside the program: the upstream services, the Gemini
    client and the [Date] built-in. *)
Record World : Type := mkWorld {
  invidious : Service InvVideo.t;
  tikwm : Service TikReply.t;
  vxtwitter : Service VxReply.t;
  ddinstagram : Service IgReply.t;
  fbdownloader : Service FbReply.t;
  pinloader : Service PinReply.t;
  youtube_oembed : Service Oembed.t;
  (** [process.env.API_KEY] *)
  API_KEY : option string;
  (** [ai.models.generateContent]: rejected, or a response and its [text] *)
  generateContent : nat -> string -> string -> JsError + option string;
  (** [new Date(ms).toISOString()]; a [RangeError] for an invalid time *)
  toISOString : Z -> JsError + string
}.

Module JsText.

Definition hex_digit (n : nat) : ascii :=
  if (n <? 10)%nat then ascii_of_nat (48 + n) else ascii_of_nat (55 + n).

Definition percent (n : nat) : string :=
  String "%" (String (hex_digit (n / 16)) (String (hex_digit (n mod 16)) "")).

(** Characters [encodeURIComponent] leaves as they are. *)
Definition unreserved (c : ascii) : bool :=
  Regex.is_alpha c || Regex.is_digit c ||
  existsb (Ascii.eqb c) ["-"; "_"; "."; "!"; "~"; "*"; "'"; "("; ")"]%char.

(** [encodeURIComponent]: the UTF-8 bytes of every other character,
    percent-escaped. *)
Fixpoint encodeURIComponent (s : string) : string :=
  match s with
  | EmptyString => ""
  | String c t =>
      let n := nat_of_ascii c in
      (if unreserved c then String c ""
       else if (n <? 128)%nat then percent n
       else percent (192 + n / 64) ++ percent (128 + n mod 64))
      ++ encodeURIComponent t
  end.

(** [s.substr(start, len)] *)
Definition substr (start len : nat) (s : string) : string :=
  String.substring start len s.

(** [s.replace(/^pattern/, replacement)]: the pattern is tried at the
    start of [s] only, and its highest-priority match is replaced. *)
Definition replace_at_start (p : Regex.pattern) (replacement s : string) : string :=
  match Regex.rmatch p s with
  | rest :: _ => replacement ++ rest
  | [] => s
  end.

Fixpoint rev_string (s acc : string) : string :=
  match s with
  | EmptyString => acc
  | String c t => rev_string t (String c acc)
  end.

(** [s.trim()] *)
Definition trim (s : string) : string :=
  rev_string (Js.trim_start (rev_string (Js.trim_start s) "")) "".

(** [`${n}`] for an optional number. *)
Definition template_num (o : option Z) : string :=
  match o with Some z => Js.decimal z | None => "undefined" end.

End JsText.

(** [(bytes / 1024 / 1024).toFixed(f) + ' MB'] under the guard
    [bytes ? ... : undefined]. *)
Definition size_MB (f : nat) (bytes : option Js.numeric) : option string :=
  match bytes with
  | Some v =>
      if Js.truthy_num bytes
      then Some (Js.mebibytes_toFixed f (Js.toNumber v) ++ " MB")
      else None
  | None => None
  end.

(** [new Date(seconds * 1000).toISOString().substr(start, len)] *)
Definition clock (W : World) (seconds : Z) (start len : nat) : M string :=
  iso <- lift (toISOString W (seconds * 1000)%Z) ;;
  ret (JsText.substr start len iso).

(* ===================================================================== *)
(** * services/downloadService.ts, the draft with the in-line mirror loop *)
(* ===================================================================== *)

Module MirrorDraft.
Section WithWorld.
Variable W : World.

Definition INV_MIRRORS : list string :=
  [ "https://invidious.snopyta.org";
    "https://y.com.sb";
    "https://inv.riverside.rocks";
    "https://invidious.fdn.fr";
    "https://invidious.tiekoetter.com" ].

(** [(?:youtube\.com\/(?:embed\/|watch\?v=)|youtu\.be\/)([a-zA-Z0-9_-]{11})]
    and [youtube\.com\/shorts\/([a-zA-Z0-9_-]{11})], without their
    capture groups. *)
Definition patterns : list Regex.pattern :=
  [ Regex.Alt (Regex.Seq (Regex.lit "youtube.com/")
                         (Regex.Alt (Regex.lit "embed/") (Regex.lit "watch?v=")))
              (Regex.lit "youtu.be/");
    Regex.lit "youtube.com/shorts/" ].

Definition getYoutubeVideoId (url : string) : option string :=
  Regex.first_some
    (fun p => Regex.match_group1 p Regex.is_word_dash 11 url) patterns.

Definition api_url (base videoId : string) : string :=
  base ++ "/api/v1/videos/" ++ videoId ++
  "?fields=title,videoThumbnails,author,description,lengthSeconds,formatStreams,adaptiveFormats".

(** The loop over [INV_MIRRORS]: [Some data] after the [break], [None]
    when the list is exhausted with [data] still [null]. *)
Fixpoint mirror_loop (mirrors : list string) (videoId : string)
    : M (option InvVideo.t) :=
  match mirrors with
  | [] => ret None
  | base :: rest =>
      data <- try_catch
                (res <- fetch (invidious W) (GET_within 8000 (api_url base videoId)) ;;
                 if ok res
                 then (d <- json res ;; ret (Some d))
                 else ret None)
                (fun _ => ret None) ;;
      match data with
      | Some d => ret (Some d)
      | None => mirror_loop rest videoId
      end
  end.

Definition streams (data : InvVideo.t) : list InvStream.t :=
  (match InvVideo.formatStreams data with Some l => l | None => [] end ++
   match InvVideo.adaptiveFormats data with Some l => l | None => [] end)%list.

Definition type_includes (sub : string) (s : InvStream.t) : bool :=
  match InvStream.type s with
  | Some ty => Js.includes ty sub
  | None => false
  end.

Definition videoStreams (data : InvVideo.t) : list InvStream.t :=
  filter (fun s => type_includes "video/mp4" s &&
                   Js.truthy_str (InvStream.qualityLabel s))
         (streams data).

Definition audioStreams (data : InvVideo.t) : list InvStream.t :=
  filter (type_includes "audio") (streams data).

Definition by_bitrate (a b : InvStream.t) : Z :=
  (Js.num_or0 (InvStream.bitrate b) - Js.num_or0 (InvStream.bitrate a))%Z.

Definition bestAudio (data : InvVideo.t) : option InvStream.t :=
  JsArray.first (JsArray.sort by_bitrate (audioStreams data)).

Definition video_option (s : InvStream.t) : DownloadOption :=
  {| quality := Js.or_str (InvStream.qualityLabel s)
                          (JsText.template_num (InvStream.height s) ++ "p");
     format := Some "mp4";
     url := InvStream.url s;
     size := size_MB 1 (InvStream.contentLength s) |}.

Definition audio_option (best : InvStream.t) : DownloadOption :=
  {| quality := "audio";
     format := Some "m4a";
     url := InvStream.url best;
     size := size_MB 1 (InvStream.contentLength best) |}.

(** [options] before it is sorted. *)
Definition options (data : InvVideo.t) : list DownloadOption :=
  (map video_option (videoStreams data) ++
   match bestAudio data with
   | Some best => [audio_option best]
   | None => []
   end)%list.

Definition order : list string :=
  ["2160p"; "1440p"; "1080p"; "720p"; "480p"; "360p"; "240p"; "144p"; "audio"].

Definition by_order (a b : DownloadOption) : Z :=
  (JsArray.indexOf order (quality a) - JsArray.indexOf order (quality b))%Z.

Definition thumbnail_of (data : InvVideo.t) : option string :=
  Js.or_opt
    match InvVideo.videoThumbnails data with
    | Some ts =>
        match find (fun t => match InvThumb.quality t with
                             | Some q => String.eqb q "maxresdefault"
                             | None => false
                             end) ts with
        | Some t => InvThumb.url t
        | None => None
        end
    | None => None
    end
    match InvVideo.videoThumbnails data with
    | Some (t :: _) => InvThumb.url t
    | _ => None
    end.

Definition fetchYouTubeInfo (url : string) : M MediaInfo :=
  match getYoutubeVideoId url with
  | None => throw (Error "Invalid YouTube URL")
  | Some videoId =>
      throw_if (negb (Js.nonempty videoId)) (Error "Invalid YouTube URL") ;;;
      found <- mirror_loop INV_MIRRORS videoId ;;
      match found with
      | None => throw (Error "All YouTube mirrors failed. Try again later.")
      | Some data =>
          let opts := options data in
          throw_if (Nat.eqb (List.length opts) 0)
                   (Error "No downloadable streams (private/live?)") ;;;
          let sorted := JsArray.sort by_order opts in
          duration <- match InvVideo.lengthSeconds data with
                      | Some secs =>
                          if (secs =? 0)%Z then ret "LIVE" else clock W secs 11 8
                      | None => ret "LIVE"
                      end ;;
          ret {| title := Some (Js.or_str (InvVideo.title data) "YouTube Video");
                 thumbnail := thumbnail_of data;
                 duration := Some duration;
                 author := InvVideo.author data;
                 platform := YouTube;
                 source_url := Some ("https://youtube.com/watch?v=" ++ videoId);
                 description := option_map (Js.slice0 500) (InvVideo.description data);
                 downloadOptions := sorted |}
      end
  end.

(** [d.music.startsWith('http') ? d.music : `https://www.tikwm.com${d.music}`] *)
Definition musicUrl (music : string) : string :=
  if Js.startsWith music "http" then music else "https://www.tikwm.com" ++ music.

Definition tiktok_options (d : TikData.t) : list DownloadOption :=
  (match Js.or_opt (TikData.hdplay d) (TikData.play d) with
   | Some videoUrl =>
       if Js.nonempty videoUrl
       then [ {| quality := "HD Video"; format := Some "mp4";
                 url := Some videoUrl; size := size_MB 1 (TikData.size d) |} ]
       else []
   | None => []
   end ++
   match TikData.music d with
   | Some music =>
       if Js.nonempty music
       then [ {| quality := "Audio"; format := Some "mp3";
                 url := Some (musicUrl music); size := None |} ]
       else []
   | None => []
   end)%list.

Definition fetchTikTokInfo (url : string) : M MediaInfo :=
  let api := "https://www.tikwm.com/api/?url=" ++ JsText.encodeURIComponent url ++ "&hd=1" in
  res <- fetch (tikwm W) (GET api) ;;
  throw_if (negb (ok res)) (Error "TikTok API down") ;;;
  reply <- json res ;;
  throw_if (negb match TikReply.code reply with
                 | Some c => (c =? 0)%Z
                 | None => false
                 end)
           (Error (Js.or_str (TikReply.msg reply) "TikTok fetch failed")) ;;;
  match TikReply.data reply with
  | None => throw (undefined_property "hdplay")
  | Some d =>
      let opts := tiktok_options d in
      throw_if (Nat.eqb (List.length opts) 0) (Error "No media found") ;;;
      duration <- match TikData.duration d with
                  | Some secs =>
                      if (secs =? 0)%Z then ret "00:00" else clock W secs 14 5
                  | None => ret "00:00"
                  end ;;
      ret {| title := Some (Js.or_str (TikData.title d) "TikTok Video");
             thumbnail := TikData.cover d;
             duration := Some duration;
             author := Some (Js.or_str match TikData.author_nickname d with
                                       | Some nickname => nickname
                                       | None => None
                                       end "Unknown");
             platform := TikTok;
             source_url := Some url;
             description := TikData.title d;
             downloadOptions := opts |}
  end.

(** [^(https?:\/\/)?(www\.)?(twitter\.com|x\.com)] *)
Definition twitter_host : Regex.pattern :=
  Regex.seqs
    [ Regex.opt (Regex.seqs [Regex.lit "http"; Regex.opt (Regex.chr "s"); Regex.lit "://"]);
      Regex.opt (Regex.lit "www.");
      Regex.Alt (Regex.lit "twitter.com") (Regex.lit "x.com") ].

(** The body of [media.forEach]; reading [m.url.split] throws when
    [m.url] is missing. *)
Definition media_option (m : VxMedia.t) : JsError + list DownloadOption :=
  let has_type ty := match VxMedia.type m with Some x => String.eqb x ty | None => false end in
  if has_type "video" || has_type "gif" then
    match VxMedia.url m with
    | None => inl (undefined_property "split")
    | Some u =>
        inr [ {| quality := match VxMedia.height m with
                            | Some h => if (h =? 0)%Z then "Video" else Js.decimal h ++ "p"
                            | None => "Video"
                            end;
                 format := Some (Js.or_str (Some (Js.split_dot_pop u)) "mp4");
                 url := Some u; size := None |} ]
    end
  else if has_type "photo" then
    match VxMedia.url m with
    | None => inl (undefined_property "split")
    | Some u =>
        inr [ {| quality := "Photo";
                 format := Some (Js.or_str (Some (Js.split_dot_pop u)) "jpg");
                 url := Some u; size := None |} ]
    end
  else inr [].

Fixpoint media_options (media : list VxMedia.t) : JsError + list DownloadOption :=
  match media with
  | [] => inr []
  | m :: rest =>
      match media_option m with
      | inl e => inl e
      | inr o =>
          match media_options rest with
          | inl e => inl e
          | inr os => inr (o ++ os)%list
          end
      end
  end.

Definition fetchTwitterInfo (url : string) : M MediaInfo :=
  let api := JsText.replace_at_start twitter_host "https://api.vxtwitter.com" url in
  res <- fetch (vxtwitter W) (GET api) ;;
  throw_if (negb (ok res)) (Error "Twitter API error") ;;;
  reply <- json res ;;
  match VxReply.tweet reply with
  | None => throw (Error (Js.or_str (VxReply.message reply) "Tweet not found"))
  | Some t =>
      let media := match VxTweet.media_all t with
                   | Some (Some all) => all
                   | _ => []
                   end in
      opts <- lift (media_options media) ;;
      throw_if (Nat.eqb (List.length opts) 0) (Error "No media in tweet") ;;;
      ret {| title := Some (Js.slice0 100 (Js.or_str (VxTweet.text t) "") ++ "...");
             thumbnail := match media with
                          | m :: _ => Js.or_opt (VxMedia.thumbnail_url m) (VxMedia.url m)
                          | [] => None
                          end;
             duration := None;
             author := Js.or_opt (VxTweet.user_name t) (VxTweet.user_screen_name t);
             platform := Twitter;
             source_url := Some (Js.or_str (VxTweet.tweetURL t) url);
             description := VxTweet.text t;
             downloadOptions := opts |}
  end.

(** The body of [d.carousel.forEach((item, i) => ...)]. *)
Definition slide_option (i : nat) (item : IgSlide.t) : DownloadOption :=
  let n := Js.decimal (Z.of_nat i + 1) in
  if Js.truthy_str (IgSlide.video_url item)
  then {| quality := "Slide " ++ n ++ " (Video)"; format := Some "mp4";
          url := IgSlide.video_url item; size := None |}
  else {| quality := "Slide " ++ n ++ " (Image)"; format := Some "jpg";
          url := IgSlide.image_url item; size := None |}.

Fixpoint slide_options (i : nat) (items : list IgSlide.t) : list DownloadOption :=
  match items with
  | [] => []
  | item :: rest => slide_option i item :: slide_options (S i) rest
  end.

Definition instagram_options (d : IgData.t) : list DownloadOption :=
  ((if Js.truthy_str (IgData.video_url d)
    then [ {| quality := "Video"; format := Some "mp4";
              url := IgData.video_url d; size := None |} ]
    else []) ++
   (if Js.truthy_str (IgData.image_url d)
    then [ {| quality := "Image"; format := Some "jpg";
              url := IgData.image_url d; size := None |} ]
    else []) ++
   match IgData.carousel d with
   | Some items => slide_options 0 items
   | None => []
   end)%list.

Definition fetchInstagramInfo (url : string) : M MediaInfo :=
  let api := "https://ddinstagram.com/api/?url=" ++ JsText.encodeURIComponent url in
  res <- fetch (ddinstagram W) (GET api) ;;
  throw_if (negb (ok res)) (Error "Instagram API error") ;;;
  reply <- json res ;;
  throw_if (negb (IgReply.success reply))
           (Error (Js.or_str (IgReply.message reply) "Instagram fetch failed")) ;;;
  match IgReply.data reply with
  | None => throw (undefined_property "video_url")
  | Some d =>
      let opts := instagram_options d in
      throw_if (Nat.eqb (List.length opts) 0) (Error "No media found") ;;;
      ret {| title := Some (Js.or_str (option_map (Js.slice0 100) (IgData.caption d))
                                      "Instagram Post");
             thumbnail := Js.or_opt (IgData.thumbnail d) (IgData.image_url d);
             duration := None;
             author := IgData.username d;
             platform := Instagram;
             source_url := Some url;
             description := IgData.caption d;
             downloadOptions := opts |}
  end.

Definition facebook_options (reply : FbReply.t) : list DownloadOption :=
  ((if Js.truthy_str (FbReply.hd reply)
    then [ {| quality := "HD"; format := Some "mp4";
              url := FbReply.hd reply; size := None |} ]
    else []) ++
   (if Js.truthy_str (FbReply.sd reply)
    then [ {| quality := "SD"; format := Some "mp4";
              url := FbReply.sd reply; size := None |} ]
    else []))%list.

Definition fetchFacebookInfo (url : string) : M MediaInfo :=
  let api := "https://fbdownloader.org/api/?url=" ++ JsText.encodeURIComponent url in
  res <- fetch (fbdownloader W) (GET api) ;;
  throw_if (negb (ok res)) (Error "Facebook API error") ;;;
  reply <- json res ;;
  throw_if (negb (FbReply.success reply))
           (Error (Js.or_str (FbReply.message reply) "Facebook fetch failed")) ;;;
  let opts := facebook_options reply in
  throw_if (Nat.eqb (List.length opts) 0) (Error "No video found (maybe private)") ;;;
  ret {| title := Some "Facebook Video";
         thumbnail := FbReply.thumbnail reply;
         duration := None;
         author := Some "Facebook User";
         platform := Facebook;
         source_url := Some url;
         description := Some "";
         downloadOptions := opts |}.

Definition pinterest_options (reply : PinReply.t) : list DownloadOption :=
  ((if Js.truthy_str (PinReply.video reply)
    then [ {| quality := "Video"; format := Some "mp4";
              url := PinReply.video reply; size := None |} ]
    else []) ++
   (if Js.truthy_str (PinReply.image reply)
    then [ {| quality := "Image"; format := Some "jpg";
              url := PinReply.image reply; size := None |} ]
    else []))%list.

Definition fetchPinterestInfo (url : string) : M MediaInfo :=
  let api := "https://pinloader.net/api/?url=" ++ JsText.encodeURIComponent url in
  res <- fetch (pinloader W) (GET api) ;;
  throw_if (negb (ok res)) (Error "Pinterest API error") ;;;
  reply <- json res ;;
  throw_if (negb (PinReply.success reply))
           (Error (Js.or_str (PinReply.message reply) "Pinterest fetch failed")) ;;;
  let opts := pinterest_options reply in
  throw_if (Nat.eqb (List.length opts) 0) (Error "No media found") ;;;
  ret {| title := Some (Js.or_str (PinReply.title reply) "Pinterest Pin");
         thumbnail := Js.or_opt (PinReply.image reply) (PinReply.video reply);
         duration := None;
         author := Some (Js.or_str (PinReply.author reply) "Unknown");
         platform := Pinterest;
         source_url := Some url;
         description := PinReply.description reply;
         downloadOptions := opts |}.

(** The [switch] on [platform.name]; its [default] branch is out of reach
    of a [PlatformName].  Whatever is thrown is thrown again as an
    [Error] with the same message. *)
Definition fetchMediaInfo (url : string) (platform : Platform) : M MediaInfo :=
  try_catch
    match name platform with
    | YouTube => fetchYouTubeInfo url
    | TikTok => fetchTikTokInfo url
    | Twitter => fetchTwitterInfo url
    | Instagram => fetchInstagramInfo url
    | Facebook => fetchFacebookInfo url
    | Pinterest => fetchPinterestInfo url
    | LinkedIn => throw (Error "LinkedIn not supported (no public API)")
    end
    (fun err =>
       throw (Error (Js.or_str (Some (message err))
                               ("Failed to fetch " ++ name_string (name platform) ++ " media")))).

End WithWorld.
End MirrorDraft.

(* ===================================================================== *)
(** * services/downloadService.ts, the draft that probes the mirrors      *)
(* ===================================================================== *)

Module ProbeDraft.
Section WithWorld.
Variable W : World.

Definition INV_MIRRORS : list string :=
  [ "https://invidious.io.lol";
    "https://invidious.snopyta.org";
    "https://y.com.sb";
    "https://inv.riverside.rocks";
    "https://invidious.fdn.fr" ].

(** The loop of [getInvidiousUrl] over the mirrors still to try. *)
Fixpoint probe_loop (mirrors : list string) (path : string) : M string :=
  match mirrors with
  | [] => throw (Error "All Invidious mirrors are down")
  | base :: rest =>
      let url := base ++ path in
      found <- try_catch
                 (r <- fetch (invidious W) (HEAD_within 5000 url) ;;
                  ret (if ok r then Some url else None))
                 (fun _ => ret None) ;;
      match found with
      | Some u => ret u
      | None => probe_loop rest path
      end
  end.

Definition getInvidiousUrl (path : string) : M string :=
  probe_loop INV_MIRRORS path.

(** [[^\/\n\s]] *)
Definition not_slash_space (c : ascii) : bool :=
  negb (Ascii.eqb c "/") && negb (Regex.is_space c).

(** [[?&]] *)
Definition is_query_mark (c : ascii) : bool := Ascii.eqb c "?" || Ascii.eqb c "&".

(** [(?:youtube\.com\/(?:[^\/\n\s]+\/\S+\/|(?:v|e(?:mbed)?)\/|\S*?[?&]v=)|youtu\.be\/)],
    the pattern in front of the capture group [([a-zA-Z0-9_-]{11})]. *)
Definition id_prefix : Regex.pattern :=
  Regex.Alt
    (Regex.Seq (Regex.lit "youtube.com/")
       (Regex.alts
          (Regex.seqs [Regex.plus (Regex.Class not_slash_space); Regex.chr "/";
                       Regex.plus (Regex.Class Regex.not_space); Regex.chr "/"])
          [ Regex.Seq (Regex.Alt (Regex.chr "v")
                                 (Regex.Seq (Regex.chr "e") (Regex.opt (Regex.lit "mbed"))))
                      (Regex.chr "/");
            Regex.seqs [Regex.Star false (Regex.Class Regex.not_space);
                        Regex.Class is_query_mark; Regex.lit "v="] ]))
    (Regex.lit "youtu.be/").

Definition getYoutubeVideoId (url : string) : option string :=
  Regex.match_group1 id_prefix Regex.is_word_dash 11 url.

Definition type_includes (sub : string) (s : InvStream.t) : bool :=
  match InvStream.type s with
  | Some ty => Js.includes ty sub
  | None => false
  end.

(** [s.contentLength ? Number(s.contentLength) : undefined] *)
Definition size_of (s : InvStream.t) : option Js.numeric :=
  match InvStream.contentLength s with
  | Some v =>
      if Js.truthy_num (InvStream.contentLength s)
      then Some (Js.Num (Js.toNumber v))
      else None
  | None => None
  end.

Record VideoStream : Type := mkVideo {
  v_quality : string;
  v_url : option string;
  v_size : option Js.numeric
}.

Record AudioStream : Type := mkAudio {
  a_bitrate : Js.numeric;
  a_url : option string;
  a_size : option Js.numeric
}.

Definition adaptive (data : InvVideo.t) : list InvStream.t :=
  match InvVideo.adaptiveFormats data with Some l => l | None => [] end.

(** The filter keeps the streams that have a label, which [map] reads. *)
Definition video_stream (s : InvStream.t) : VideoStream :=
  {| v_quality := match InvStream.qualityLabel s with
                  | Some q => q
                  | None => ""
                  end;
     v_url := InvStream.url s;
     v_size := size_of s |}.

Definition videoStreams (data : InvVideo.t) : list VideoStream :=
  map video_stream
      (filter (fun s => type_includes "video/mp4" s &&
                        Js.truthy_str (InvStream.qualityLabel s))
              (adaptive data)).

Definition audio_stream (s : InvStream.t) : AudioStream :=
  {| a_bitrate := match InvStream.bitrate s with
                  | Some b => b
                  | None => Js.Num 0
                  end;
     a_url := InvStream.url s;
     a_size := size_of s |}.

Definition audioStreams (data : InvVideo.t) : list AudioStream :=
  map audio_stream (filter (type_includes "audio") (adaptive data)).

Definition by_bitrate (a b : AudioStream) : Z :=
  (Js.toNumber (a_bitrate b) - Js.toNumber (a_bitrate a))%Z.

Definition bestAudio (data : InvVideo.t) : option AudioStream :=
  JsArray.first (JsArray.sort by_bitrate (audioStreams data)).

Definition video_option (s : VideoStream) : DownloadOption :=
  {| quality := v_quality s;
     format := Some "mp4";
     url := v_url s;
     size := size_MB 2 (v_size s) |}.

Definition audio_option (best : AudioStream) : DownloadOption :=
  {| quality := "audio";
     format := Some "m4a";
     url := a_url best;
     size := size_MB 2 (a_size best) |}.

(** [downloadOptions] before it is sorted. *)
Definition options (data : InvVideo.t) : list DownloadOption :=
  (map video_option (videoStreams data) ++
   match bestAudio data with
   | Some best => [audio_option best]
   | None => []
   end)%list.

Definition qualityOrder : list string :=
  ["2160p"; "1440p"; "1080p"; "720p"; "480p"; "360p"; "240p"; "144p"; "audio"].

(** [ia === -1 ? 999 : ia] *)
Definition rank (q : string) : Z :=
  let i := JsArray.indexOf qualityOrder q in
  if (i =? -1)%Z then 999%Z else i.

Definition by_rank (a b : DownloadOption) : Z := (rank (quality a) - rank (quality b))%Z.

(** [a ?? b] on two optional strings. *)
Definition nullish_opt (a b : option string) : option string :=
  match a with Some _ => a | None => b end.

Definition thumbnail_of (data : InvVideo.t) : option string :=
  nullish_opt
    match InvVideo.videoThumbnails data with
    | Some ts =>
        match find (fun t => match InvThumb.quality t with
                             | Some q => String.eqb q "maxresdefault"
                             | None => false
                             end) ts with
        | Some t => InvThumb.url t
        | None => None
        end
    | None => None
    end
    match InvVideo.videoThumbnails data with
    | Some (t :: _) => InvThumb.url t
    | _ => None
    end.

Definition fetchYouTubeInfo (url : string) : M MediaInfo :=
  match getYoutubeVideoId url with
  | None => throw (Error "Invalid YouTube URL")
  | Some videoId =>
      throw_if (negb (Js.nonempty videoId)) (Error "Invalid YouTube URL") ;;;
      apiUrl <- getInvidiousUrl ("/api/v1/videos/" ++ videoId) ;;
      res <- fetch (invidious W) (GET apiUrl) ;;
      throw_if (negb (ok res)) (Error ("Invidious error: " ++ statusText res)) ;;;
      data <- json res ;;
      let opts := options data in
      throw_if (Nat.eqb (List.length opts) 0)
               (Error "No streams found (private / live?)") ;;;
      let sorted := JsArray.sort by_rank opts in
      duration <- clock W match InvVideo.lengthSeconds data with
                          | Some secs => secs
                          | None => 0%Z
                          end 11 8 ;;
      ret {| title := Some (Js.nullish_str (InvVideo.title data) "Untitled");
             thumbnail := thumbnail_of data;
             duration := Some duration;
             author := InvVideo.author data;
             platform := YouTube;
             source_url := Some ("https://www.youtube.com/watch?v=" ++ videoId);
             description := InvVideo.description data;
             downloadOptions := sorted |}
  end.

Definition TIKTOK_API : string := "https://www.tikwm.com/api/".

Definition musicUrl (music : string) : string :=
  if Js.startsWith music "http" then music else "https://www.tikwm.com" ++ music.

(** [d.hdplay ?? d.play ?? d.wmplay] *)
Definition videoUrl (d : TikData.t) : option string :=
  nullish_opt (nullish_opt (TikData.hdplay d) (TikData.play d)) (TikData.wmplay d).

Definition tiktok_options (d : TikData.t) : list DownloadOption :=
  (match videoUrl d with
   | Some u =>
       if Js.nonempty u
       then [ {| quality := "HD Video"; format := Some "mp4";
                 url := Some u; size := size_MB 2 (TikData.size d) |} ]
       else []
   | None => []
   end ++
   match TikData.music d with
   | Some music =>
       if Js.nonempty music
       then [ {| quality := "Audio"; format := Some "mp3";
                 url := Some (musicUrl music); size := None |} ]
       else []
   | None => []
   end)%list.

Definition fetchTikTokInfo (url : string) : M MediaInfo :=
  let apiUrl := TIKTOK_API ++ "?url=" ++ JsText.encodeURIComponent url ++ "&hd=1" in
  res <- fetch (tikwm W) (GET apiUrl) ;;
  throw_if (negb (ok res)) (Error ("TikTok API error: " ++ statusText res)) ;;;
  reply <- json res ;;
  throw_if (negb match TikReply.code reply with
                 | Some c => (c =? 0)%Z
                 | None => false
                 end)
           (Error (Js.nullish_str (TikReply.msg reply) "TikTok fetch failed")) ;;;
  match TikReply.data reply with
  | None => throw (undefined_property "hdplay")
  | Some d =>
      let opts := tiktok_options d in
      throw_if (Nat.eqb (List.length opts) 0)
               (Error "No downloadable media on this TikTok") ;;;
      duration <- clock W match TikData.duration d with
                          | Some secs => secs
                          | None => 0%Z
                          end 14 5 ;;
      ret {| title := Some (Js.or_str (TikData.title d) "TikTok Video");
             thumbnail := TikData.cover d;
             duration := Some duration;
             author := Some (Js.nullish_str match TikData.author_nickname d with
                                            | Some nickname => nickname
                                            | None => None
                                            end "Unknown");
             platform := TikTok;
             source_url := Some url;
             description := TikData.title d;
             downloadOptions := opts |}
  end.

(** [^https?:\/\/(www\.)?twitter\.com] and [^https?:\/\/(www\.)?x\.com] *)
Definition host_pattern (host : string) : Regex.pattern :=
  Regex.seqs [Regex.lit "http"; Regex.opt (Regex.chr "s"); Regex.lit "://";
              Regex.opt (Regex.lit "www."); Regex.lit host].

Definition media_option (m : VxMedia.t) : JsError + list DownloadOption :=
  let has_type ty := match VxMedia.type m with Some x => String.eqb x ty | None => false end in
  if has_type "video" || has_type "gif" then
    match VxMedia.url m with
    | None => inl (undefined_property "split")
    | Some u =>
        inr [ {| quality := JsText.template_num (VxMedia.height m) ++ "p";
                 format := Some (Js.split_dot_pop u);
                 url := Some u; size := None |} ]
    end
  else if has_type "photo" then
    match VxMedia.url m with
    | None => inl (undefined_property "split")
    | Some u =>
        inr [ {| quality := "Image";
                 format := Some (Js.split_dot_pop u);
                 url := Some u; size := None |} ]
    end
  else inr [].

Fixpoint media_options (media : list VxMedia.t) : JsError + list DownloadOption :=
  match media with
  | [] => inr []
  | m :: rest =>
      match media_option m with
      | inl e => inl e
      | inr o =>
          match media_options rest with
          | inl e => inl e
          | inr os => inr (o ++ os)%list
          end
      end
  end.

Definition fetchTwitterInfo (url : string) : M MediaInfo :=
  let apiUrl :=
    JsText.replace_at_start (host_pattern "x.com") "https://api.vxtwitter.com"
      (JsText.replace_at_start (host_pattern "twitter.com") "https://api.vxtwitter.com" url) in
  res <- fetch (vxtwitter W) (GET apiUrl) ;;
  throw_if (negb (ok res)) (Error ("vxtwitter error: " ++ statusText res)) ;;;
  reply <- json res ;;
  match VxReply.tweet reply with
  | None => throw (Error (Js.nullish_str (VxReply.message reply) "Tweet not found"))
  | Some t =>
      let media := match VxTweet.media_all t with
                   | Some (Some all) => all
                   | _ => []
                   end in
      opts <- lift (media_options media) ;;
      throw_if (Nat.eqb (List.length opts) 0) (Error "No media in this tweet") ;;;
      ret {| title := Some match VxTweet.text t with
                           | Some text =>
                               Js.slice0 80 text ++
                               (if (80 <? String.length text)%nat then "..." else "")
                           | None => "undefined"
                           end;
             thumbnail := match media with
                          | m :: _ => nullish_opt (VxMedia.thumbnail_url m) (VxMedia.url m)
                          | [] => None
                          end;
             duration := None;
             author := nullish_opt (VxTweet.user_name t) (VxTweet.user_screen_name t);
             platform := Twitter;
             source_url := VxTweet.tweetURL t;
             description := VxTweet.text t;
             downloadOptions := opts |}
  end.

Definition coming_soon (n : PlatformName) : JsError :=
  Error ("Support for " ++ name_string n ++ " is coming soon!").

Definition fetchMediaInfo (url : string) (platform : Platform) : M MediaInfo :=
  try_catch
    match name platform with
    | YouTube => fetchYouTubeInfo url
    | TikTok => fetchTikTokInfo url
    | Twitter => fetchTwitterInfo url
    | Instagram | Facebook | LinkedIn | Pinterest => throw (coming_soon (name platform))
    end
    (fun err =>
       let msg := message err in
       throw (Error (if Js.includes msg "coming soon" then msg
                     else "Failed to fetch " ++ name_string (name platform) ++ " media"))).

End WithWorld.
End ProbeDraft.

(* ===================================================================== *)
(** * The serverless function [/api/youtube-info]                         *)
(* ===================================================================== *)

Module YoutubeInfoApi.

(** [req.query.url]: a string, or an array when the parameter repeats. *)
Inductive QueryValue : Type :=
| QString (s : string)
| QArray (l : list string).

Record VercelRequest : Type := mkRequest {
  method : string;
  query_url : option QueryValue
}.

(** What [res.status(code)] is completed with. *)
Inductive Payload : Type :=
| End_
| JsonError (error : string)
| JsonMedia (mediaInfo : MediaInfo).

Record Reply : Type := mkReply {
  code : Z;
  payload : Payload
}.

Section WithWorld.
Variable W : World.

(** [(?:v=|\/)], in front of the group [([0-9A-Za-z_-]{11})]; the [.*]
    after it always matches. *)
Definition id_prefix : Regex.pattern := Regex.Alt (Regex.lit "v=") (Regex.chr "/").

(** [youtubeRegex], the pattern of [PLATFORMS.YouTube] written out again. *)
Definition youtubeRegex : Regex.pattern := Detector.youtube_regex.

Definition invidiousInstances : list string :=
  [ "https://vid.puffyan.us";
    "https://invidious.projectsegfau.lt";
    "https://inv.nadeko.net";
    "https://invidious.privacyredirect.com" ].

(** The loop over the instances: [Some videoData] after the [break]. *)
Fixpoint instance_loop (instances : list string) (videoId : string)
    : M (option InvVideo.t) :=
  match instances with
  | [] => ret None
  | instance :: rest =>
      let apiUrl := instance ++ "/api/v1/videos/" ++ videoId in
      videoData <- try_catch
                     (response <- fetch (invidious W) (GET_json_within 5000 apiUrl) ;;
                      if negb (ok response) then ret None
                      else
                        data <- json response ;;
                        match InvVideo.formatStreams data with
                        | Some (_ :: _) => ret (Some data)
                        | _ => ret None
                        end)
                     (fun _ => ret None) ;;
      match videoData with
      | Some data => ret (Some data)
      | None => instance_loop rest videoId
      end
  end.

Definition watch_url (videoId : string) : string :=
  "https://www.youtube.com/watch?v=" ++ videoId.

Definition watch_on_youtube (videoId : string) : DownloadOption :=
  {| quality := "Watch on YouTube"; format := Some "link";
     url := Some (watch_url videoId); size := None |}.

Definition stream_option (f : InvStream.t) : DownloadOption :=
  {| quality := match InvStream.qualityLabel f with Some q => q | None => "" end;
     format := Some (Js.or_str (InvStream.container f) "mp4");
     url := InvStream.url f;
     size := size_MB 1 (InvStream.size f) |}.

Definition by_bitrate (a b : InvStream.t) : Z :=
  (Js.num_or0 (InvStream.bitrate b) - Js.num_or0 (InvStream.bitrate a))%Z.

Definition audioFormats (videoData : InvVideo.t) : list InvStream.t :=
  match InvVideo.adaptiveFormats videoData with
  | Some fs =>
      filter (fun f => match InvStream.type f with
                       | Some ty => Js.nonempty ty && Js.includes ty "audio"
                       | None => false
                       end) fs
  | None => []
  end.

Definition bestAudio (videoData : InvVideo.t) : option InvStream.t :=
  JsArray.first (JsArray.sort by_bitrate (audioFormats videoData)).

(** [downloadOptions], in the order the entries are pushed. *)
Definition downloadOptions_of (videoData : InvVideo.t) : list DownloadOption :=
  (match InvVideo.formatStreams videoData with
   | Some fs =>
       map stream_option
           (filter (fun f => Js.truthy_str (InvStream.url f) &&
                             Js.truthy_str (InvStream.qualityLabel f)) fs)
   | None => []
   end ++
   match bestAudio videoData with
   | Some best => [ {| quality := "audio only"; format := Some "m4a";
                       url := InvStream.url best;
                       size := size_MB 1 (InvStream.size best) |} ]
   | None => []
   end)%list.

(** [Array.from(new Map(downloadOptions.map(item => [item.quality, item])).values())] *)
Definition uniqueOptions (downloadOptions : list DownloadOption) : list DownloadOption :=
  JsMap.values (JsMap.of_entries (map (fun item => (quality item, item)) downloadOptions)).

Definition getScore (quality : string) : Z :=
  if Js.includes quality "audio only" then 0%Z
  else match Js.parseInt quality with
       | None => 1%Z
       | Some res => res
       end.

Definition by_score (a b : DownloadOption) : Z :=
  (getScore (quality b) - getScore (quality a))%Z.

(** De-duplication, then ranking. *)
Definition normalize (downloadOptions : list DownloadOption) : list DownloadOption :=
  JsArray.sort by_score (uniqueOptions downloadOptions).

(** The [try] block, from the extraction of the video id on. *)
Definition resolve (url : string) : M Reply :=
  match Regex.match_group1 id_prefix Regex.is_word_dash 11 url with
  | None => ret (mkReply 400 (JsonError "Could not extract video ID"))
  | Some videoId =>
      let oembedUrl := "https://www.youtube.com/oembed?url=https://www.youtube.com/watch?v="
                       ++ videoId ++ "&format=json" in
      oembedRes <- fetch (youtube_oembed W) (GET oembedUrl) ;;
      throw_if (negb (ok oembedRes)) (Error "Video not found or unavailable") ;;;
      oembedData <- json oembedRes ;;
      found <- instance_loop invidiousInstances videoId ;;
      let thumb := "https://img.youtube.com/vi/" ++ videoId ++ "/maxresdefault.jpg" in
      match found with
      | None =>
          ret (mkReply 200 (JsonMedia
                 {| title := Oembed.title oembedData;
                    thumbnail := Some thumb;
                    duration := Some "N/A";
                    author := Oembed.author_name oembedData;
                    platform := YouTube;
                    source_url := Some (watch_url videoId);
                    description := Some "Watch on YouTube";
                    downloadOptions := [watch_on_youtube videoId] |}))
      | Some videoData =>
          let unique := normalize (downloadOptions_of videoData) in
          duration <- match InvVideo.lengthSeconds videoData with
                      | Some secs =>
                          if (secs =? 0)%Z then ret "N/A" else clock W secs 11 8
                      | None => ret "N/A"
                      end ;;
          ret (mkReply 200 (JsonMedia
                 {| title := Js.or_opt (InvVideo.title videoData) (Oembed.title oembedData);
                    thumbnail := Some thumb;
                    duration := Some duration;
                    author := Js.or_opt (InvVideo.author videoData)
                                        (Oembed.author_name oembedData);
                    platform := YouTube;
                    source_url := Some (watch_url videoId);
                    description :=
                      Some (Js.or_str (option_map (Js.slice0 500)
                                                  (InvVideo.description videoData)) "");
                    downloadOptions :=
                      if (0 <? List.length unique)%nat then unique
                      else [watch_on_youtube videoId] |}))
      end
  end.

(** The messages of the source start with a pictograph, left out here. *)
Definition handler (req : VercelRequest) : M Reply :=
  if String.eqb (method req) "OPTIONS" then ret (mkReply 200 End_)
  else
    match query_url req with
    | Some (QString url) =>
        if negb (Js.nonempty url)
        then ret (mkReply 400 (JsonError "URL parameter is required"))
        else if negb (Regex.test youtubeRegex url)
        then ret (mkReply 400 (JsonError "Invalid YouTube URL"))
        else
          try_catch (resolve url)
            (fun _ => ret (mkReply 500 (JsonError
               "Failed to fetch video. It may be private, age-restricted, or unavailable.")))
    | _ => ret (mkReply 400 (JsonError "URL parameter is required"))
    end.

End WithWorld.
End YoutubeInfoApi.

(* ===================================================================== *)
(** * backend/server.mjs                                                  *)
(* ===================================================================== *)

(** The normalisation the route [/api/youtube-info] applies to what
    [ytdl.getInfo] returns.  [ytdl-core] is a library: its [filterFormats]
    is a parameter.  Request validation and the response cache of the
    route are modelled further down, in [BackendRoute]. *)
Module Backend.

Record Format : Type := mkFormat {
  container : option string;
  qualityLabel : option string;
  f_url : option string;
  contentLength : option Js.numeric;
  audioBitrate : option Js.numeric
}.

Record VideoDetails : Type := mkDetails {
  v_title : option string;
  thumbnails : list (option string);       (* the [url] of each *)
  lengthSeconds : string;
  author_name : option string;
  video_url : option string;
  v_description : option string
}.

Record Info : Type := mkInfo {
  videoDetails : VideoDetails;
  formats : list Format
}.

Section WithYtdl.
Variable W : World.
Variable filterFormats : list Format -> string -> list Format.

Definition mp4_with_label (f : Format) : bool :=
  match container f with Some c => String.eqb c "mp4" | None => false end &&
  Js.truthy_str (qualityLabel f).

Definition label (f : Format) : string :=
  match qualityLabel f with Some q => q | None => "" end.

Definition muxed_option (f : Format) : DownloadOption :=
  {| quality := label f; format := Some "mp4"; url := f_url f;
     size := size_MB 1 (contentLength f) |}.

Definition video_only_option (f : Format) : DownloadOption :=
  {| quality := label f ++ " (no audio)"; format := Some "mp4"; url := f_url f;
     size := size_MB 1 (contentLength f) |}.

Definition by_bitrate (a b : Format) : Z :=
  (Js.num_or0 (audioBitrate b) - Js.num_or0 (audioBitrate a))%Z.

Definition audioFormats (fs : list Format) : list Format := filterFormats fs "audioonly".

Definition bestAudio (fs : list Format) : option Format :=
  JsArray.first (JsArray.sort by_bitrate (audioFormats fs)).

Definition audio_option (best : Format) : DownloadOption :=
  {| quality := "audio only";
     format := match container best with
               | Some c => if String.eqb c "mp4" then Some "m4a" else Some c
               | None => None
               end;
     url := f_url best;
     size := size_MB 1 (contentLength best) |}.

(** [downloadOptions], in the order the entries are pushed. *)
Definition downloadOptions_of (fs : list Format) : list DownloadOption :=
  (map muxed_option (filter mp4_with_label (filterFormats fs "videoandaudio")) ++
   map video_only_option (filter mp4_with_label (filterFormats fs "videoonly")) ++
   match bestAudio fs with
   | Some best => [audio_option best]
   | None => []
   end)%list.

(** [Array.from(new Map(downloadOptions.map(item => [item.quality, item])).values())] *)
Definition uniqueOptions (downloadOptions : list DownloadOption) : list DownloadOption :=
  JsMap.values (JsMap.of_entries (map (fun item => (quality item, item)) downloadOptions)).

Definition getScore (quality : string) : Z :=
  if Js.includes quality "audio only" then 0%Z
  else match Js.parseInt quality with
       | None => 1%Z
       | Some res =>
           let audioBonus := if Js.includes quality "no audio" then 0%Z else 10000%Z in
           (res + audioBonus)%Z
       end.

Definition by_score (a b : DownloadOption) : Z :=
  (getScore (quality b) - getScore (quality a))%Z.

(** De-duplication, then ranking. *)
Definition normalize (downloadOptions : list DownloadOption) : list DownloadOption :=
  JsArray.sort by_score (uniqueOptions downloadOptions).

(** The record the route sends; an exception makes it answer 500. *)
Definition mediaInfo_of (info : Info) : JsError + MediaInfo :=
  let details := videoDetails info in
  let unique := normalize (downloadOptions_of (formats info)) in
  match last (map Some (thumbnails details)) None with
  | None => inl (undefined_property "url")
  | Some thumb =>
      match Js.parseInt (lengthSeconds details) with
      | None => inl (mkError "RangeError" "Invalid time value")
      | Some secs =>
          match toISOString W (secs * 1000)%Z with
          | inl e => inl e
          | inr iso =>
              inr {| title := v_title details;
                     thumbnail := thumb;
                     duration := Some (JsText.substr 11 8 iso);
                     author := author_name details;
                     platform := YouTube;
                     source_url := video_url details;
                     description :=
                       Some (Js.or_str (option_map (Js.slice0 500) (v_description details)) "");
                     downloadOptions := unique |}
          end
      end
  end.

End WithYtdl.
End Backend.

(* ===================================================================== *)
(** * services/ai/gemini.ts                                               *)
(* ===================================================================== *)

Module Gemini.
Section WithWorld.
Variable W : World.

Definition newline : string := String (ascii_of_nat 10) "".

Definition prompt (title description : option string) : string :=
  "Summarize this video in one short, engaging sentence for a user who is about to download it. Be friendly and concise."
  ++ newline ++ newline ++ "Title: " ++ Js.nullish_str title "undefined"
  ++ newline ++ newline ++ "Description: "
  ++ Js.or_str description "No description provided.".

(** [await ai.models.generateContent({ model, contents })] *)
Definition call_model (model contents : string) : M (option string) :=
  fun tr =>
    match generateContent W (List.length tr) model contents with
    | inl e => (Thrown e, (tr ++ [GenerateContent model contents])%list)
    | inr text => (Returned text, (tr ++ [GenerateContent model contents])%list)
    end.

Definition generateSummary (title description : option string) : M (option string) :=
  if negb (Js.truthy_str (API_KEY W)) then ret None
  else
    try_catch
      (text <- call_model "gemini-2.5-flash" (prompt title description) ;;
       match text with
       | Some t => ret (Some (JsText.trim t))
       | None => throw (undefined_property "trim")
       end)
      (fun _ => ret (Some "Could not generate AI summary at this time.")).

End WithWorld.
End Gemini.

(* ===================================================================== *)
(** * App.tsx                                                             *)
(* ===================================================================== *)

Module App.

(** The state [handleFetch] reads and sets. *)
Record State : Type := mkState {
  url : string;
  isLoading : bool;
  error : option string;
  mediaInfo : option MediaInfo;
  aiSummary : option string
}.

Definition setError (e : option string) (s : State) : State :=
  mkState (url s) (isLoading s) e (mediaInfo s) (aiSummary s).
Definition setMediaInfo (m : option MediaInfo) (s : State) : State :=
  mkState (url s) (isLoading s) (error s) m (aiSummary s).
Definition setAiSummary (a : option string) (s : State) : State :=
  mkState (url s) (isLoading s) (error s) (mediaInfo s) a.
Definition setIsLoading (b : bool) (s : State) : State :=
  mkState (url s) b (error s) (mediaInfo s) (aiSummary s).

Definition unsupported_message : string :=
  "Unsupported platform or invalid URL. Please try a link from YouTube, TikTok, Instagram, etc.".

Section WithService.
Variable W : World.
(** [fetchMediaInfo] of [./services/downloadService], whichever draft of
    it is deployed. *)
Variable fetchMediaInfo : string -> Platform -> M MediaInfo.

(** [handleFetch] never throws: it returns the state it leaves and the
    trace of its calls. *)
Definition handleFetch (s : State) (tr : Trace) : State * Trace :=
  if negb (Js.nonempty (url s)) then (setError (Some "Please enter a URL.") s, tr)
  else
    let s1 := setIsLoading true (setAiSummary None (setMediaInfo None (setError None s))) in
    match Detector.getPlatform (url s) with
    | None => (setIsLoading false (setError (Some unsupported_message) s1), tr)
    | Some platform =>
        match fetchMediaInfo (url s) platform tr with
        | (Returned data, tr1) =>
            let s2 := setMediaInfo (Some data) s1 in
            match Gemini.generateSummary W (title data) (description data) tr1 with
            | (Returned summary, tr2) => (setIsLoading false (setAiSummary summary s2), tr2)
            | (Thrown err, tr2) => (setIsLoading false (setError (Some (message err)) s2), tr2)
            end
        | (Thrown err, tr1) => (setIsLoading false (setError (Some (message err)) s1), tr1)
        end
    end.

End WithService.
End App.

(* ===================================================================== *)
(** * App.tsx: downloads and the history                                  *)
(* ===================================================================== *)

Module AppHistory.

Record HistoryItem : Type := mkItem {
  id : string;
  item_title : option string;
  item_thumbnail : option string;
  item_platform : PlatformName;
  item_url : option string;
  downloadedAt : string
}.

(** The state of the page: what [handleFetch] works on, and the history
    kept by [useLocalStorage]. *)
Record Page : Type := mkPage {
  app : App.State;
  history : list HistoryItem
}.

(** [link.click()] on an anchor with these attributes. *)
Inductive DomEvent : Type :=
| Click (href download : string).

(** [[a-z0-9]] under the flag [i] *)
Definition is_alnum (c : ascii) : bool := Regex.is_alpha c || Regex.is_digit c.

(** [s.replace(/[^a-z0-9]/gi, '_')] *)
Fixpoint replace_non_alnum (s : string) : string :=
  match s with
  | EmptyString => ""
  | String c t => String (if is_alnum c then c else "_"%char) (replace_non_alnum t)
  end.

(** The lower-case form of a code unit below 256. *)
Definition lower (c : ascii) : ascii :=
  let n := nat_of_ascii c in
  if ((65 <=? n) && (n <=? 90))%nat then ascii_of_nat (n + 32)
  else if ((192 <=? n) && (n <=? 222) && negb (n =? 215))%nat then ascii_of_nat (n + 32)
  else c.

(** [s.toLowerCase()] *)
Fixpoint toLowerCase (s : string) : string :=
  match s with
  | EmptyString => ""
  | String c t => String (lower c) (toLowerCase t)
  end.

Definition safeTitle (title : string) : string :=
  toLowerCase (replace_non_alnum title).

(** [`${safeTitle}_${option.quality}.${option.format}`] *)
Definition filename (title : string) (opt : DownloadOption) : string :=
  safeTitle title ++ "_" ++ quality opt ++ "." ++ Js.nullish_str (format opt) "undefined".

Definition setUrl (u : string) (s : App.State) : App.State :=
  App.mkState u (App.isLoading s) (App.error s) (App.mediaInfo s) (App.aiSummary s).

(** [handleDownload(opt)] when the clock reads [now] and
    [new Date().toISOString()] is [stamp].  It returns the page it
    leaves, the clicks it makes and the error it throws, if any: reading
    [mediaInfo.title.replace] throws when the record has no title, after
    the history was set. *)
Definition handleDownload (now : Z) (stamp : string) (opt : DownloadOption)
    (p : Page) : Page * list DomEvent * option JsError :=
  match App.mediaInfo (app p) with
  | None => (p, [], None)
  | Some mediaInfo =>
      let newHistoryItem :=
        {| id := Js.decimal now;
           item_title := title mediaInfo;
           item_thumbnail := thumbnail mediaInfo;
           item_platform := platform mediaInfo;
           item_url := source_url mediaInfo;
           downloadedAt := stamp |} in
      let history' := newHistoryItem :: firstn 4 (history p) in
      match title mediaInfo with
      | None => (mkPage (app p) history', [], Some (undefined_property "replace"))
      | Some t =>
          (mkPage (setUrl "" (App.setAiSummary None (App.setMediaInfo None (app p))))
                  history',
           [Click (Js.nullish_str (url opt) "undefined") (filename t opt)],
           None)
      end
  end.

Definition handleClearHistory (p : Page) : Page := mkPage (app p) [].

End AppHistory.

(* ===================================================================== *)
(** * components/MediaPreview.tsx                                         *)
(* ===================================================================== *)

Module MediaPreview.

(** The initial [selectedQuality]: [mediaInfo.downloadOptions[0].quality]. *)
Definition initialQuality (mediaInfo : MediaInfo) : JsError + string :=
  match downloadOptions mediaInfo with
  | [] => inl (undefined_property "quality")
  | opt :: _ => inr (quality opt)
  end.

(** [mediaInfo.downloadOptions.find(opt => opt.quality === selectedQuality)] *)
Definition selectedOption (mediaInfo : MediaInfo) (selectedQuality : string)
    : option DownloadOption :=
  find (fun opt => String.eqb (quality opt) selectedQuality) (downloadOptions mediaInfo).

(** [handleDownloadClick]: what [onDownload] is called with, if it is. *)
Definition handleDownloadClick (mediaInfo : MediaInfo) (selectedQuality : string)
    : option DownloadOption :=
  selectedOption mediaInfo selectedQuality.

End MediaPreview.

(* ===================================================================== *)
(** * hooks/useTheme.ts                                                   *)
(* ===================================================================== *)

(** The hook, with React's rule that the effects of a render run after
    it, in the order they are declared. *)
Module UseTheme.

Inductive Theme : Type := light | dark.

Definition theme_string (t : Theme) : string :=
  match t with light => "light" | dark => "dark" end.

(** What the hook reads and writes outside its state: [localStorage.theme],
    the media query [prefers-color-scheme: dark] and whether the root
    element has the class [dark]. *)
Record Browser : Type := mkBrowser {
  stored : option string;
  prefersDark : bool;
  rootDark : bool
}.

(** The first effect: the theme to set. *)
Definition isDark (b : Browser) : bool :=
  match stored b with
  | Some v => String.eqb v "dark"
  | None => prefersDark b
  end.

(** The second effect, for the theme of the render it follows. *)
Definition persist (theme : Theme) (b : Browser) : Browser :=
  match theme with
  | dark => mkBrowser (Some "dark") (prefersDark b) true
  | light => mkBrowser (Some "light") (prefersDark b) false
  end.

(** Mounting: the first render has the theme [light]; its first effect
    reads the browser and sets the theme, its second effect persists
    [light]; if the theme changed, the next render's second effect
    persists the new one. *)
Definition mount (b : Browser) : Theme * Browser :=
  let chosen := if isDark b then dark else light in
  let b1 := persist light b in
  match chosen with
  | light => (light, b1)
  | dark => (dark, persist dark b1)
  end.

(** [setTheme(newTheme)]: the effect runs when the theme changes. *)
Definition setTheme (newTheme : Theme) (st : Theme * Browser) : Theme * Browser :=
  match fst st, newTheme with
  | light, light | dark, dark => st
  | _, _ => (newTheme, persist newTheme (snd st))
  end.

End UseTheme.

(* ===================================================================== *)
(** * backend/server.mjs: the route and its cache                         *)
(* ===================================================================== *)

(** The route [/api/youtube-info] of the backend.  [ytdl.validateURL],
    [ytdl.getVideoID] and [ytdl.getInfo] belong to the library
    [ytdl-core] and are parameters; [getInfo] answers by the number of
    calls made before.  The messages of the source start with a
    pictograph, left out here. *)
Module BackendRoute.

Record Server : Type := mkServer {
  cache : list (string * MediaInfo);
  lookups : nat                           (* calls of [ytdl.getInfo] so far *)
}.

Section WithYtdl.
Variable W : World.
Variable filterFormats : list Backend.Format -> string -> list Backend.Format.
Variable validateURL : string -> bool.
Variable getVideoID : string -> string.
Variable getInfo : nat -> string -> JsError + Backend.Info.

Definition invalid_link : YoutubeInfoApi.Reply :=
  YoutubeInfoApi.mkReply 400 (YoutubeInfoApi.JsonError "Invalid YouTube link").

Definition unavailable : YoutubeInfoApi.Reply :=
  YoutubeInfoApi.mkReply 500 (YoutubeInfoApi.JsonError
    "This content might be private, age-restricted, or otherwise unavailable.").

(** The handler of a request with the query parameter [url]. *)
Definition route (url : option string) (srv : Server) : YoutubeInfoApi.Reply * Server :=
  match url with
  | None => (invalid_link, srv)
  | Some u =>
      if negb (Js.nonempty u) || negb (validateURL u) then (invalid_link, srv)
      else
        let videoId := getVideoID u in
        match JsMap.get videoId (cache srv) with        (* [cache.has(videoId)] *)
        | Some cached => (YoutubeInfoApi.mkReply 200 (YoutubeInfoApi.JsonMedia cached), srv)
        | None =>
            let asked := mkServer (cache srv) (S (lookups srv)) in
            match getInfo (lookups srv) u with
            | inl _ => (unavailable, asked)
            | inr info =>
                match Backend.mediaInfo_of W filterFormats info with
                | inl _ => (unavailable, asked)
                | inr mediaInfo =>
                    (YoutubeInfoApi.mkReply 200 (YoutubeInfoApi.JsonMedia mediaInfo),
                     mkServer (JsMap.set videoId mediaInfo (cache srv)) (S (lookups srv)))
                end
            end
        end
  end.

(** The timer of an entry firing: [cache.delete(videoId)]. *)
Definition expire (videoId : string) (srv : Server) : Server :=
  mkServer (JsMap.delete videoId (cache srv)) (lookups srv).

End WithYtdl.
End BackendRoute.

(* ===================================================================== *)
(** * services/downloadService.ts, the draft with the local backend       *)
(* ===================================================================== *)

(** The YouTube resolver of the draft that asks the local backend first
    and falls back on public Invidious instances.  The other resolvers
    of this draft are those of the draft with the mirror loop. *)
Module FallbackDraft.

(** What the backend answers with: a document read as a [MediaInfo], and
    its property [error]. *)
Record BackendDoc : Type := mkDoc {
  doc_error : option string;
  doc_media : MediaInfo
}.

Section WithWorld.
Variable W : World.
Variable backend : Service BackendDoc.

(** [(?:v=|\/)], in front of the group [([0-9A-Za-z_-]{11})]. *)
Definition id_prefix : Regex.pattern := Regex.Alt (Regex.lit "v=") (Regex.chr "/").

Definition invidiousInstances : list string :=
  [ "https://vid.puffyan.us";
    "https://invidious.projectsegfau.lt";
    "https://invidious.kavin.rocks";
    "https://invidious.io.lol" ].

Definition instance_request (videoId instance : string) : Request :=
  GET_within 5000 (instance ++ "/api/v1/videos/" ++ videoId).

Definition thumbnail_of (data : InvVideo.t) : option string :=
  Js.or_opt
    match InvVideo.videoThumbnails data with
    | Some ts =>
        match find (fun t => match InvThumb.quality t with
                             | Some q => String.eqb q "medium"
                             | None => false
                             end) ts with
        | Some t => InvThumb.url t
        | None => None
        end
    | None => None
    end
    match InvVideo.videoThumbnails data with
    | Some (t :: _) => InvThumb.url t
    | _ => None
    end.

Definition downloadOptions_of (data : InvVideo.t) : list DownloadOption :=
  match InvVideo.formatStreams data with
  | Some fs =>
      map YoutubeInfoApi.stream_option
          (filter (fun f => Js.truthy_str (InvStream.url f) &&
                            Js.truthy_str (InvStream.qualityLabel f)) fs)
  | None => []
  end.

(** The body of the [try] for one instance: [Some] record to return, or
    [None] to [continue]. *)
Definition attempt (url videoId instance : string) : M (option MediaInfo) :=
  res <- fetch (invidious W) (instance_request videoId instance) ;;
  if negb (ok res) then ret None
  else
    data <- json res ;;
    match InvVideo.formatStreams data with
    | Some (_ :: _) =>
        let opts := downloadOptions_of data in
        if Nat.eqb (List.length opts) 0 then ret None
        else
          duration <- match InvVideo.lengthSeconds data with
                      | Some secs => clock W secs 11 8
                      | None => throw (mkError "RangeError" "Invalid time value")
                      end ;;
          ret (Some {| title := InvVideo.title data;
                       thumbnail := thumbnail_of data;
                       duration := Some duration;
                       author := InvVideo.author data;
                       platform := YouTube;
                       source_url := Some url;
                       description := InvVideo.description data;
                       downloadOptions := opts |})
    | _ => ret None
    end.

Fixpoint instance_loop (instances : list string) (url videoId : string) : M MediaInfo :=
  match instances with
  | [] => throw (Error
            "The local service is down and all public YouTube APIs failed. Please try again later.")
  | instance :: rest =>
      found <- try_catch (attempt url videoId instance) (fun _ => ret None) ;;
      match found with
      | Some mediaInfo => ret mediaInfo
      | None => instance_loop rest url videoId
      end
  end.

Definition fetchYouTubeInfoFromInvidious (url : string) : M MediaInfo :=
  match Regex.match_group1 id_prefix Regex.is_word_dash 11 url with
  | None => throw (Error "Invalid YouTube URL for fallback API")
  | Some videoId => instance_loop invidiousInstances url videoId
  end.

Definition backend_request (url : string) : Request :=
  GET_within 3000 ("http://localhost:3001/api/youtube-info?url=" ++
                   JsText.encodeURIComponent url).

(** [errorData.error || `Backend service failed with status ${res.status}.`],
    where [errorData] is the body, or a stock document when the body
    does not parse.  The message of the source starts with a pictograph,
    left out here. *)
Definition backend_message (res : Response BackendDoc) : string :=
  let error := match body res with
               | inl _ => Some "The backend service sent an invalid response."
               | inr doc => doc_error doc
               end in
  Js.or_str error ("Backend service failed with status " ++ Js.decimal (status res) ++ ".").

(** The condition under which the [catch] falls back. *)
Definition is_network_error (err : JsError) : bool :=
  String.eqb (error_name err) "AbortError" || Js.includes (message err) "Failed to fetch".

Definition fetchYouTubeInfo (url : string) : M MediaInfo :=
  try_catch
    (res <- fetch backend (backend_request url) ;;
     if negb (ok res) then throw (Error (backend_message res))
     else
       data <- json res ;;
       ret (doc_media data))
    (fun err =>
       if is_network_error err then fetchYouTubeInfoFromInvidious url
       else throw (Error (message err))).

(** The [switch] on [platform.name]. *)
Definition fetchMediaInfo (url : string) (platform : Platform) : M MediaInfo :=
  try_catch
    match name platform with
    | YouTube => fetchYouTubeInfo url
    | TikTok => MirrorDraft.fetchTikTokInfo W url
    | Twitter => MirrorDraft.fetchTwitterInfo W url
    | Instagram => MirrorDraft.fetchInstagramInfo W url
    | Facebook => MirrorDraft.fetchFacebookInfo W url
    | Pinterest => MirrorDraft.fetchPinterestInfo W url
    | LinkedIn => throw (Error "LinkedIn not supported (no public API)")
    end
    (fun err =>
       throw (Error (Js.or_str (Some (message err))
                               ("Failed to fetch " ++ name_string (name platform) ++ " media")))).

End WithWorld.
End FallbackDraft.

(* ===================================================================== *)
(** * services/downloadService.ts, the draft with the serverless function *)
(* ===================================================================== *)

(** What the services of [saveig.app] answer with: an item of a post
    with several media, or a post with one. *)
Module SaveIgItem.
Record t : Type := mk {
  url : option string;
  type : option string
}.
End SaveIgItem.

Module SaveIgPost.
Record t : Type := mk {
  url : option string;
  title : option string;
  caption : option string;
  thumbnail : option string;
  username : option string
}.
End SaveIgPost.

(** [json.data]: an array of items, or one post. *)
Inductive SaveIgData : Type :=
| Items (l : list SaveIgItem.t)
| Post (p : SaveIgPost.t).

Module SaveIgReply.
Record t : Type := mk {
  data : option SaveIgData              (* [None]: missing, or falsy *)
}.
End SaveIgReply.

(** The draft that asks the function [/api/youtube-info] for YouTube and
    two services in turn for Instagram.  Its TikTok and Twitter
    resolvers extract the options as the draft with the mirror loop
    does.  The message of the time-out starts with a pictograph in the
    source, left out here. *)
Module ApiDraft.

(** [opts[0].url] *)
Definition first_url (opts : list DownloadOption) : option string :=
  match opts with
  | o :: _ => url o
  | [] => None
  end.

Section WithWorld.
Variable W : World.
(** [window.location.hostname], when there is a [window]. *)
Variable hostname : option string.
(** The function [/api/youtube-info], and the services of [saveig.app]. *)
Variable youtube_api : Service FallbackDraft.BackendDoc.
Variable saveig : Service SaveIgReply.t.

Definition API_BASE_URL : string :=
  match hostname with
  | Some h => if String.eqb h "localhost" then "http://localhost:3000" else ""
  | None => ""
  end.

Definition youtube_request (url : string) : Request :=
  GET_json_within 15000
    (API_BASE_URL ++ "/api/youtube-info?url=" ++ JsText.encodeURIComponent url).

(** [errorData.error || `Failed with status ${res.status}`], where
    [errorData] is the body, or a stock document when the body does not
    parse. *)
Definition api_message (res : Response FallbackDraft.BackendDoc) : string :=
  let error := match body res with
               | inl _ => Some "API service error"
               | inr doc => FallbackDraft.doc_error doc
               end in
  Js.or_str error ("Failed with status " ++ Js.decimal (status res)).

Definition timeout_message : string :=
  "Request timeout. YouTube is taking too long to respond.".

Definition fetchYouTubeInfo (url : string) : M MediaInfo :=
  try_catch
    (res <- fetch youtube_api (youtube_request url) ;;
     if negb (ok res) then throw (Error (api_message res))
     else
       data <- json res ;;
       ret (FallbackDraft.doc_media data))
    (fun err =>
       if String.eqb (error_name err) "AbortError" then throw (Error timeout_message)
       else throw (Error (Js.or_str (Some (message err)) "Failed to fetch YouTube video"))).

Definition tiktok_request (url : string) : Request :=
  GET_within 10000
    ("https://www.tikwm.com/api/?url=" ++ JsText.encodeURIComponent url ++ "&hd=1").

Definition fetchTikTokInfo (url : string) : M MediaInfo :=
  try_catch
    (res <- fetch (tikwm W) (tiktok_request url) ;;
     throw_if (negb (ok res)) (Error "TikTok API unavailable") ;;;
     reply <- json res ;;
     throw_if (negb match TikReply.code reply with
                    | Some c => (c =? 0)%Z
                    | None => false
                    end)
              (Error (Js.or_str (TikReply.msg reply) "TikTok fetch failed")) ;;;
     match TikReply.data reply with
     | None => throw (undefined_property "hdplay")
     | Some d =>
         let opts := MirrorDraft.tiktok_options d in
         throw_if (Nat.eqb (List.length opts) 0) (Error "No media found") ;;;
         duration <- match TikData.duration d with
                     | Some secs =>
                         if (secs =? 0)%Z then ret "00:00" else clock W secs 14 5
                     | None => ret "00:00"
                     end ;;
         ret {| title := Some (Js.or_str (TikData.title d) "TikTok Video");
                thumbnail := TikData.cover d;
                duration := Some duration;
                author := Some (Js.or_str match TikData.author_nickname d with
                                          | Some nickname => nickname
                                          | None => None
                                          end "Unknown");
                platform := TikTok;
                source_url := Some url;
                description := TikData.title d;
                downloadOptions := opts |}
     end)
    (fun err =>
       throw (Error (Js.or_str (Some (message err)) "Failed to fetch TikTok video"))).

Definition twitter_request (url : string) : Request :=
  GET_within 8000
    (JsText.replace_at_start MirrorDraft.twitter_host "https://api.vxtwitter.com" url).

Definition twitter_failure : JsError :=
  Error "Failed to fetch Twitter/X post. The API may be temporarily unavailable.".

Definition fetchTwitterInfo (url : string) : M MediaInfo :=
  try_catch
    (res <- fetch (vxtwitter W) (twitter_request url) ;;
     throw_if (negb (ok res)) (Error "vxtwitter unavailable") ;;;
     reply <- json res ;;
     match VxReply.tweet reply with
     | None => throw (Error "Tweet not found")
     | Some t =>
         let media := match VxTweet.media_all t with
                      | Some (Some all) => all
                      | _ => []
                      end in
         opts <- lift (MirrorDraft.media_options media) ;;
         throw_if (Nat.eqb (List.length opts) 0) (Error "No media in tweet") ;;;
         ret {| title := Some (Js.slice0 100 (Js.or_str (VxTweet.text t) "") ++ "...");
                thumbnail := match media with
                             | m :: _ => Js.or_opt (VxMedia.thumbnail_url m) (VxMedia.url m)
                             | [] => None
                             end;
                duration := None;
                author := Js.or_opt (VxTweet.user_name t) (VxTweet.user_screen_name t);
                platform := Twitter;
                source_url := Some (Js.or_str (VxTweet.tweetURL t) url);
                description := VxTweet.text t;
                downloadOptions := opts |}
     end)
    (fun _ => throw twitter_failure).

Definition apis (url : string) : list string :=
  [ "https://api.saveig.app/api/download?url=" ++ JsText.encodeURIComponent url;
    "https://v3.saveig.app/api/download?url=" ++ JsText.encodeURIComponent url ].

Definition instagram_request (api : string) : Request := GET_json_within 8000 api.

(** The body of [d.forEach((item, i) => ...)]; [many] is [d.length > 1]. *)
Definition item_option (many : bool) (i : nat) (item : SaveIgItem.t) : list DownloadOption :=
  match SaveIgItem.url item with
  | Some u =>
      if Js.nonempty u then
        let isVideo := match SaveIgItem.type item with
                       | Some ty => String.eqb ty "video"
                       | None => false
                       end || Js.includes u ".mp4" in
        let kind := if isVideo then "Video" else "Image" in
        [ {| quality := if many
                        then "Item " ++ Js.decimal (Z.of_nat i + 1) ++ " (" ++ kind ++ ")"
                        else kind;
             format := Some (if isVideo then "mp4" else "jpg");
             url := Some u; size := None |} ]
      else []
  | None => []
  end.

Fixpoint item_options (many : bool) (i : nat) (items : list SaveIgItem.t)
    : list DownloadOption :=
  match items with
  | [] => []
  | item :: rest => (item_option many i item ++ item_options many (S i) rest)%list
  end.

Definition instagram_options (d : SaveIgData) : list DownloadOption :=
  match d with
  | Items l => item_options (1 <? List.length l)%nat 0 l
  | Post p =>
      match SaveIgPost.url p with
      | Some u =>
          if Js.nonempty u
          then [ {| quality := "Media";
                    format := Some (if Js.includes u ".mp4" then "mp4" else "jpg");
                    url := Some u; size := None |} ]
          else []
      | None => []
      end
  end.

(** The record returned; an array has none of the properties read. *)
Definition instagram_record (url : string) (d : SaveIgData) (opts : list DownloadOption)
    : MediaInfo :=
  let field (f : SaveIgPost.t -> option string) : option string :=
    match d with Post p => f p | Items _ => None end in
  {| title := Some (Js.or_str (Js.or_opt (field SaveIgPost.title)
                                         (option_map (Js.slice0 100) (field SaveIgPost.caption)))
                              "Instagram Post");
     thumbnail := Js.or_opt (field SaveIgPost.thumbnail) (first_url opts);
     duration := None;
     author := Some (Js.or_str (field SaveIgPost.username) "Instagram User");
     platform := Instagram;
     source_url := Some url;
     description := Some (Js.or_str (field SaveIgPost.caption) "");
     downloadOptions := opts |}.

(** The body of the [try] for one service: [Some] record to return, or
    [None] to [continue]. *)
Definition attempt (url api : string) : M (option MediaInfo) :=
  res <- fetch saveig (instagram_request api) ;;
  if negb (ok res) then ret None
  else
    reply <- json res ;;
    match SaveIgReply.data reply with
    | None => ret None
    | Some d =>
        let opts := instagram_options d in
        if Nat.eqb (List.length opts) 0 then ret None
        else ret (Some (instagram_record url d opts))
    end.

Definition instagram_failure : JsError :=
  Error "Failed to fetch Instagram media. The post may be private or all APIs are unavailable.".

Fixpoint api_loop (apis : list string) (url : string) : M MediaInfo :=
  match apis with
  | [] => throw instagram_failure
  | api :: rest =>
      found <- try_catch (attempt url api) (fun _ => ret None) ;;
      match found with
      | Some mediaInfo => ret mediaInfo
      | None => api_loop rest url
      end
  end.

Definition fetchInstagramInfo (url : string) : M MediaInfo := api_loop (apis url) url.

Definition fetchFacebookInfo (url : string) : M MediaInfo :=
  throw (Error "Facebook downloads are currently unavailable. Most videos are private or require authentication.").

Definition fetchPinterestInfo (url : string) : M MediaInfo :=
  throw (Error "Pinterest downloads are currently unavailable.").

(** The [switch] on [platform.name]; its [default] branch is out of reach
    of a [PlatformName]. *)
Definition fetchMediaInfo (url : string) (platform : Platform) : M MediaInfo :=
  try_catch
    match name platform with
    | YouTube => fetchYouTubeInfo url
    | TikTok => fetchTikTokInfo url
    | Twitter => fetchTwitterInfo url
    | Instagram => fetchInstagramInfo url
    | Facebook => fetchFacebookInfo url
    | Pinterest => fetchPinterestInfo url
    | LinkedIn =>
        throw (Error "LinkedIn downloads are not supported (no public API available)")
    end
    (fun err =>
       throw (Error (Js.or_str (Some (message err))
                               ("Failed to fetch " ++ name_string (name platform)
                                ++ " media. Please try again.")))).

End WithWorld.
End ApiDraft.

(* ===================================================================== *)
(** * Concrete worlds                                                     *)
(* ===================================================================== *)

Module Scenario.
Local Open Scope Z_scope.

(** [n] in decimal, padded with zeros to [width] digits. *)
Definition padded (width : nat) (n : Z) : string :=
  Js.pad_fraction width (Js.decimal n).

(** The civil date of a day number, counted from 1970-01-01. *)
Definition civil_from_days (days : Z) : Z * Z * Z :=
  let z := days + 719468 in
  let era := z / 146097 in
  let doe := z - era * 146097 in
  let yoe := (doe - doe / 1460 + doe / 36524 - doe / 146096) / 365 in
  let doy := doe - (365 * yoe + yoe / 4 - yoe / 100) in
  let mp := (5 * doy + 2) / 153 in
  let d := doy - (153 * mp + 2) / 5 + 1 in
  let m := if mp <? 10 then mp + 3 else mp - 9 in
  let y := yoe + era * 400 + (if m <=? 2 then 1 else 0) in
  (y, m, d).

(** [new Date(ms).toISOString()] *)
Definition Date_toISOString (ms : Z) : JsError + string :=
  if (ms <? -8640000000000000) || (8640000000000000 <? ms)
  then inl (mkError "RangeError" "Invalid time value")
  else
    let '(y, m, d) := civil_from_days (ms / 86400000) in
    let t := ms mod 86400000 in
    let year := if (0 <=? y) && (y <=? 9999) then padded 4 y
                else if y <? 0 then ("-" ++ padded 6 (- y))%string
                else ("+" ++ padded 6 y)%string in
    inr (year ++ "-" ++ padded 2 m ++ "-" ++ padded 2 d ++ "T" ++
         padded 2 (t / 3600000) ++ ":" ++ padded 2 (t / 60000 mod 60) ++ ":" ++
         padded 2 (t / 1000 mod 60) ++ "." ++ padded 3 (t mod 1000) ++ "Z")%string.

Definition failed_to_fetch : JsError := mkError "TypeError" "Failed to fetch".

(** A service that cannot be reached. *)
Definition down {B : Type} : Service B := fun _ _ => Rejected failed_to_fetch.

(** A service that always answers [200] with the same document. *)
Definition always {B : Type} (b : B) : Service B :=
  fun _ _ => Responded (mkResponse 200 "OK" (inr b)).

Definition unavailable {B : Type} : Fetched B :=
  Responded (mkResponse 503 "Service Unavailable"
                        (inl (mkError "SyntaxError" "Unexpected end of JSON input"))).

(** Nothing answers and there is no API key. *)
Definition offline : World :=
  {| invidious := down; tikwm := down; vxtwitter := down; ddinstagram := down;
     fbdownloader := down; pinloader := down; youtube_oembed := down;
     API_KEY := None;
     generateContent := fun _ _ _ => inl failed_to_fetch;
     toISOString := Date_toISOString |}.

(** Only Invidious and YouTube's oEmbed end point answer. *)
Definition youtube_only (inv : Service InvVideo.t) (oembed : Service Oembed.t) : World :=
  {| invidious := inv; tikwm := down; vxtwitter := down; ddinstagram := down;
     fbdownloader := down; pinloader := down; youtube_oembed := oembed;
     API_KEY := None;
     generateContent := fun _ _ _ => inl failed_to_fetch;
     toISOString := Date_toISOString |}.

Definition stream (type label : option string) (bytes rate : option Js.numeric)
    (url : option string) : InvStream.t :=
  {| InvStream.type := type; InvStream.qualityLabel := label;
     InvStream.height := None; InvStream.url := url;
     InvStream.contentLength := bytes; InvStream.bitrate := rate;
     InvStream.container := None; InvStream.size := bytes |}.

Definition video (muxed adaptive : option (list InvStream.t)) : InvVideo.t :=
  {| InvVideo.title := Some "Sample";
     InvVideo.videoThumbnails := None;
     InvVideo.author := Some "Uploader";
     InvVideo.description := None;
     InvVideo.lengthSeconds := Some 200;
     InvVideo.formatStreams := muxed;
     InvVideo.adaptiveFormats := adaptive |}.

Definition s720 : InvStream.t :=
  stream (Some "video/mp4; codecs=avc1") (Some "720p")
         (Some (Js.NumStr 5242880)) None (Some "https://cdn.example/720").

Definition s1080p60 : InvStream.t :=
  stream (Some "video/mp4; codecs=avc1") (Some "1080p60")
         (Some (Js.NumStr 20971520)) None (Some "https://cdn.example/1080p60").

Definition audio_low : InvStream.t :=
  stream (Some "audio/mp4") None None (Some (Js.NumStr 64000))
         (Some "https://cdn.example/a64").

Definition audio_high : InvStream.t :=
  stream (Some "audio/webm") None None (Some (Js.NumStr 128000))
         (Some "https://cdn.example/a128").

Definition audio_high_again : InvStream.t :=
  stream (Some "audio/mp4") None None (Some (Js.Num 128000))
         (Some "https://cdn.example/a128-second").

(** A video with a label outside the rank table. *)
Definition sample : InvVideo.t :=
  video None (Some [s720; audio_low; s1080p60; audio_high; audio_high_again]).

(** A well-formed document none of whose streams is usable. *)
Definition unusable : InvVideo.t :=
  video (Some [stream (Some "video/mp4") None None None None]) None.

Definition watch : string := "https://www.youtube.com/watch?v=abc12345678".

(** The first two requests fail, each in its way; later ones succeed. *)
Definition third_time_lucky : Service InvVideo.t :=
  fun i _ =>
    match i with
    | O => Rejected failed_to_fetch
    | S O => unavailable
    | _ => Responded (mkResponse 200 "OK" (inr sample))
    end.

Definition oembed_doc : Oembed.t :=
  {| Oembed.title := Some "Sample"; Oembed.author_name := Some "Uploader" |}.

(** What the first mirror answers a [HEAD] request with. *)
Definition probe_doc : InvVideo.t :=
  {| InvVideo.title := Some "Probe";
     InvVideo.videoThumbnails := None;
     InvVideo.author := None;
     InvVideo.description := None;
     InvVideo.lengthSeconds := None;
     InvVideo.formatStreams := None;
     InvVideo.adaptiveFormats := None |}.

(** Only the first mirror of the probing draft answers. *)
Definition first_mirror_only : Service InvVideo.t :=
  fun _ rq =>
    if String.prefix "https://invidious.io.lol/" (rq_url rq)
    then Responded (mkResponse 200 "OK"
                      (inr (if String.eqb (rq_method rq) "HEAD" then probe_doc else sample)))
    else unavailable.

(** Two muxed formats of the same resolution, as [ytdl] lists them. *)
Definition itag22 : Backend.Format :=
  {| Backend.container := Some "mp4"; Backend.qualityLabel := Some "720p";
     Backend.f_url := Some "https://cdn.example/itag22";
     Backend.contentLength := Some (Js.NumStr 5242880);
     Backend.audioBitrate := Some (Js.Num 192) |}.

Definition itag136 : Backend.Format :=
  {| Backend.container := Some "mp4"; Backend.qualityLabel := Some "720p";
     Backend.f_url := Some "https://cdn.example/itag136";
     Backend.contentLength := Some (Js.NumStr 7340032);
     Backend.audioBitrate := Some (Js.Num 128) |}.

Definition itag18 : Backend.Format :=
  {| Backend.container := Some "mp4"; Backend.qualityLabel := Some "360p";
     Backend.f_url := Some "https://cdn.example/itag18";
     Backend.contentLength := None;
     Backend.audioBitrate := Some (Js.Num 96) |}.

(** What [ytdl.getInfo] returns for a video without any format. *)
Definition no_format : Backend.Info :=
  {| Backend.videoDetails :=
       {| Backend.v_title := Some "Sample";
          Backend.thumbnails := [Some "https://i.ytimg.com/vi/abc12345678/hq.jpg"];
          Backend.lengthSeconds := "200";
          Backend.author_name := Some "Uploader";
          Backend.video_url := Some watch;
          Backend.v_description := None |};
     Backend.formats := [] |}.

(** A [filterFormats] for formats that all carry both audio and video. *)
Definition all_muxed (fs : list Backend.Format) (kind : string) : list Backend.Format :=
  if String.eqb kind "videoandaudio" then fs else [].

Definition youtube : Platform :=
  mkPlatform YouTube "#FF0000" "YouTubeIcon" Detector.youtube_regex.

(** Every mirror serves [sample]. *)
Definition mirrors_up : World := youtube_only (always sample) down.

(** Every instance serves a document without a usable stream. *)
Definition nothing_usable : World := youtube_only (always unusable) (always oembed_doc).

Definition get_watch : YoutubeInfoApi.VercelRequest :=
  YoutubeInfoApi.mkRequest "GET" (Some (YoutubeInfoApi.QString watch)).

End Scenario.

(** Stand-ins for [ytdl-core] and for the local backend. *)
Module Standin.

Definition validateURL (u : string) : bool := Regex.test Detector.youtube_regex u.

Definition getVideoID (u : string) : string :=
  match Regex.match_group1 YoutubeInfoApi.id_prefix Regex.is_word_dash 11 u with
  | Some videoId => videoId
  | None => ""
  end.

(** A video with three muxed formats. *)
Definition info : Backend.Info :=
  {| Backend.videoDetails := Backend.videoDetails Scenario.no_format;
     Backend.formats := [Scenario.itag18; Scenario.itag22; Scenario.itag136] |}.

Definition getInfo (i : nat) (u : string) : JsError + Backend.Info := inr info.

(** The server as it starts. *)
Definition started : BackendRoute.Server := BackendRoute.mkServer [] 0.

Definition route : option string -> BackendRoute.Server
    -> YoutubeInfoApi.Reply * BackendRoute.Server :=
  BackendRoute.route Scenario.offline Scenario.all_muxed validateURL getVideoID getInfo.

(** What the route answers [started] with for the address [Scenario.watch]. *)
Definition record : MediaInfo :=
  {| title := Some "Sample";
     thumbnail := Some "https://i.ytimg.com/vi/abc12345678/hq.jpg";
     duration := Some "00:03:20";
     author := Some "Uploader";
     platform := YouTube;
     source_url := Some Scenario.watch;
     description := Some "";
     downloadOptions := [Backend.muxed_option Scenario.itag136;
                         Backend.muxed_option Scenario.itag18] |}.

(** A document with one muxed stream. *)
Definition muxed : InvVideo.t := Scenario.video (Some [Scenario.s720]) None.

(** The backend is not running; every Invidious instance serves [muxed]. *)
Definition instances_up : World := Scenario.youtube_only (Scenario.always muxed) Scenario.down.

(** The backend refuses the address. *)
Definition refusing : Service FallbackDraft.BackendDoc :=
  fun _ _ => Responded (mkResponse 400 "Bad Request"
                          (inr (FallbackDraft.mkDoc (Some "Invalid YouTube link") record))).

End Standin.

(* ===================================================================== *)
(** * Vocabulary of the properties                                        *)
(* ===================================================================== *)

Definition entries_of (l : list DownloadOption) : list (string * DownloadOption) :=
  map (fun item => (quality item, item)) l.

(** What both [uniqueOptions] compute. *)
Definition last_per_label (l : list DownloadOption) : list DownloadOption :=
  JsMap.values (JsMap.of_entries (entries_of l)).

(** Every entry is filed under the label of its option. *)
Definition labelled (m : list (string * DownloadOption)) : Prop :=
  Forall (fun e => fst e = quality (snd e)) m.

(** A record a resolver of platform [n] may return. *)
Definition well_stamped (n : PlatformName) (m : MediaInfo) : Prop :=
  platform m = n /\ downloadOptions m <> [].








(** [p] is the first platform of [table] whose pattern matches [url]. *)
Definition first_match (table : list Platform) (url : string) (p : Platform) : Prop :=
  exists before after,
    table = (before ++ p :: after)%list /\
    Regex.test (regex p) url = true /\
    Forall (fun q => Regex.test (regex q) url = false) before.

(** An attempt after which the mirror loop goes on to the next mirror:
    the request is rejected, the status is not a success, or the body
    does not parse. *)
Definition moves_on {B : Type} (f : Fetched B) : bool :=
  match f with
  | Rejected _ => true
  | Responded r => negb (ok r) || match body r with inl _ => true | inr _ => false end
  end.

(** An attempt that succeeds with the document [b]. *)
Definition answers {B : Type} (f : Fetched B) (b : B) : Prop :=
  exists r, f = Responded r /\ ok r = true /\ body r = inr b.

(** A probe after which [getInvidiousUrl] goes on to the next mirror. *)
Definition probe_fails {B : Type} (f : Fetched B) : bool :=
  match f with
  | Rejected _ => true
  | Responded r => negb (ok r)
  end.

(** The requests a loop issues for the first mirrors of its list. *)
Definition attempts (rq : string -> Request) (mirrors : list string) : Trace :=
  map (fun base => Fetch (rq base)) mirrors.

(** The request of the mirror loop to the mirror [base]. *)
Definition mirror_request (videoId base : string) : Request :=
  GET_within 8000 (MirrorDraft.api_url base videoId).

(** The probe of [getInvidiousUrl] to the mirror [base]. *)
Definition probe_request (path base : string) : Request :=
  HEAD_within 5000 (base ++ path).




(** The label is in the rank table. *)
Definition known (o : DownloadOption) : bool :=
  negb (JsArray.indexOf ProbeDraft.qualityOrder (quality o) =? -1)%Z.

Definition unknown (o : DownloadOption) : bool := negb (known o).

(** Every mirror of [mirrors] fails when it is tried after [tr]. *)
Definition all_fail {B : Type} (service : Service B) (fails : Fetched B -> bool)
    (rq : string -> Request) (tr : Trace) (mirrors : list string) : Prop :=
  forall j base, nth_error mirrors j = Some base ->
                 fails (service (List.length tr + j) (rq base)) = true.

(* ===================================================================== *)
(** * Vocabulary of the further properties                                *)
(* ===================================================================== *)

(** [t] is what is left of [s] after some prefix of it. *)
Definition suffix_of (t s : string) : Prop := exists w, s = w ++ t.

(** The host texts of the pattern of a platform. *)
Definition hosts (n : PlatformName) : list string :=
  match n with
  | YouTube => ["youtube.com/"; "youtu.be/"]
  | TikTok => ["tiktok.com/"]
  | Instagram => ["instagram.com/"]
  | Twitter => ["twitter.com/"; "x.com/"]
  | Facebook => ["facebook.com/"]
  | LinkedIn => ["linkedin.com/"]
  | Pinterest => ["pinterest."]
  end.

(** Every character of [s] satisfies [p]. *)
Fixpoint all_chars (p : ascii -> bool) (s : string) : bool :=
  match s with
  | EmptyString => true
  | String c t => p c && all_chars p t
  end.

(** A lower-case letter, a digit or an underscore. *)
Definition is_lower_word (c : ascii) : bool :=
  Regex.in_range "a" "z" c || Regex.is_digit c || Ascii.eqb c "_".

(** What [encodeURIComponent] writes: unreserved characters and percent
    escapes. *)
Definition is_uri_safe (c : ascii) : bool :=
  JsText.unreserved c || Ascii.eqb c "%".

(** The platforms the draft that probes the mirrors has no resolver for. *)
Definition coming_later (n : PlatformName) : bool :=
  match n with
  | Instagram | Facebook | LinkedIn | Pinterest => true
  | _ => false
  end.

(** An option that can be listed and downloaded: it has an address and a
    label. *)
Definition usable (o : DownloadOption) : Prop :=
  Js.truthy_str (url o) = true /\ Js.nonempty (quality o) = true.

(** The request of the serverless function to an Invidious instance. *)
Definition api_request (videoId instance : string) : Request :=
  GET_json_within 5000 (instance ++ "/api/v1/videos/" ++ videoId).

(** Its request to the oEmbed end point of YouTube. *)
Definition oembed_request (videoId : string) : Request :=
  GET ("https://www.youtube.com/oembed?url=https://www.youtube.com/watch?v="
       ++ videoId ++ "&format=json").

(** The browser agrees with the theme of the hook. *)
Definition theme_persisted (st : UseTheme.Theme * UseTheme.Browser) : Prop :=
  UseTheme.stored (snd st) = Some (UseTheme.theme_string (fst st)) /\
  UseTheme.rootDark (snd st) = match fst st with UseTheme.dark => true | _ => false end.

(* ===================================================================== *)
(** * Facts about [Array.prototype.sort]                                  *)
(* ===================================================================== *)

Section SortFacts.
Context {A : Type}.
Variable compareFn : A -> A -> Z.

Lemma insert_perm (x : A) (l : list A) :
  Permutation (JsArray.insert compareFn x l) (x :: l).
Proof.
  induction l as [|y t IH]; simpl.
  - apply Permutation_refl.
  - destruct (compareFn x y <=? 0)%Z.
    + apply Permutation_refl.
    + eapply perm_trans; [apply perm_skip, IH | apply perm_swap].
Qed.

Lemma sort_perm (l : list A) : Permutation (JsArray.sort compareFn l) l.
Proof.
  induction l as [|x t IH]; simpl.
  - apply perm_nil.
  - eapply perm_trans; [apply insert_perm | apply perm_skip, IH].
Qed.

Lemma sort_nil_inv (l : list A) : JsArray.sort compareFn l = [] -> l = [].
Proof.
  intro H. apply Permutation_nil. rewrite <- H. apply sort_perm.
Qed.

(** A list already in order is left as it is. *)
Lemma sort_fixed (l : list A) : Sorted (JsArray.in_order compareFn) l -> JsArray.sort compareFn l = l.
Proof.
  induction 1 as [|x l Hs IH Hd]; simpl; [reflexivity|].
  fold (JsArray.sort compareFn l). rewrite IH.
  destruct Hd as [|y l' Hxy]; simpl; [reflexivity|].
  unfold JsArray.in_order in Hxy. apply Z.leb_le in Hxy. now rewrite Hxy.
Qed.

(** Elements that never have to follow one another keep their order. *)
Lemma filter_insert (p : A -> bool) (x : A) (l : list A) :
  (forall a b, p a = true -> p b = true -> JsArray.in_order compareFn a b) ->
  filter p (JsArray.insert compareFn x l) = filter p (x :: l).
Proof.
  intros Hp. induction l as [|y t IH]; simpl; [reflexivity|].
  destruct (compareFn x y <=? 0)%Z eqn:E; simpl; [reflexivity|].
  rewrite IH. simpl.
  destruct (p x) eqn:Px, (p y) eqn:Py; try reflexivity.
  apply Z.leb_gt in E. specialize (Hp x y Px Py). unfold JsArray.in_order in Hp. lia.
Qed.

Lemma sort_stable (p : A -> bool) (l : list A) :
  (forall a b, p a = true -> p b = true -> JsArray.in_order compareFn a b) ->
  filter p (JsArray.sort compareFn l) = filter p l.
Proof.
  intros Hp. induction l as [|x t IH]; simpl; [reflexivity|].
  fold (JsArray.sort compareFn t).
  rewrite (filter_insert p x _ Hp). simpl. now rewrite IH.
Qed.

(** The comparator orders any two elements one way or the other. *)
Hypothesis compare_total : forall x y, (compareFn x y > 0)%Z -> (compareFn y x <= 0)%Z.

Lemma insert_sorted (x : A) (l : list A) :
  Sorted (JsArray.in_order compareFn) l -> Sorted (JsArray.in_order compareFn) (JsArray.insert compareFn x l).
Proof.
  induction 1 as [|y l Hs IH Hd]; simpl.
  - repeat constructor.
  - destruct (compareFn x y <=? 0)%Z eqn:E.
    + constructor; [now constructor|]. constructor. now apply Z.leb_le.
    + constructor; [exact IH|].
      apply Z.leb_gt in E.
      assert (Hyx : JsArray.in_order compareFn y x) by (apply compare_total; lia).
      destruct Hd as [|z l' Hyz]; simpl.
      * now constructor.
      * destruct (compareFn x z <=? 0)%Z; now constructor.
Qed.

Lemma sort_sorted (l : list A) : Sorted (JsArray.in_order compareFn) (JsArray.sort compareFn l).
Proof.
  induction l as [|x t IH]; simpl; [constructor|]. now apply insert_sorted.
Qed.

Lemma sort_idempotent (l : list A) :
  JsArray.sort compareFn (JsArray.sort compareFn l) = JsArray.sort compareFn l.
Proof. apply sort_fixed, sort_sorted. Qed.

End SortFacts.

(** Sorting by a numeric key, largest first: the first element of the
    result is the first element of the input that has the largest key. *)
Section SortByKey.
Context {A : Type}.
Variable compareFn : A -> A -> Z.
Variable key : A -> Z.
Hypothesis compare_key : forall a b, compareFn a b = (key b - key a)%Z.

Lemma descending_total (x y : A) : (compareFn x y > 0)%Z -> (compareFn y x <= 0)%Z.
Proof. rewrite !compare_key. lia. Qed.



End SortByKey.

(* ===================================================================== *)
(** * Facts about [Map] and the removal of duplicates                     *)
(* ===================================================================== *)

Section MapFacts.
Context {V : Type}.

Lemma set_fresh (k : string) (v : V) (m : list (string * V)) :
  ~ In k (JsMap.keys m) -> JsMap.set k v m = (m ++ [(k, v)])%list.
Proof.
  induction m as [|[k' v'] rest IH]; simpl; intros Hk; [reflexivity|].
  destruct (String.eqb_spec k' k) as [->|Hne].
  - exfalso. apply Hk. now left.
  - f_equal. apply IH. intro Hin. apply Hk. now right.
Qed.

Lemma set_keys_present (k : string) (v : V) (m : list (string * V)) :
  In k (JsMap.keys m) -> JsMap.keys (JsMap.set k v m) = JsMap.keys m.
Proof.
  induction m as [|[k' v'] rest IH]; simpl; intros Hk; [contradiction|].
  destruct (String.eqb_spec k' k) as [->|Hne]; simpl; [reflexivity|].
  f_equal. apply IH. destruct Hk as [Hk|Hk]; [contradiction | exact Hk].
Qed.

Lemma set_keys_nodup (k : string) (v : V) (m : list (string * V)) :
  NoDup (JsMap.keys m) -> NoDup (JsMap.keys (JsMap.set k v m)).
Proof.
  intros Hm. destruct (in_dec string_dec k (JsMap.keys m)) as [Hin|Hout].
  - now rewrite set_keys_present.
  - rewrite set_fresh by exact Hout. unfold JsMap.keys. rewrite map_app. simpl.
    apply NoDup_app; [exact Hm | repeat constructor; auto |].
    intros a Ha [<-|[]]. contradiction.
Qed.

Lemma of_entries_snoc (es : list (string * V)) (e : string * V) :
  JsMap.of_entries (es ++ [e]) = JsMap.set (fst e) (snd e) (JsMap.of_entries es).
Proof. unfold JsMap.of_entries. now rewrite fold_left_app. Qed.

Lemma of_entries_nodup (es : list (string * V)) : NoDup (JsMap.keys (JsMap.of_entries es)).
Proof.
  induction es as [|e es IH] using rev_ind.
  - constructor.
  - rewrite of_entries_snoc. now apply set_keys_nodup.
Qed.

(** Entries with distinct keys are stored as they come. *)
Lemma fold_set_fresh (es acc : list (string * V)) :
  NoDup (JsMap.keys (acc ++ es)%list) ->
  fold_left (fun m e => JsMap.set (fst e) (snd e) m) es acc = (acc ++ es)%list.
Proof.
  revert acc. induction es as [|[k v] es IH]; intros acc Hnd; simpl.
  - now rewrite app_nil_r.
  - rewrite set_fresh.
    + rewrite IH; rewrite <- app_assoc; [reflexivity | exact Hnd].
    + unfold JsMap.keys in *. rewrite map_app in Hnd. simpl in Hnd.
      apply NoDup_remove_2 in Hnd. intro Hin. apply Hnd.
      apply in_or_app. now left.
Qed.

End MapFacts.

Section DedupeFacts.

Lemma set_labelled (x : DownloadOption) (m : list (string * DownloadOption)) :
  labelled m -> labelled (JsMap.set (quality x) x m).
Proof.
  induction 1 as [|[k v] rest Hk Hrest IH]; simpl.
  - repeat constructor.
  - destruct (String.eqb_spec k (quality x)) as [->|Hne].
    + constructor; [reflexivity | exact Hrest].
    + constructor; [exact Hk | exact IH].
Qed.

Lemma entries_of_snoc (l : list DownloadOption) (x : DownloadOption) :
  entries_of (l ++ [x]) = (entries_of l ++ [(quality x, x)])%list.
Proof. unfold entries_of. now rewrite map_app. Qed.

Lemma of_entries_labelled (l : list DownloadOption) :
  labelled (JsMap.of_entries (entries_of l)).
Proof.
  induction l as [|x l IH] using rev_ind.
  - constructor.
  - rewrite entries_of_snoc, of_entries_snoc. simpl. now apply set_labelled.
Qed.

Lemma labelled_keys (m : list (string * DownloadOption)) :
  labelled m -> map quality (JsMap.values m) = JsMap.keys m.
Proof.
  induction 1 as [|[k v] rest Hk Hrest IH]; simpl; [reflexivity|].
  simpl in Hk. now rewrite IH, Hk.
Qed.

Lemma in_values_label (m : list (string * DownloadOption)) (o : DownloadOption) :
  labelled m -> In o (JsMap.values m) -> In (quality o) (JsMap.keys m).
Proof.
  intros Hm Ho. rewrite <- (labelled_keys m Hm). now apply in_map.
Qed.

Lemma in_values_set (x o : DownloadOption) (m : list (string * DownloadOption)) :
  NoDup (JsMap.keys m) -> labelled m ->
  In o (JsMap.values (JsMap.set (quality x) x m)) <->
  o = x \/ (In o (JsMap.values m) /\ quality o <> quality x).
Proof.
  induction m as [|[k v] rest IH]; simpl; intros Hnd Hl.
  - split; [intros [<-|[]]; now left | intros [->|[[] _]]; now left].
  - inversion Hnd as [|? ? Hk Hnd']; subst. inversion Hl as [|? ? Hkv Hl']; subst.
    simpl in Hkv. subst k.
    destruct (String.eqb_spec (quality v) (quality x)) as [E|Hne]; simpl.
    + split.
      * intros [<-|Hin]; [now left|]. right. split; [now right|].
        intro Eq. apply Hk. rewrite E, <- Eq. now apply in_values_label.
      * intros [->|[[<-|Hin] Hq]]; [now left | congruence | now right].
    + rewrite (IH Hnd' Hl'). split.
      * intros [<-|[->|[Hin Hq]]].
        -- right. split; [now left | exact Hne].
        -- now left.
        -- right. split; [now right | exact Hq].
      * intros [->|[[<-|Hin] Hq]].
        -- right. now left.
        -- now left.
        -- right. right. now split.
Qed.

(** The options kept are exactly those no later option shares a label
    with: the last of each label. *)
Lemma last_per_label_spec (l : list DownloadOption) (o : DownloadOption) :
  In o (last_per_label l) <->
  exists before after,
    l = (before ++ o :: after)%list /\
    Forall (fun x => quality x <> quality o) after.
Proof.
  unfold last_per_label. induction l as [|x l IH] using rev_ind.
  - simpl. split; [intros [] | intros (b & a & H & _); now destruct b].
  - rewrite entries_of_snoc, of_entries_snoc. simpl.
    rewrite in_values_set by (apply of_entries_nodup || apply of_entries_labelled).
    rewrite IH. split.
    + intros [->|[(b & a & -> & Ha) Hq]].
      * exists l, []. split; [reflexivity | constructor].
      * exists b, (a ++ [x])%list. split; [now rewrite <- app_assoc|].
        apply Forall_app. split; [exact Ha|]. constructor; [congruence | constructor].
    + intros (b & a & Hl & Ha).
      destruct a as [|y a'] using rev_ind.
      * apply app_inj_tail in Hl. destruct Hl as [_ ->]. now left.
      * clear IHa'. rewrite app_comm_cons, app_assoc in Hl.
        apply app_inj_tail in Hl. destruct Hl as [-> ->].
        apply Forall_app in Ha. destruct Ha as [Ha Hy].
        inversion Hy; subst. right. split; [|congruence].
        exists b, a'. now split.
Qed.

Lemma last_per_label_nodup (l : list DownloadOption) :
  NoDup (map quality (last_per_label l)).
Proof.
  unfold last_per_label. rewrite labelled_keys by apply of_entries_labelled.
  apply of_entries_nodup.
Qed.

(** Options with distinct labels are all kept, in their order. *)
Lemma last_per_label_fixed (l : list DownloadOption) :
  NoDup (map quality l) -> last_per_label l = l.
Proof.
  intros Hnd. unfold last_per_label, JsMap.of_entries.
  rewrite fold_set_fresh.
  - simpl. unfold JsMap.values, entries_of. rewrite map_map. simpl. apply map_id.
  - simpl. unfold JsMap.keys, entries_of. rewrite map_map. exact Hnd.
Qed.

(** De-duplication followed by a stable sort is idempotent. *)
Lemma dedupe_sort_idempotent (compareFn : DownloadOption -> DownloadOption -> Z)
    (l : list DownloadOption) :
  (forall x y, (compareFn x y > 0)%Z -> (compareFn y x <= 0)%Z) ->
  let pass l := JsArray.sort compareFn (last_per_label l) in
  pass (pass l) = pass l.
Proof.
  intros Htotal pass. unfold pass.
  rewrite (last_per_label_fixed (JsArray.sort compareFn (last_per_label l))).
  - now apply sort_idempotent.
  - eapply Permutation_NoDup; [|apply last_per_label_nodup].
    apply Permutation_map, Permutation_sym, sort_perm.
Qed.

End DedupeFacts.

(* ===================================================================== *)
(** * Running asynchronous code                                           *)
(* ===================================================================== *)

Section RunFacts.
Context {A B : Type}.

Lemma bind_returned (m : M A) (k : A -> M B) (tr tr' : Trace) (b : B) :
  bind m k tr = (Returned b, tr') ->
  exists a tr1, m tr = (Returned a, tr1) /\ k a tr1 = (Returned b, tr').
Proof.
  unfold bind. destruct (m tr) as [[a|e] tr1]; [|discriminate].
  intros H. now exists a, tr1.
Qed.

Lemma ret_returned (a a' : A) (tr tr' : Trace) :
  ret a tr = (Returned a', tr') -> a' = a /\ tr' = tr.
Proof. unfold ret. now intros [= <- <-]. Qed.

End RunFacts.

Lemma throw_if_returned (c : bool) (e : JsError) (tr tr' : Trace) (u : unit) :
  throw_if c e tr = (Returned u, tr') -> c = false /\ tr' = tr.
Proof. destruct c; simpl; [discriminate|]. unfold ret. now intros [= <- <-]. Qed.

Lemma length_zero_false {X : Type} (l : list X) :
  Nat.eqb (List.length l) 0 = false -> l <> [].
Proof. destruct l; simpl; [discriminate | discriminate]. Qed.

(** Steps back through a run that returned. *)
Ltac returned H :=
  repeat
    match type of H with
    | bind _ _ _ = (Returned _, _) =>
        let a := fresh "x" in
        let t := fresh "tr" in
        let H1 := fresh "Hstep" in
        apply bind_returned in H; destruct H as (a & t & H1 & H);
        try (apply throw_if_returned in H1; destruct H1 as [H1 ->])
    | throw _ _ = (Returned _, _) => discriminate H
    | ret _ _ = (Returned _, _) => apply ret_returned in H; destruct H as [-> ->]
    end.

(* ===================================================================== *)
(** * What the resolvers return                                           *)
(* ===================================================================== *)

Section ResolverFacts.
Variable W : World.

Lemma mirror_youtube_returns (url : string) (tr tr' : Trace) (m : MediaInfo) :
  MirrorDraft.fetchYouTubeInfo W url tr = (Returned m, tr') -> well_stamped YouTube m.
Proof.
  unfold MirrorDraft.fetchYouTubeInfo.
  destruct (MirrorDraft.getYoutubeVideoId url) as [videoId|]; [|discriminate].
  intros H. returned H. destruct x0 as [data|]; [|discriminate].
  returned H. split; [reflexivity|]. simpl.
  intro Hnil. apply sort_nil_inv in Hnil. now apply length_zero_false in Hstep1.
Qed.

Lemma mirror_tiktok_returns (url : string) (tr tr' : Trace) (m : MediaInfo) :
  MirrorDraft.fetchTikTokInfo W url tr = (Returned m, tr') -> well_stamped TikTok m.
Proof.
  unfold MirrorDraft.fetchTikTokInfo. intros H. returned H.
  destruct (TikReply.data x1) as [d|]; [|discriminate].
  returned H. split; [reflexivity|]. simpl. now apply length_zero_false.
Qed.

Lemma mirror_twitter_returns (url : string) (tr tr' : Trace) (m : MediaInfo) :
  MirrorDraft.fetchTwitterInfo W url tr = (Returned m, tr') -> well_stamped Twitter m.
Proof.
  unfold MirrorDraft.fetchTwitterInfo. intros H. returned H.
  destruct (VxReply.tweet x1) as [t|]; [|discriminate].
  returned H. split; [reflexivity|]. simpl. now apply length_zero_false.
Qed.

Lemma mirror_instagram_returns (url : string) (tr tr' : Trace) (m : MediaInfo) :
  MirrorDraft.fetchInstagramInfo W url tr = (Returned m, tr') -> well_stamped Instagram m.
Proof.
  unfold MirrorDraft.fetchInstagramInfo. intros H. returned H.
  destruct (IgReply.data x1) as [d|]; [|discriminate].
  returned H. split; [reflexivity|]. simpl. now apply length_zero_false.
Qed.

Lemma mirror_facebook_returns (url : string) (tr tr' : Trace) (m : MediaInfo) :
  MirrorDraft.fetchFacebookInfo W url tr = (Returned m, tr') -> well_stamped Facebook m.
Proof.
  unfold MirrorDraft.fetchFacebookInfo. intros H. returned H.
  split; [reflexivity|]. simpl. now apply length_zero_false.
Qed.

Lemma mirror_pinterest_returns (url : string) (tr tr' : Trace) (m : MediaInfo) :
  MirrorDraft.fetchPinterestInfo W url tr = (Returned m, tr') -> well_stamped Pinterest m.
Proof.
  unfold MirrorDraft.fetchPinterestInfo. intros H. returned H.
  split; [reflexivity|]. simpl. now apply length_zero_false.
Qed.

Lemma rethrow_returned {X : Type} (m : M X) (f : JsError -> JsError)
    (tr tr' : Trace) (x : X) :
  try_catch m (fun e => throw (f e)) tr = (Returned x, tr') ->
  m tr = (Returned x, tr').
Proof.
  unfold try_catch. destruct (m tr) as [[y|e] t]; [trivial | discriminate].
Qed.

Lemma mirror_fetchMediaInfo_returns (url : string) (p : Platform)
    (tr tr' : Trace) (m : MediaInfo) :
  MirrorDraft.fetchMediaInfo W url p tr = (Returned m, tr') -> well_stamped (name p) m.
Proof.
  unfold MirrorDraft.fetchMediaInfo. intros H. apply rethrow_returned in H.
  destruct (name p).
  - eapply mirror_youtube_returns; eassumption.
  - eapply mirror_tiktok_returns; eassumption.
  - eapply mirror_instagram_returns; eassumption.
  - eapply mirror_twitter_returns; eassumption.
  - eapply mirror_facebook_returns; eassumption.
  - discriminate.
  - eapply mirror_pinterest_returns; eassumption.
Qed.

Lemma probe_youtube_returns (url : string) (tr tr' : Trace) (m : MediaInfo) :
  ProbeDraft.fetchYouTubeInfo W url tr = (Returned m, tr') -> well_stamped YouTube m.
Proof.
  unfold ProbeDraft.fetchYouTubeInfo.
  destruct (ProbeDraft.getYoutubeVideoId url) as [videoId|]; [|discriminate].
  intros H. returned H. split; [reflexivity|]. simpl.
  intro Hnil. apply sort_nil_inv in Hnil.
  match goal with Hz : Nat.eqb _ 0 = false |- _ => now apply length_zero_false in Hz end.
Qed.

Lemma probe_tiktok_returns (url : string) (tr tr' : Trace) (m : MediaInfo) :
  ProbeDraft.fetchTikTokInfo W url tr = (Returned m, tr') -> well_stamped TikTok m.
Proof.
  unfold ProbeDraft.fetchTikTokInfo. intros H. returned H.
  destruct (TikReply.data x1) as [d|]; [|discriminate].
  returned H. split; [reflexivity|]. simpl.
  match goal with Hz : Nat.eqb _ 0 = false |- _ => now apply length_zero_false in Hz end.
Qed.

Lemma probe_twitter_returns (url : string) (tr tr' : Trace) (m : MediaInfo) :
  ProbeDraft.fetchTwitterInfo W url tr = (Returned m, tr') -> well_stamped Twitter m.
Proof.
  unfold ProbeDraft.fetchTwitterInfo. intros H. returned H.
  destruct (VxReply.tweet x1) as [t|]; [|discriminate].
  returned H. split; [reflexivity|]. simpl. now apply length_zero_false.
Qed.

Lemma probe_fetchMediaInfo_returns (url : string) (p : Platform)
    (tr tr' : Trace) (m : MediaInfo) :
  ProbeDraft.fetchMediaInfo W url p tr = (Returned m, tr') -> well_stamped (name p) m.
Proof.
  unfold ProbeDraft.fetchMediaInfo. intros H. apply rethrow_returned in H.
  destruct (name p); try discriminate.
  - eapply probe_youtube_returns; eassumption.
  - eapply probe_tiktok_returns; eassumption.
  - eapply probe_twitter_returns; eassumption.
Qed.

Lemma api_resolve_returns (url : string) (tr tr' : Trace) (c : Z) (m : MediaInfo) :
  YoutubeInfoApi.resolve W url tr
    = (Returned (YoutubeInfoApi.mkReply c (YoutubeInfoApi.JsonMedia m)), tr') ->
  well_stamped YouTube m.
Proof.
  unfold YoutubeInfoApi.resolve.
  destruct (Regex.match_group1 _ _ _ url) as [videoId|]; [|discriminate].
  intros H. returned H. destruct x2 as [videoData|].
  - returned H. apply ret_returned in H. destruct H as [[= _ ->] _].
    split; [reflexivity|]. simpl.
    destruct (YoutubeInfoApi.normalize _) as [|o l]; simpl; discriminate.
  - apply ret_returned in H. destruct H as [[= _ ->] _].
    split; [reflexivity | discriminate].
Qed.

Lemma api_handler_returns (req : YoutubeInfoApi.VercelRequest)
    (tr tr' : Trace) (c : Z) (m : MediaInfo) :
  YoutubeInfoApi.handler W req tr
    = (Returned (YoutubeInfoApi.mkReply c (YoutubeInfoApi.JsonMedia m)), tr') ->
  well_stamped YouTube m.
Proof.
  unfold YoutubeInfoApi.handler.
  destruct (String.eqb _ "OPTIONS"); [discriminate|].
  destruct (YoutubeInfoApi.query_url req) as [[url|l]|]; try discriminate.
  destruct (negb (Js.nonempty url)); [discriminate|].
  destruct (negb (Regex.test _ url)); [discriminate|].
  unfold try_catch.
  destruct (YoutubeInfoApi.resolve W url tr) as [[r|e] t] eqn:E; [|discriminate].
  intros [= -> ->]. eapply api_resolve_returns. exact E.
Qed.

End ResolverFacts.

(* ===================================================================== *)
(** * Platform detection                                                  *)
(* ===================================================================== *)

Lemma getPlatform_loop_some (table : list Platform) (url : string) (p : Platform) :
  Detector.getPlatform_loop table url = Some p <-> first_match table url p.
Proof.
  unfold first_match. induction table as [|q rest IH]; simpl.
  - split; [discriminate | intros (b & a & H & _); now destruct b].
  - destruct (Regex.test (regex q) url) eqn:E.
    + split.
      * intros [= <-]. exists [], rest. repeat split; [exact E | constructor].
      * intros (b & a & H & Hp & Hb). destruct b as [|q' b]; simpl in H.
        -- now injection H as -> _.
        -- injection H as -> _. inversion Hb; subst. congruence.
    + rewrite IH. split.
      * intros (b & a & -> & Hp & Hb). exists (q :: b), a.
        repeat split; [exact Hp | now constructor].
      * intros (b & a & H & Hp & Hb). destruct b as [|q' b]; simpl in H.
        -- injection H as -> _. congruence.
        -- injection H as -> ->. inversion Hb; subst. now exists b, a.
Qed.

Lemma getPlatform_loop_none (table : list Platform) (url : string) :
  Detector.getPlatform_loop table url = None <->
  Forall (fun q => Regex.test (regex q) url = false) table.
Proof.
  induction table as [|q rest IH]; simpl.
  - split; [constructor | reflexivity].
  - destruct (Regex.test (regex q) url) eqn:E.
    + split; [discriminate | intros H; inversion H; congruence].
    + rewrite IH. split; [now constructor | intros H; now inversion H].
Qed.

(** C7. [getPlatform] is a function of the URL and the static table: it
    goes through the platforms in the order the table lists them
    (YouTube, TikTok, Instagram, Twitter, Facebook, LinkedIn, Pinterest)
    and returns the first one whose pattern matches the URL; it returns
    [null] exactly when no pattern matches.  Being a function, it gives
    equal results on equal inputs. *)
Theorem C7_getPlatform_first_match (url : string) :
  map name (Detector.Object_values Detector.PLATFORMS)
    = [YouTube; TikTok; Instagram; Twitter; Facebook; LinkedIn; Pinterest] /\
  (forall p, Detector.getPlatform url = Some p <->
             first_match (Detector.Object_values Detector.PLATFORMS) url p) /\
  (Detector.getPlatform url = None <->
   Forall (fun q => Regex.test (regex q) url = false)
          (Detector.Object_values Detector.PLATFORMS)) /\
  (forall url', url' = url -> Detector.getPlatform url' = Detector.getPlatform url).
Proof.
  split; [reflexivity|]. split; [|split].
  - intros p. apply getPlatform_loop_some.
  - apply getPlatform_loop_none.
  - now intros url' ->.
Qed.

(** The two scenarios of the specification: both host forms of a YouTube
    address are detected as YouTube, through the first entry of the
    table. *)
Lemma C7_getPlatform_first_match_witness :
  Detector.getPlatform "https://www.youtube.com/watch?v=abc12345678" = Some Scenario.youtube /\
  Detector.getPlatform "https://youtu.be/abc12345678" = Some Scenario.youtube /\
  Detector.getPlatform "https://example.com/foo" = None.
Proof.
  split; [|split].
  - apply (proj1 (proj2 (C7_getPlatform_first_match _))).
    exists [], (tl (Detector.Object_values Detector.PLATFORMS)).
    split; [reflexivity|]. split; [vm_compute; reflexivity | constructor].
  - apply (proj1 (proj2 (C7_getPlatform_first_match _))).
    exists [], (tl (Detector.Object_values Detector.PLATFORMS)).
    split; [reflexivity|]. split; [vm_compute; reflexivity | constructor].
  - apply (proj1 (proj2 (proj2 (C7_getPlatform_first_match _)))).
    repeat constructor.
Defined.

(* ===================================================================== *)
(** * The entry point                                                     *)
(* ===================================================================== *)

(** C1, as the specification states it, fails on the empty URL: no
    pattern matches it, yet [handleFetch] reports that a URL is missing,
    not that the platform is unsupported. *)
Lemma C1_counterexample_empty_url :
  let s := App.mkState "" false None None None in
  let s' := fst (App.handleFetch Scenario.offline
                   (MirrorDraft.fetchMediaInfo Scenario.offline) s []) in
  Detector.getPlatform (App.url s) = None /\
  App.error s' = Some "Please enter a URL." /\
  App.error s' <> Some App.unsupported_message.
Proof. vm_compute. repeat split. discriminate. Qed.

(** C1 (amended). For every URL that matches no platform pattern,
    [handleFetch] makes no call to the outside world, whatever resolver
    it is linked with.  If the URL is not empty it reports the
    unsupported-platform error, with no media record and the loading
    flag cleared; if it is empty it reports that a URL is missing. *)
Theorem C1_unmatched_url_no_call (W : World)
    (fetchMediaInfo : string -> Platform -> M MediaInfo)
    (s : App.State) (tr : Trace) :
  Detector.getPlatform (App.url s) = None ->
  let s' := fst (App.handleFetch W fetchMediaInfo s tr) in
  snd (App.handleFetch W fetchMediaInfo s tr) = tr /\
  (App.url s <> "" ->
   App.error s' = Some App.unsupported_message /\
   App.mediaInfo s' = None /\ App.isLoading s' = false) /\
  (App.url s = "" -> App.error s' = Some "Please enter a URL.").
Proof.
  intros Hnone. unfold App.handleFetch. rewrite Hnone.
  destruct (App.url s) as [|c t] eqn:Eu; simpl.
  - repeat split; intros; congruence.
  - repeat split; intros; congruence.
Qed.

Lemma C1_unmatched_url_no_call_witness :
  let run url := App.handleFetch Scenario.offline
                   (MirrorDraft.fetchMediaInfo Scenario.offline)
                   (App.mkState url false None None None) [] in
  (snd (run "https://example.com/foo") = [] /\
   App.error (fst (run "https://example.com/foo")) = Some App.unsupported_message) /\
  (snd (run "") = [] /\ App.error (fst (run "")) = Some "Please enter a URL.").
Proof.
  intros run. split.
  - destruct (C1_unmatched_url_no_call Scenario.offline
                (MirrorDraft.fetchMediaInfo Scenario.offline)
                (App.mkState "https://example.com/foo" false None None None) [])
      as (Htr & Hunsupported & _).
    + vm_compute. reflexivity.
    + split; [exact Htr|]. apply Hunsupported. discriminate.
  - destruct (C1_unmatched_url_no_call Scenario.offline
                (MirrorDraft.fetchMediaInfo Scenario.offline)
                (App.mkState "" false None None None) [])
      as (Htr & _ & Hempty).
    + vm_compute. reflexivity.
    + split; [exact Htr|]. apply Hempty. reflexivity.
Defined.

(* ===================================================================== *)
(** * The options of a returned record                                    *)
(* ===================================================================== *)

Lemma api_resolve_options (W : World) (url : string) (tr tr' : Trace) (c : Z)
    (m : MediaInfo) :
  YoutubeInfoApi.resolve W url tr
    = (Returned (YoutubeInfoApi.mkReply c (YoutubeInfoApi.JsonMedia m)), tr') ->
  (exists videoId, downloadOptions m = [YoutubeInfoApi.watch_on_youtube videoId]) \/
  (exists videoData,
     downloadOptions m = YoutubeInfoApi.normalize (YoutubeInfoApi.downloadOptions_of videoData) /\
     YoutubeInfoApi.normalize (YoutubeInfoApi.downloadOptions_of videoData) <> []).
Proof.
  unfold YoutubeInfoApi.resolve.
  destruct (Regex.match_group1 _ _ _ url) as [videoId|]; [|discriminate].
  intros H. returned H. destruct x2 as [videoData|].
  - returned H. apply ret_returned in H. destruct H as [[= _ ->] _]. simpl.
    destruct (YoutubeInfoApi.normalize _) as [|o l] eqn:E; simpl.
    + left. now exists videoId.
    + right. exists videoData. rewrite E. split; [reflexivity | discriminate].
  - apply ret_returned in H. destruct H as [[= _ ->] _]. left. now exists videoId.
Qed.

Lemma api_handler_options (W : World) (req : YoutubeInfoApi.VercelRequest)
    (tr tr' : Trace) (c : Z) (m : MediaInfo) :
  YoutubeInfoApi.handler W req tr
    = (Returned (YoutubeInfoApi.mkReply c (YoutubeInfoApi.JsonMedia m)), tr') ->
  (exists videoId, downloadOptions m = [YoutubeInfoApi.watch_on_youtube videoId]) \/
  (exists videoData,
     downloadOptions m = YoutubeInfoApi.normalize (YoutubeInfoApi.downloadOptions_of videoData) /\
     YoutubeInfoApi.normalize (YoutubeInfoApi.downloadOptions_of videoData) <> []).
Proof.
  unfold YoutubeInfoApi.handler.
  destruct (String.eqb _ "OPTIONS"); [discriminate|].
  destruct (YoutubeInfoApi.query_url req) as [[url|l]|]; try discriminate.
  destruct (negb (Js.nonempty url)); [discriminate|].
  destruct (negb (Regex.test _ url)); [discriminate|].
  unfold try_catch.
  destruct (YoutubeInfoApi.resolve W url tr) as [[r|e] t] eqn:E; [|discriminate].
  intros [= -> ->]. eapply api_resolve_options. exact E.
Qed.

Lemma mirror_youtube_no_stream (W : World) (url videoId : string)
    (data : InvVideo.t) (tr tr1 : Trace) :
  MirrorDraft.getYoutubeVideoId url = Some videoId ->
  Js.nonempty videoId = true ->
  MirrorDraft.mirror_loop W MirrorDraft.INV_MIRRORS videoId tr = (Returned (Some data), tr1) ->
  MirrorDraft.options data = [] ->
  MirrorDraft.fetchYouTubeInfo W url tr
    = (Thrown (Error "No downloadable streams (private/live?)"), tr1).
Proof.
  intros Hid Hne Hloop Hopts. unfold MirrorDraft.fetchYouTubeInfo.
  rewrite Hid, Hne. unfold bind, throw_if, ret. cbn [negb].
  rewrite Hloop, Hopts. reflexivity.
Qed.

(** C2, as the specification states it, fails on the serverless function:
    from a well-formed upstream document in which no stream is usable it
    extracts no option, and it answers with a record that carries a
    placeholder link instead of failing. *)
Lemma C2_counterexample_placeholder :
  YoutubeInfoApi.downloadOptions_of Scenario.unusable = [] /\
  exists m tr,
    YoutubeInfoApi.handler Scenario.nothing_usable Scenario.get_watch []
      = (Returned (YoutubeInfoApi.mkReply 200 (YoutubeInfoApi.JsonMedia m)), tr) /\
    downloadOptions m = [YoutubeInfoApi.watch_on_youtube "abc12345678"].
Proof.
  split; [reflexivity|]. eexists. eexists. split; vm_compute; reflexivity.
Qed.

(** C2 (amended). Every record returned by [fetchMediaInfo], in the draft
    with the mirror loop and in the draft that probes the mirrors, and
    every record the serverless function answers with, has at least one
    download option.  The YouTube resolver of the mirror-loop draft
    throws when it extracts no option from the document a mirror
    returned.  The serverless function answers either with the
    de-duplicated, ranked options it extracted, when there is one, or
    with the single placeholder option ["Watch on YouTube"]. *)
Theorem C2_options_never_empty (W : World) :
  (forall url p tr tr' m,
     MirrorDraft.fetchMediaInfo W url p tr = (Returned m, tr') \/
     ProbeDraft.fetchMediaInfo W url p tr = (Returned m, tr') ->
     downloadOptions m <> []) /\
  (forall req tr tr' c m,
     YoutubeInfoApi.handler W req tr
       = (Returned (YoutubeInfoApi.mkReply c (YoutubeInfoApi.JsonMedia m)), tr') ->
     downloadOptions m <> [] /\
     ((exists videoId, downloadOptions m = [YoutubeInfoApi.watch_on_youtube videoId]) \/
      (exists videoData,
         downloadOptions m
           = YoutubeInfoApi.normalize (YoutubeInfoApi.downloadOptions_of videoData) /\
         YoutubeInfoApi.normalize (YoutubeInfoApi.downloadOptions_of videoData) <> []))) /\
  (forall url videoId data tr tr1,
     MirrorDraft.getYoutubeVideoId url = Some videoId ->
     Js.nonempty videoId = true ->
     MirrorDraft.mirror_loop W MirrorDraft.INV_MIRRORS videoId tr
       = (Returned (Some data), tr1) ->
     MirrorDraft.options data = [] ->
     MirrorDraft.fetchYouTubeInfo W url tr
       = (Thrown (Error "No downloadable streams (private/live?)"), tr1)).
Proof.
  split; [|split].
  - intros url p tr tr' m [H|H].
    + apply mirror_fetchMediaInfo_returns in H. apply H.
    + apply probe_fetchMediaInfo_returns in H. apply H.
  - intros req tr tr' c m H. split.
    + apply api_handler_returns in H. apply H.
    + eapply api_handler_options. exact H.
  - intros. eapply mirror_youtube_no_stream; eassumption.
Qed.

Lemma C2_options_never_empty_witness :
  (exists m tr',
     MirrorDraft.fetchMediaInfo Scenario.mirrors_up Scenario.watch Scenario.youtube []
       = (Returned m, tr') /\
     downloadOptions m <> []) /\
  (exists m tr',
     YoutubeInfoApi.handler Scenario.nothing_usable Scenario.get_watch []
       = (Returned (YoutubeInfoApi.mkReply 200 (YoutubeInfoApi.JsonMedia m)), tr') /\
     downloadOptions m <> []) /\
  MirrorDraft.fetchYouTubeInfo Scenario.nothing_usable Scenario.watch []
    = (Thrown (Error "No downloadable streams (private/live?)"),
       attempts (mirror_request "abc12345678") ["https://invidious.snopyta.org"]).
Proof.
  split; [|split].
  - destruct (MirrorDraft.fetchMediaInfo Scenario.mirrors_up Scenario.watch
                Scenario.youtube []) as [[m|e] tr'] eqn:E.
    + exists m, tr'. split; [reflexivity|].
      exact (proj1 (C2_options_never_empty Scenario.mirrors_up)
                   Scenario.watch Scenario.youtube [] tr' m (or_introl E)).
    + vm_compute in E. discriminate E.
  - assert (E : exists m tr',
               YoutubeInfoApi.handler Scenario.nothing_usable Scenario.get_watch []
               = (Returned (YoutubeInfoApi.mkReply 200 (YoutubeInfoApi.JsonMedia m)), tr'))
      by (eexists; eexists; vm_compute; reflexivity).
    destruct E as (m & tr' & E). exists m, tr'. split; [exact E|].
    exact (proj1 (proj1 (proj2 (C2_options_never_empty Scenario.nothing_usable))
                        Scenario.get_watch [] tr' 200%Z m E)).
  - apply (proj2 (proj2 (C2_options_never_empty Scenario.nothing_usable))
                 Scenario.watch "abc12345678" Scenario.unusable []).
    + reflexivity.
    + reflexivity.
    + vm_compute. reflexivity.
    + reflexivity.
Defined.

(** C10. Every record [fetchMediaInfo url platform] returns carries the
    name of the platform it was dispatched on, in the draft with the
    mirror loop and in the draft that probes the mirrors. *)
Theorem C10_platform_stamp (W : World) (url : string) (p : Platform)
    (tr tr' : Trace) (m : MediaInfo) :
  MirrorDraft.fetchMediaInfo W url p tr = (Returned m, tr') \/
  ProbeDraft.fetchMediaInfo W url p tr = (Returned m, tr') ->
  platform m = name p.
Proof.
  intros [H|H].
  - apply mirror_fetchMediaInfo_returns in H. apply H.
  - apply probe_fetchMediaInfo_returns in H. apply H.
Qed.

Lemma C10_platform_stamp_witness :
  (exists m tr',
     MirrorDraft.fetchMediaInfo Scenario.mirrors_up Scenario.watch Scenario.youtube []
       = (Returned m, tr') /\
     platform m = YouTube) /\
  (exists m tr',
     ProbeDraft.fetchMediaInfo Scenario.mirrors_up Scenario.watch Scenario.youtube []
       = (Returned m, tr') /\
     platform m = YouTube).
Proof.
  split.
  - destruct (MirrorDraft.fetchMediaInfo Scenario.mirrors_up Scenario.watch
                Scenario.youtube []) as [[m|e] tr'] eqn:E.
    + exists m, tr'. split; [reflexivity|].
      exact (C10_platform_stamp Scenario.mirrors_up Scenario.watch Scenario.youtube
               [] tr' m (or_introl E)).
    + vm_compute in E. discriminate E.
  - destruct (ProbeDraft.fetchMediaInfo Scenario.mirrors_up Scenario.watch
                Scenario.youtube []) as [[m|e] tr'] eqn:E.
    + exists m, tr'. split; [reflexivity|].
      exact (C10_platform_stamp Scenario.mirrors_up Scenario.watch Scenario.youtube
               [] tr' m (or_intror E)).
    + vm_compute in E. discriminate E.
Defined.

(* ===================================================================== *)
(** * Iterating over the mirrors                                          *)
(* ===================================================================== *)

Section MirrorFacts.
Variable W : World.

Lemma all_fail_head {B : Type} (service : Service B) (fails : Fetched B -> bool)
    (rq : string -> Request) (tr : Trace) (base : string) (rest : list string) :
  all_fail service fails rq tr (base :: rest) ->
  fails (service (List.length tr) (rq base)) = true.
Proof. intros H. specialize (H 0%nat base eq_refl). now rewrite Nat.add_0_r in H. Qed.

Lemma all_fail_tail {B : Type} (service : Service B) (fails : Fetched B -> bool)
    (rq : string -> Request) (tr : Trace) (base : string) (rest : list string) :
  all_fail service fails rq tr (base :: rest) ->
  all_fail service fails rq (tr ++ [Fetch (rq base)])%list rest.
Proof.
  intros H j b Hj. specialize (H (S j) b Hj).
  rewrite length_app. simpl. now rewrite <- Nat.add_assoc.
Qed.

Lemma mirror_loop_next (videoId base : string) (rest : list string) (tr : Trace) :
  moves_on (invidious W (List.length tr) (mirror_request videoId base)) = true ->
  MirrorDraft.mirror_loop W (base :: rest) videoId tr
    = MirrorDraft.mirror_loop W rest videoId (tr ++ [Fetch (mirror_request videoId base)])%list.
Proof.
  intros Hf. simpl. unfold bind, try_catch, fetch. fold (mirror_request videoId base).
  destruct (invidious W (List.length tr) (mirror_request videoId base)) as [e|r];
    simpl in *; [reflexivity|].
  destruct (ok r); simpl in *; [|reflexivity].
  unfold json. destruct (body r); simpl in *; [reflexivity | discriminate].
Qed.

Lemma mirror_loop_stop (videoId base : string) (rest : list string) (tr : Trace)
    (d : InvVideo.t) :
  answers (invidious W (List.length tr) (mirror_request videoId base)) d ->
  MirrorDraft.mirror_loop W (base :: rest) videoId tr
    = (Returned (Some d), (tr ++ [Fetch (mirror_request videoId base)])%list).
Proof.
  intros (r & Hr & Hok & Hbody). simpl. unfold bind, try_catch, fetch.
  fold (mirror_request videoId base). rewrite Hr. simpl. rewrite Hok.
  unfold json. rewrite Hbody. reflexivity.
Qed.

Lemma mirror_loop_exhausted (videoId : string) (mirrors : list string) (tr : Trace) :
  all_fail (invidious W) moves_on (mirror_request videoId) tr mirrors ->
  MirrorDraft.mirror_loop W mirrors videoId tr
    = (Returned None, (tr ++ attempts (mirror_request videoId) mirrors)%list).
Proof.
  revert tr. induction mirrors as [|base rest IH]; intros tr Hall.
  - simpl. now rewrite app_nil_r.
  - rewrite mirror_loop_next by (eapply all_fail_head; exact Hall).
    rewrite IH by (eapply all_fail_tail; exact Hall).
    simpl. now rewrite <- app_assoc.
Qed.

Lemma mirror_loop_found (videoId : string) (before : list string) (base : string)
    (after : list string) (d : InvVideo.t) (tr : Trace) :
  all_fail (invidious W) moves_on (mirror_request videoId) tr before ->
  answers (invidious W (List.length tr + List.length before)
                     (mirror_request videoId base)) d ->
  MirrorDraft.mirror_loop W (before ++ base :: after) videoId tr
    = (Returned (Some d),
       (tr ++ attempts (mirror_request videoId) (before ++ [base]))%list).
Proof.
  revert tr. induction before as [|b rest IH]; intros tr Hall Hd.
  - simpl in *. rewrite Nat.add_0_r in Hd. now apply mirror_loop_stop.
  - change ((b :: rest) ++ base :: after)%list with (b :: (rest ++ base :: after))%list.
    rewrite mirror_loop_next by (eapply all_fail_head; exact Hall).
    rewrite IH.
    + simpl. now rewrite <- app_assoc.
    + eapply all_fail_tail; exact Hall.
    + rewrite length_app. simpl. rewrite <- Nat.add_assoc. exact Hd.
Qed.

Lemma mirror_youtube_exhausted (url videoId : string) (tr : Trace) :
  MirrorDraft.getYoutubeVideoId url = Some videoId ->
  Js.nonempty videoId = true ->
  all_fail (invidious W) moves_on (mirror_request videoId) tr MirrorDraft.INV_MIRRORS ->
  MirrorDraft.fetchYouTubeInfo W url tr
    = (Thrown (Error "All YouTube mirrors failed. Try again later."),
       (tr ++ attempts (mirror_request videoId) MirrorDraft.INV_MIRRORS)%list).
Proof.
  intros Hid Hne Hall. unfold MirrorDraft.fetchYouTubeInfo.
  rewrite Hid, Hne. unfold bind, throw_if, ret. cbn [negb].
  now rewrite (mirror_loop_exhausted videoId _ tr Hall).
Qed.

Lemma probe_loop_next (path base : string) (rest : list string) (tr : Trace) :
  probe_fails (invidious W (List.length tr) (probe_request path base)) = true ->
  ProbeDraft.probe_loop W (base :: rest) path tr
    = ProbeDraft.probe_loop W rest path (tr ++ [Fetch (probe_request path base)])%list.
Proof.
  intros Hf. simpl. unfold bind, try_catch, fetch. fold (probe_request path base).
  destruct (invidious W (List.length tr) (probe_request path base)) as [e|r];
    simpl in *; [reflexivity|].
  unfold ret. destruct (ok r); simpl in *; [discriminate | reflexivity].
Qed.

Lemma probe_loop_stop (path base : string) (rest : list string) (tr : Trace) :
  probe_fails (invidious W (List.length tr) (probe_request path base)) = false ->
  ProbeDraft.probe_loop W (base :: rest) path tr
    = (Returned (base ++ path), (tr ++ [Fetch (probe_request path base)])%list).
Proof.
  intros Hf. simpl. unfold bind, try_catch, fetch. fold (probe_request path base).
  destruct (invidious W (List.length tr) (probe_request path base)) as [e|r];
    simpl in *; [discriminate|].
  unfold ret. destruct (ok r); simpl in *; [reflexivity | discriminate].
Qed.

Lemma probe_loop_exhausted (path : string) (mirrors : list string) (tr : Trace) :
  all_fail (invidious W) probe_fails (probe_request path) tr mirrors ->
  ProbeDraft.probe_loop W mirrors path tr
    = (Thrown (Error "All Invidious mirrors are down"),
       (tr ++ attempts (probe_request path) mirrors)%list).
Proof.
  revert tr. induction mirrors as [|base rest IH]; intros tr Hall.
  - simpl. now rewrite app_nil_r.
  - rewrite probe_loop_next by (eapply all_fail_head; exact Hall).
    rewrite IH by (eapply all_fail_tail; exact Hall).
    simpl. now rewrite <- app_assoc.
Qed.

Lemma probe_loop_found (path : string) (before : list string) (base : string)
    (after : list string) (tr : Trace) :
  all_fail (invidious W) probe_fails (probe_request path) tr before ->
  probe_fails (invidious W (List.length tr + List.length before)
                         (probe_request path base)) = false ->
  ProbeDraft.probe_loop W (before ++ base :: after) path tr
    = (Returned (base ++ path),
       (tr ++ attempts (probe_request path) (before ++ [base]))%list).
Proof.
  revert tr. induction before as [|b rest IH]; intros tr Hall Hd.
  - simpl in *. rewrite Nat.add_0_r in Hd. now apply probe_loop_stop.
  - change ((b :: rest) ++ base :: after)%list with (b :: (rest ++ base :: after))%list.
    rewrite probe_loop_next by (eapply all_fail_head; exact Hall).
    rewrite IH.
    + simpl. now rewrite <- app_assoc.
    + eapply all_fail_tail; exact Hall.
    + rewrite length_app. simpl. rewrite <- Nat.add_assoc. exact Hd.
Qed.

End MirrorFacts.

(** C4, as the specification states it, fails on the draft that probes
    the mirrors.  Here only the first mirror answers, so [k = 1].
    [getInvidiousUrl] returns the address it probed, not the response to
    the probe; the resolver then requests that address a second time,
    without a time-out, and builds its record from the second response:
    two requests are made, and the title returned is not the one the
    probe was answered with. *)
Lemma C4_counterexample_probe_then_get :
  let W := Scenario.youtube_only Scenario.first_mirror_only Scenario.down in
  let path := "/api/v1/videos/abc12345678" in
  let address := "https://invidious.io.lol" ++ path in
  answers (invidious W 0 (probe_request path "https://invidious.io.lol"))
          Scenario.probe_doc /\
  Forall (fun base => forall i,
            probe_fails (invidious W i (probe_request path base)) = true)
         (tl ProbeDraft.INV_MIRRORS) /\
  ProbeDraft.getInvidiousUrl W path []
    = (Returned address, [Fetch (HEAD_within 5000 address)]) /\
  exists m tr,
    ProbeDraft.fetchYouTubeInfo W Scenario.watch [] = (Returned m, tr) /\
    tr = [Fetch (HEAD_within 5000 address); Fetch (GET address)] /\
    List.length tr <> 1%nat /\
    title m = Some "Sample" /\
    title m <> InvVideo.title Scenario.probe_doc.
Proof.
  split; [eexists; repeat split|]. split; [repeat constructor|].
  split; [reflexivity|].
  eexists. eexists. split; [vm_compute; reflexivity|].
  repeat split; discriminate.
Qed.

(** C4 (amended). Both loops try the mirrors in list order, once each and
    with a time-out (8000 ms for the in-line loop, 5000 ms for the
    probe), and stop at the first success.  If the first [k - 1] mirrors
    fail and the [k]-th succeeds, exactly [k] requests are made; the
    in-line loop yields the document of the [k]-th response, and
    [getInvidiousUrl] yields the address of the [k]-th mirror, which its
    caller then requests once more.  If all [N] mirrors fail, exactly
    [N] requests are made and the result is the error
    ["All YouTube mirrors failed. Try again later."], respectively
    ["All Invidious mirrors are down"]. *)
Theorem C4_mirrors_tried_in_order (W : World) :
  (forall videoId before base after d tr,
     all_fail (invidious W) moves_on (mirror_request videoId) tr before ->
     answers (invidious W (List.length tr + List.length before)
                        (mirror_request videoId base)) d ->
     MirrorDraft.mirror_loop W (before ++ base :: after) videoId tr
       = (Returned (Some d),
          (tr ++ attempts (mirror_request videoId) (before ++ [base]))%list)) /\
  (forall videoId mirrors tr,
     all_fail (invidious W) moves_on (mirror_request videoId) tr mirrors ->
     MirrorDraft.mirror_loop W mirrors videoId tr
       = (Returned None, (tr ++ attempts (mirror_request videoId) mirrors)%list)) /\
  (forall url videoId tr,
     MirrorDraft.getYoutubeVideoId url = Some videoId ->
     Js.nonempty videoId = true ->
     all_fail (invidious W) moves_on (mirror_request videoId) tr MirrorDraft.INV_MIRRORS ->
     MirrorDraft.fetchYouTubeInfo W url tr
       = (Thrown (Error "All YouTube mirrors failed. Try again later."),
          (tr ++ attempts (mirror_request videoId) MirrorDraft.INV_MIRRORS)%list)) /\
  (forall path before base after tr,
     all_fail (invidious W) probe_fails (probe_request path) tr before ->
     probe_fails (invidious W (List.length tr + List.length before)
                            (probe_request path base)) = false ->
     ProbeDraft.probe_loop W (before ++ base :: after) path tr
       = (Returned (base ++ path),
          (tr ++ attempts (probe_request path) (before ++ [base]))%list)) /\
  (forall path mirrors tr,
     all_fail (invidious W) probe_fails (probe_request path) tr mirrors ->
     ProbeDraft.probe_loop W mirrors path tr
       = (Thrown (Error "All Invidious mirrors are down"),
          (tr ++ attempts (probe_request path) mirrors)%list)).
Proof.
  repeat split; intros.
  - now apply mirror_loop_found.
  - now apply mirror_loop_exhausted.
  - now apply mirror_youtube_exhausted.
  - now apply probe_loop_found.
  - now apply probe_loop_exhausted.
Qed.

Lemma C4_mirrors_tried_in_order_witness :
  let lucky := Scenario.youtube_only Scenario.third_time_lucky Scenario.down in
  let id := "abc12345678" in
  let path := "/api/v1/videos/abc12345678" in
  MirrorDraft.mirror_loop lucky MirrorDraft.INV_MIRRORS id []
    = (Returned (Some Scenario.sample),
       attempts (mirror_request id)
                ["https://invidious.snopyta.org"; "https://y.com.sb";
                 "https://inv.riverside.rocks"]) /\
  MirrorDraft.fetchYouTubeInfo Scenario.offline Scenario.watch []
    = (Thrown (Error "All YouTube mirrors failed. Try again later."),
       attempts (mirror_request id) MirrorDraft.INV_MIRRORS) /\
  ProbeDraft.probe_loop lucky ProbeDraft.INV_MIRRORS path []
    = (Returned ("https://y.com.sb" ++ path),
       attempts (probe_request path)
                ["https://invidious.io.lol"; "https://invidious.snopyta.org";
                 "https://y.com.sb"]) /\
  ProbeDraft.probe_loop Scenario.offline ProbeDraft.INV_MIRRORS path []
    = (Thrown (Error "All Invidious mirrors are down"),
       attempts (probe_request path) ProbeDraft.INV_MIRRORS).
Proof.
  intros lucky id path.
  destruct (C4_mirrors_tried_in_order lucky) as (Hfound & _ & _ & Hprobe & _).
  destruct (C4_mirrors_tried_in_order Scenario.offline)
    as (_ & _ & Hnone & _ & Hdown).
  split; [|split; [|split]].
  - apply (Hfound id ["https://invidious.snopyta.org"; "https://y.com.sb"]
                  "https://inv.riverside.rocks"
                  ["https://invidious.fdn.fr"; "https://invidious.tiekoetter.com"]
                  Scenario.sample []).
    + intros j base. destruct j as [|[|j]]; simpl.
      * intros [= <-]. reflexivity.
      * intros [= <-]. reflexivity.
      * destruct j; discriminate.
    + eexists. split; [reflexivity|]. split; reflexivity.
  - apply (Hnone Scenario.watch id []); [reflexivity | reflexivity |].
    intros j base _. reflexivity.
  - apply (Hprobe path ["https://invidious.io.lol"; "https://invidious.snopyta.org"]
                  "https://y.com.sb"
                  ["https://inv.riverside.rocks"; "https://invidious.fdn.fr"] []).
    + intros j base. destruct j as [|[|j]]; simpl.
      * intros [= <-]. reflexivity.
      * intros [= <-]. reflexivity.
      * destruct j; discriminate.
    + reflexivity.
  - apply (Hdown path ProbeDraft.INV_MIRRORS []).
    intros j base _. reflexivity.
Defined.

(* ===================================================================== *)
(** * The best audio stream                                               *)
(* ===================================================================== *)

Example best_audio_tie :
  MirrorDraft.bestAudio Scenario.sample = Some Scenario.audio_high.
Proof. reflexivity. Qed.




(* ===================================================================== *)
(** * De-duplication                                                      *)
(* ===================================================================== *)

(** What [uniqueOptions] keeps, for every input: an option is kept exactly
    when no later option has its label, and the labels kept are
    distinct. *)
Lemma uniqueOptions_keeps_last (l : list DownloadOption) :
  NoDup (map quality (Backend.uniqueOptions l)) /\
  forall o,
    In o (Backend.uniqueOptions l) <->
    exists before after,
      l = (before ++ o :: after)%list /\
      Forall (fun x => quality x <> quality o) after.
Proof.
  split; [apply last_per_label_nodup | apply last_per_label_spec].
Qed.

(** C5. The code at the failing input: of two muxed formats with the same
    resolution the backend keeps the second, in the place of the first,
    where the claim (and the comment in the code) keep the first.  The
    serverless function removes duplicates the same way. *)
Theorem C5_uniqueOptions_keeps_later_duplicate :
  let formats := [Scenario.itag22; Scenario.itag18; Scenario.itag136] in
  let pushed := Backend.downloadOptions_of Scenario.all_muxed formats in
  pushed = [Backend.muxed_option Scenario.itag22;
            Backend.muxed_option Scenario.itag18;
            Backend.muxed_option Scenario.itag136] /\
  Backend.uniqueOptions pushed
    = [Backend.muxed_option Scenario.itag136; Backend.muxed_option Scenario.itag18] /\
  YoutubeInfoApi.uniqueOptions pushed
    = [Backend.muxed_option Scenario.itag136; Backend.muxed_option Scenario.itag18] /\
  Backend.muxed_option Scenario.itag22 <> Backend.muxed_option Scenario.itag136.
Proof. repeat split. discriminate. Qed.

Lemma by_score_total (x y : DownloadOption) :
  (Backend.by_score x y > 0)%Z -> (Backend.by_score y x <= 0)%Z.
Proof. unfold Backend.by_score. lia. Qed.

Lemma api_by_score_total (x y : DownloadOption) :
  (YoutubeInfoApi.by_score x y > 0)%Z -> (YoutubeInfoApi.by_score y x <= 0)%Z.
Proof. unfold YoutubeInfoApi.by_score. lia. Qed.

(** C6. Removing duplicates and ranking, applied to its own result, gives
    that result again, in the backend and in the serverless function. *)
Theorem C6_normalize_idempotent (l : list DownloadOption) :
  Backend.normalize (Backend.normalize l) = Backend.normalize l /\
  YoutubeInfoApi.normalize (YoutubeInfoApi.normalize l) = YoutubeInfoApi.normalize l.
Proof.
  split.
  - apply (dedupe_sort_idempotent Backend.by_score l by_score_total).
  - apply (dedupe_sort_idempotent YoutubeInfoApi.by_score l api_by_score_total).
Qed.

(* ===================================================================== *)
(** * Ranking                                                             *)
(* ===================================================================== *)

Lemma indexOf_from_bounds (l : list string) (x : string) (i : Z) :
  JsArray.indexOf_from i l x = (-1)%Z \/
  (i <= JsArray.indexOf_from i l x < i + Z.of_nat (List.length l))%Z.
Proof.
  revert i. induction l as [|y t IH]; intros i; simpl; [now left|].
  destruct (String.eqb y x).
  - right. lia.
  - destruct (IH (i + 1)%Z) as [H|H]; [now left | right; lia].
Qed.

Lemma rank_known (o : DownloadOption) :
  known o = true -> (0 <= ProbeDraft.rank (quality o) < 9)%Z.
Proof.
  unfold known, ProbeDraft.rank, JsArray.indexOf.
  pose proof (indexOf_from_bounds ProbeDraft.qualityOrder (quality o) 0) as H.
  change (Z.of_nat (List.length ProbeDraft.qualityOrder)) with 9%Z in H.
  set (idx := JsArray.indexOf_from 0 ProbeDraft.qualityOrder (quality o)) in *.
  destruct (Z.eqb_spec idx (-1)) as [E|E]; [discriminate|].
  intros _. lia.
Qed.

Lemma rank_unknown (o : DownloadOption) :
  unknown o = true -> ProbeDraft.rank (quality o) = 999%Z.
Proof.
  unfold unknown, known, ProbeDraft.rank. rewrite negb_involutive.
  intros H. now rewrite H.
Qed.

Lemma filter_none {A : Type} (p : A -> bool) (l : list A) :
  Forall (fun x => p x = false) l -> filter p l = [].
Proof.
  induction 1 as [|x l Hx Hl IH]; simpl; [reflexivity|]. now rewrite Hx.
Qed.

Lemma filter_all {A : Type} (p : A -> bool) (l : list A) :
  Forall (fun x => p x = true) l -> filter p l = l.
Proof.
  induction 1 as [|x l Hx Hl IH]; simpl; [reflexivity|]. now rewrite Hx, IH.
Qed.

(** In a sorted list, elements that may never follow the others come
    first. *)
Lemma sorted_partition {A : Type} (R : A -> A -> Prop) (p : A -> bool) (l : list A) :
  StronglySorted R l ->
  (forall a b, p a = false -> p b = true -> ~ R a b) ->
  l = (filter p l ++ filter (fun x => negb (p x)) l)%list.
Proof.
  intros Hs Hp. induction Hs as [|a l Hs IH Ha]; simpl; [reflexivity|].
  destruct (p a) eqn:Pa; simpl.
  - now rewrite <- IH.
  - assert (Hl : Forall (fun x => p x = false) l).
    { eapply Forall_impl; [|exact Ha]. simpl. intros b Hab.
      destruct (p b) eqn:Pb; [|reflexivity]. exfalso. now apply (Hp a b). }
    rewrite (filter_none p l Hl). simpl. f_equal. symmetry. apply filter_all.
    eapply Forall_impl; [|exact Hl]. simpl. now intros b ->.
Qed.

(** What the draft that probes the mirrors does, for every list of
    options: the ranked list has the same options, in the order of the
    rank table, the options with a label outside the table last and in
    the order they came in. *)
Lemma probe_ranking_contract (l : list DownloadOption) :
  let ranked := JsArray.sort ProbeDraft.by_rank l in
  Permutation ranked l /\
  StronglySorted (fun a b => (ProbeDraft.rank (quality a) <= ProbeDraft.rank (quality b))%Z)
                 ranked /\
  ranked = (filter known ranked ++ filter unknown l)%list.
Proof.
  intros ranked.
  assert (Hsorted : StronglySorted
            (fun a b => (ProbeDraft.rank (quality a) <= ProbeDraft.rank (quality b))%Z)
            ranked).
  { apply Sorted_StronglySorted.
    - intros a b c Hab Hbc. lia.
    - eapply Sorted_ind with (P := fun l => Sorted _ l);
        [constructor | | apply (sort_sorted ProbeDraft.by_rank)].
      + intros a l' _ IH Hd. constructor; [exact IH|].
        destruct Hd as [|b l'' Hab]; constructor.
        unfold JsArray.in_order, ProbeDraft.by_rank in Hab. lia.
      + intros x y. unfold ProbeDraft.by_rank. lia. }
  split; [apply sort_perm|]. split; [exact Hsorted|].
  rewrite <- (sort_stable ProbeDraft.by_rank unknown l).
  - apply (sorted_partition _ known ranked Hsorted).
    intros a b Ha Hb Hab.
    assert (Hu : unknown a = true) by (unfold unknown; now rewrite Ha).
    apply rank_unknown in Hu. apply rank_known in Hb. lia.
  - intros a b Ha Hb. unfold JsArray.in_order, ProbeDraft.by_rank.
    rewrite (rank_unknown a Ha), (rank_unknown b Hb). lia.
Qed.

(** What the draft with the mirror loop does, for every list of options:
    the options with a label outside the table come first, in the order
    they came in, and the options of the table follow. *)
Lemma mirror_ranking_unknown_first (l : list DownloadOption) :
  let ranked := JsArray.sort MirrorDraft.by_order l in
  ranked = (filter unknown l ++ filter known ranked)%list.
Proof.
  intros ranked.
  pose (index := fun o => JsArray.indexOf MirrorDraft.order (quality o)).
  assert (Hindex : forall o, known o = negb (index o =? -1)%Z) by reflexivity.
  assert (Hsorted : StronglySorted (fun a b => (index a <= index b)%Z) ranked).
  { apply Sorted_StronglySorted.
    - intros a b c Hab Hbc. lia.
    - eapply Sorted_ind with (P := fun l => Sorted _ l);
        [constructor | | apply (sort_sorted MirrorDraft.by_order)].
      + intros a l' _ IH Hd. constructor; [exact IH|].
        destruct Hd as [|b l'' Hab]; constructor.
        unfold JsArray.in_order, MirrorDraft.by_order in Hab. unfold index. lia.
      + intros x y. unfold MirrorDraft.by_order. lia. }
  rewrite <- (sort_stable MirrorDraft.by_order unknown l).
  - fold ranked.
    rewrite (filter_ext known (fun o => negb (unknown o)))
      by (intros o; unfold unknown; now rewrite negb_involutive).
    apply (sorted_partition _ unknown ranked Hsorted).
    intros a b Ha Hb Hab. unfold unknown in Ha, Hb.
    rewrite Hindex in Ha, Hb. rewrite negb_involutive in Ha, Hb.
    apply Z.eqb_eq in Hb. apply Z.eqb_neq in Ha.
    destruct (indexOf_from_bounds MirrorDraft.order (quality a) 0) as [H|H];
      unfold index, JsArray.indexOf in *; lia.
  - intros a b Ha Hb. unfold JsArray.in_order, MirrorDraft.by_order.
    unfold unknown in Ha, Hb. rewrite Hindex in Ha, Hb.
    rewrite negb_involutive in Ha, Hb.
    apply Z.eqb_eq in Ha. apply Z.eqb_eq in Hb. unfold index in Ha, Hb. lia.
Qed.

(** C3. The code at the failing input: a mirror lists a ["720p"] stream,
    a ["1080p60"] stream and audio.  The draft with the mirror loop
    ranks ["1080p60"], a label outside the table, in front of the labels
    of the table, because [indexOf] gives it the index [-1]; the draft
    that probes the mirrors ranks it last. *)
Theorem C3_mirror_draft_unknown_label_first :
  (exists m tr,
     MirrorDraft.fetchYouTubeInfo Scenario.mirrors_up Scenario.watch [] = (Returned m, tr) /\
     map quality (downloadOptions m) = ["1080p60"; "720p"; "audio"] /\
     map known (downloadOptions m) = [false; true; true]) /\
  (exists m tr,
     ProbeDraft.fetchYouTubeInfo Scenario.mirrors_up Scenario.watch [] = (Returned m, tr) /\
     map quality (downloadOptions m) = ["720p"; "audio"; "1080p60"]).
Proof.
  split; eexists; eexists; (split; [vm_compute; reflexivity|]); repeat split.
Qed.

(* ===================================================================== *)
(** * Sizes                                                               *)
(* ===================================================================== *)











(* ===================================================================== *)
(** * Further scenarios                                                   *)
(* ===================================================================== *)

(** The resolvers extract the video id of the specification's example. *)
Example video_id_of_watch_address :
  MirrorDraft.getYoutubeVideoId Scenario.watch = Some "abc12345678" /\
  ProbeDraft.getYoutubeVideoId Scenario.watch = Some "abc12345678" /\
  MirrorDraft.getYoutubeVideoId "https://youtu.be/abc12345678" = Some "abc12345678".
Proof. repeat split. Qed.

(** The backend has no guard against an empty list of options: for a video
    without formats it sends a record that has none. *)
Example backend_sends_no_option :
  exists m,
    Backend.mediaInfo_of Scenario.offline Scenario.all_muxed Scenario.no_format = inr m /\
    downloadOptions m = [].
Proof. eexists. split; [vm_compute; reflexivity | reflexivity]. Qed.
(* ===================================================================== *)
(** * Facts about strings and patterns                                    *)
(* ===================================================================== *)

Lemma append_assoc (a b c : string) : (a ++ b) ++ c = a ++ (b ++ c).
Proof. induction a; simpl; congruence. Qed.

Lemma suffix_of_refl (s : string) : suffix_of s s.
Proof. now exists "". Qed.

Lemma suffix_of_trans (a b c : string) : suffix_of a b -> suffix_of b c -> suffix_of a c.
Proof.
  intros [w1 H1] [w2 H2]. exists (w2 ++ w1). subst. symmetry. apply append_assoc.
Qed.

Lemma prefix_append (h b : string) : String.prefix h (h ++ b) = true.
Proof.
  induction h as [|c h IH]; simpl.
  - now destruct b.
  - destruct (ascii_dec c c); [exact IH | congruence].
Qed.

Lemma includes_suffix (s t h : string) :
  suffix_of t s -> Js.includes t h = true -> Js.includes s h = true.
Proof.
  intros [w ->] H. induction w as [|c w IH]; [exact H|].
  simpl. rewrite IH. apply orb_true_r.
Qed.

Lemma includes_prefix (h b : string) : Js.includes (h ++ b) h = true.
Proof.
  pose proof (prefix_append h b) as H.
  destruct (h ++ b); cbn [Js.includes]; now rewrite H.
Qed.

Lemma suffixes_suffix (s u : string) : In u (Regex.suffixes s) -> suffix_of u s.
Proof.
  induction s as [|c s IH]; simpl.
  - intros [<-|[]]. apply suffix_of_refl.
  - intros [<-|H]; [apply suffix_of_refl|].
    apply suffix_of_trans with s; [now apply IH | now exists (String c "")].
Qed.

Lemma star_from_suffix (step : string -> list string) (greedy : bool) :
  (forall s t, In t (step s) -> suffix_of t s) ->
  forall fuel s t, In t (Regex.star_from step greedy fuel s) -> suffix_of t s.
Proof.
  intros Hstep. induction fuel as [|f IH]; intros s t; simpl.
  - intros [<-|[]]. apply suffix_of_refl.
  - assert (Hmore : In t (flat_map (Regex.star_from step greedy f)
                      (filter (fun u => (String.length u <? String.length s)%nat) (step s)))
                    -> suffix_of t s).
    { intros H. apply in_flat_map in H as (u & Hu & Ht).
      apply filter_In in Hu as [Hu _].
      apply suffix_of_trans with u; [now apply IH | now apply Hstep]. }
    destruct greedy.
    + intros H. apply in_app_or in H as [H|[<-|[]]]; [now apply Hmore | apply suffix_of_refl].
    + intros [<-|H]; [apply suffix_of_refl | now apply Hmore].
Qed.

(** What a pattern leaves is the end of what it was given. *)
Lemma rmatch_suffix (r : Regex.pattern) (s t : string) :
  In t (Regex.rmatch r s) -> suffix_of t s.
Proof.
  revert s t. induction r as [p| |a IHa b IHb|a IHa b IHb|g a IHa]; intros s t; simpl.
  - destruct s as [|c s]; [intros []|]. destruct (p c); [|intros []].
    intros [<-|[]]. now exists (String c "").
  - intros [<-|[]]. apply suffix_of_refl.
  - intros H. apply in_flat_map in H as (u & Hu & Ht).
    apply suffix_of_trans with u; [now apply IHb | now apply IHa].
  - intros H. apply in_app_or in H as [H|H]; [now apply IHa | now apply IHb].
  - apply star_from_suffix. exact IHa.
Qed.

Lemma rmatch_seq (a b : Regex.pattern) (s t : string) :
  In t (Regex.rmatch (Regex.Seq a b) s) ->
  exists u, In u (Regex.rmatch a s) /\ In t (Regex.rmatch b u).
Proof. simpl. intros H. now apply in_flat_map in H. Qed.

Lemma rmatch_chr (c : ascii) (s t : string) :
  In t (Regex.rmatch (Regex.chr c) s) -> s = String c t.
Proof.
  simpl. destruct s as [|c' s]; [intros []|].
  destruct (Ascii.eqb_spec c c') as [<-|]; [|intros []].
  now intros [<-|[]].
Qed.

(** A literal matches its own text only. *)
Lemma rmatch_lit (w s t : string) : In t (Regex.rmatch (Regex.lit w) s) -> s = w ++ t.
Proof.
  revert s t. induction w as [|c w IH]; intros s t H.
  - simpl in H. now destruct H as [<-|[]].
  - destruct w as [|c' w'].
    + now apply rmatch_chr in H.
    + change (Regex.lit (String c (String c' w')))
        with (Regex.Seq (Regex.chr c) (Regex.lit (String c' w'))) in H.
      apply rmatch_seq in H as (u & Hu & Ht).
      apply rmatch_chr in Hu. apply IH in Ht. now subst.
Qed.

Lemma test_true (r : Regex.pattern) (s : string) :
  Regex.test r s = true ->
  exists u t, suffix_of u s /\ In t (Regex.rmatch r u).
Proof.
  unfold Regex.test. intros H. apply existsb_exists in H as (u & Hu & Hm).
  destruct (Regex.rmatch r u) as [|t l] eqn:E; [discriminate|].
  exists u, t. split; [now apply suffixes_suffix | rewrite E; now left].
Qed.

(** A pattern made of the optional scheme and [www.], then a host text,
    then anything, is only found in a string that contains the host text. *)
Lemma headed_test (host : string) (tail : Regex.pattern) (s : string) :
  Regex.test (Regex.Seq Regex.scheme_www (Regex.Seq (Regex.lit host) tail)) s = true ->
  Js.includes s host = true.
Proof.
  intros H. apply test_true in H as (u & t & Hu & Ht).
  apply rmatch_seq in Ht as (v & Hv & Ht).
  apply rmatch_seq in Ht as (x & Hx & _).
  apply rmatch_suffix in Hv. apply rmatch_lit in Hx. subst v.
  apply includes_suffix with (t := host ++ x); [|apply includes_prefix].
  now apply suffix_of_trans with u.
Qed.

(** The same with two host texts to choose from, and a slash after them. *)
Lemma headed_test2 (h1 h2 : string) (tail : Regex.pattern) (s : string) :
  Regex.test (Regex.Seq Regex.scheme_www
                (Regex.Seq (Regex.Alt (Regex.lit h1) (Regex.lit h2))
                           (Regex.Seq (Regex.chr "/") tail))) s = true ->
  Js.includes s (h1 ++ "/") = true \/ Js.includes s (h2 ++ "/") = true.
Proof.
  intros H. apply test_true in H as (u & t & Hu & Ht).
  apply rmatch_seq in Ht as (v & Hv & Ht).
  apply rmatch_seq in Ht as (x & Hx & Ht).
  apply rmatch_seq in Ht as (y & Hy & _).
  apply rmatch_suffix in Hv. apply rmatch_chr in Hy. subst x.
  assert (Hs : suffix_of v s) by now apply suffix_of_trans with u.
  simpl in Hx. apply in_app_or in Hx as [Hx|Hx]; apply rmatch_lit in Hx; subst v;
    [left | right].
  - apply includes_suffix with (t := (h1 ++ "/") ++ y); [|apply includes_prefix].
    now rewrite append_assoc.
  - apply includes_suffix with (t := (h2 ++ "/") ++ y); [|apply includes_prefix].
    now rewrite append_assoc.
Qed.

(** X1. Detection is sound: when [getPlatform] returns a platform, the
    URL contains a host text of that platform, [youtube.com/] or
    [youtu.be/] for YouTube, [twitter.com/] or [x.com/] for Twitter, and
    so on. *)
Theorem X1_detected_host_in_url (url : string) (p : Platform) :
  Detector.getPlatform url = Some p ->
  exists h, In h (hosts (name p)) /\ Js.includes url h = true.
Proof.
  intros H. apply getPlatform_loop_some in H as (b & a & Htable & Htest & _).
  assert (Hin : In p (Detector.Object_values Detector.PLATFORMS)).
  { rewrite Htable. apply in_or_app. right. now left. }
  simpl in Hin.
  destruct Hin as [<-|[<-|[<-|[<-|[<-|[<-|[<-|[]]]]]]]]; cbn [name regex hosts] in *.
  - apply headed_test2 in Htest as [Hh|Hh]; eexists; (split; [|exact Hh]); simpl; auto.
  - apply headed_test in Htest. eexists; split; [|exact Htest]. simpl; auto.
  - apply headed_test in Htest. eexists; split; [|exact Htest]. simpl; auto.
  - apply headed_test2 in Htest as [Hh|Hh]; eexists; (split; [|exact Hh]); simpl; auto.
  - apply headed_test in Htest. eexists; split; [|exact Htest]. simpl; auto.
  - apply headed_test in Htest. eexists; split; [|exact Htest]. simpl; auto.
  - apply headed_test in Htest. eexists; split; [|exact Htest]. simpl; auto.
Qed.

Lemma X1_detected_host_in_url_witness :
  exists h, In h (hosts Twitter) /\
            Js.includes "https://x.com/rocq/status/1234567890" h = true.
Proof.
  apply (X1_detected_host_in_url "https://x.com/rocq/status/1234567890"
           (mkPlatform Twitter "#1DA1F2" "TwitterIcon" Detector.twitter_regex)).
  vm_compute. reflexivity.
Defined.

(* ===================================================================== *)
(** * The video id                                                        *)
(* ===================================================================== *)

Lemma first_some_found {A B : Type} (f : A -> option B) (l : list A) (y : B) :
  Regex.first_some f l = Some y -> exists x, In x l /\ f x = Some y.
Proof.
  induction l as [|x l IH]; simpl; [discriminate|].
  destruct (f x) as [y'|] eqn:E.
  - intros [= <-]. exists x. auto.
  - intros H. apply IH in H as (x' & Hin & Hx'). exists x'. auto.
Qed.

Lemma take_class_shape (cls : ascii -> bool) (n : nat) (s id : string) :
  Regex.take_class cls n s = Some id ->
  String.length id = n /\ all_chars cls id = true /\ exists rest, s = id ++ rest.
Proof.
  revert s id. induction n as [|n IH]; intros s id; simpl.
  - intros [= <-]. repeat split. now exists s.
  - destruct s as [|c s]; [discriminate|]. destruct (cls c) eqn:Ec; [|discriminate].
    destruct (Regex.take_class cls n s) as [id'|] eqn:E; [|discriminate].
    intros [= <-]. apply IH in E as (Hlen & Hall & rest & ->).
    simpl. rewrite Ec, Hall, Hlen. repeat split. now exists rest.
Qed.

(** The text of the capture group has the length and the characters the
    group asks for, and is a part of the string searched. *)
Lemma match_group1_shape (prefix : Regex.pattern) (cls : ascii -> bool) (n : nat)
    (s id : string) :
  Regex.match_group1 prefix cls n s = Some id ->
  String.length id = n /\ all_chars cls id = true /\ Js.includes s id = true.
Proof.
  unfold Regex.match_group1. intros H.
  apply first_some_found in H as (start & Hstart & H).
  apply first_some_found in H as (u & Hu & H).
  apply take_class_shape in H as (Hlen & Hall & rest & ->).
  repeat split; trivial.
  apply includes_suffix with (t := id ++ rest); [|apply includes_prefix].
  apply suffix_of_trans with start; [now apply rmatch_suffix in Hu | now apply suffixes_suffix].
Qed.

(** X2. Whichever draft extracts it, the video id of a YouTube address
    has exactly eleven characters, each a letter, a digit, an underscore
    or a hyphen, and is a piece of the address itself. *)
Theorem X2_video_id_shape (url id : string) :
  MirrorDraft.getYoutubeVideoId url = Some id \/
  ProbeDraft.getYoutubeVideoId url = Some id \/
  Regex.match_group1 YoutubeInfoApi.id_prefix Regex.is_word_dash 11 url = Some id \/
  Regex.match_group1 FallbackDraft.id_prefix Regex.is_word_dash 11 url = Some id ->
  String.length id = 11%nat /\
  all_chars Regex.is_word_dash id = true /\
  Js.includes url id = true.
Proof.
  intros [H|[H|[H|H]]].
  - unfold MirrorDraft.getYoutubeVideoId in H.
    apply first_some_found in H as (p & _ & H). now apply match_group1_shape in H.
  - now apply match_group1_shape in H.
  - now apply match_group1_shape in H.
  - now apply match_group1_shape in H.
Qed.

Lemma X2_video_id_shape_witness :
  String.length "dQw4w9WgXcQ" = 11%nat /\
  all_chars Regex.is_word_dash "dQw4w9WgXcQ" = true /\
  Js.includes "https://youtu.be/dQw4w9WgXcQ?t=42" "dQw4w9WgXcQ" = true.
Proof.
  apply (X2_video_id_shape "https://youtu.be/dQw4w9WgXcQ?t=42" "dQw4w9WgXcQ").
  left. vm_compute. reflexivity.
Defined.

(* ===================================================================== *)
(** * The summary and the state of the page                               *)
(* ===================================================================== *)

(** X3. [generateSummary] never throws.  Without an API key it returns
    [null] and calls nothing; with one it makes exactly one call, to the
    model [gemini-2.5-flash] with the prompt built from the title and the
    description, and returns a text, the stock apology if the call fails
    or its response has no text. *)
Theorem X3_generateSummary_never_throws (W : World) (title description : option string)
    (tr : Trace) :
  exists summary,
    Gemini.generateSummary W title description tr
      = (Returned summary,
         if Js.truthy_str (API_KEY W)
         then (tr ++ [GenerateContent "gemini-2.5-flash" (Gemini.prompt title description)])%list
         else tr) /\
    (summary = None <-> Js.truthy_str (API_KEY W) = false).
Proof.
  unfold Gemini.generateSummary, try_catch, bind, Gemini.call_model.
  destruct (Js.truthy_str (API_KEY W)); simpl.
  - destruct (generateContent W (List.length tr) _ _) as [e|[t|]];
      eexists; (split; [reflexivity|]); split; discriminate.
  - exists None. repeat split.
Qed.

(** X4. [handleFetch] on a URL that is not empty always ends with the
    loading flag cleared and the URL untouched, and in one of two states:
    a record is shown and no error, the record being the one the resolver
    returned for the detected platform; or an error is shown and neither
    a record nor a summary. *)
Theorem X4_handleFetch_settles (W : World)
    (fetchMediaInfo : string -> Platform -> M MediaInfo)
    (s : App.State) (tr : Trace) :
  App.url s <> "" ->
  let s' := fst (App.handleFetch W fetchMediaInfo s tr) in
  App.url s' = App.url s /\
  App.isLoading s' = false /\
  ((App.error s' = None /\
    exists p m tr1,
      Detector.getPlatform (App.url s) = Some p /\
      fetchMediaInfo (App.url s) p tr = (Returned m, tr1) /\
      App.mediaInfo s' = Some m) \/
   (App.error s' <> None /\ App.mediaInfo s' = None /\ App.aiSummary s' = None)).
Proof.
  intros Hurl. unfold App.handleFetch.
  destruct (App.url s) as [|c u] eqn:Eu; [congruence|]. cbn [Js.nonempty negb].
  destruct (Detector.getPlatform (String c u)) as [p|].
  - destruct (fetchMediaInfo (String c u) p tr) as [[m|e] tr1] eqn:Ef.
    + destruct (Gemini.generateSummary W (title m) (description m) tr1) as [[a|e] tr2] eqn:Eg.
      * simpl. rewrite Eu. repeat split. left. split; [reflexivity|].
        exists p, m, tr1. auto.
      * exfalso. revert Eg.
        unfold Gemini.generateSummary, try_catch, bind, Gemini.call_model.
        destruct (Js.truthy_str (API_KEY W)); simpl; [|discriminate].
        destruct (generateContent W _ _ _) as [e'|[t|]]; discriminate.
    + simpl. rewrite Eu. repeat split. right. repeat split. discriminate.
  - simpl. rewrite Eu. repeat split. right. repeat split. discriminate.
Qed.

Lemma X4_handleFetch_settles_witness :
  let s' := fst (App.handleFetch Scenario.mirrors_up
                   (MirrorDraft.fetchMediaInfo Scenario.mirrors_up)
                   (App.mkState Scenario.watch false (Some "old") None (Some "old")) []) in
  App.isLoading s' = false /\ App.error s' = None /\
  option_map platform (App.mediaInfo s') = Some YouTube.
Proof.
  intros s'.
  destruct (X4_handleFetch_settles Scenario.mirrors_up
              (MirrorDraft.fetchMediaInfo Scenario.mirrors_up)
              (App.mkState Scenario.watch false (Some "old") None (Some "old")) [])
    as (_ & Hloading & _).
  - discriminate.
  - split; [exact Hloading|]. vm_compute. split; reflexivity.
Defined.

(* ===================================================================== *)
(** * What a resolver throws and asks                                     *)
(* ===================================================================== *)

(** X5. A platform without a resolver is refused before anything is
    asked of the network: LinkedIn in the draft with the mirror loop and
    in the draft with the local backend; Instagram, Facebook, LinkedIn
    and Pinterest in the draft that probes the mirrors, whose message
    gets through the [catch] because it contains [coming soon];
    Facebook, Pinterest and LinkedIn in the draft with the serverless
    function. *)
Theorem X5_no_resolver_no_request (W : World) (backend : Service FallbackDraft.BackendDoc)
    (hostname : option string) (saveig : Service SaveIgReply.t)
    (url : string) (p : Platform) (tr : Trace) :
  (name p = LinkedIn ->
   MirrorDraft.fetchMediaInfo W url p tr
     = (Thrown (Error "LinkedIn not supported (no public API)"), tr) /\
   FallbackDraft.fetchMediaInfo W backend url p tr
     = (Thrown (Error "LinkedIn not supported (no public API)"), tr)) /\
  (coming_later (name p) = true ->
   ProbeDraft.fetchMediaInfo W url p tr
     = (Thrown (Error ("Support for " ++ name_string (name p) ++ " is coming soon!")), tr)) /\
  match name p with
  | Facebook =>
      ApiDraft.fetchMediaInfo W hostname backend saveig url p tr
        = (Thrown (Error "Facebook downloads are currently unavailable. Most videos are private or require authentication."), tr)
  | Pinterest =>
      ApiDraft.fetchMediaInfo W hostname backend saveig url p tr
        = (Thrown (Error "Pinterest downloads are currently unavailable."), tr)
  | LinkedIn =>
      ApiDraft.fetchMediaInfo W hostname backend saveig url p tr
        = (Thrown (Error "LinkedIn downloads are not supported (no public API available)"), tr)
  | _ => True
  end.
Proof.
  split; [|split].
  - intros Hp. unfold MirrorDraft.fetchMediaInfo, FallbackDraft.fetchMediaInfo.
    rewrite Hp. split; reflexivity.
  - intros Hp. unfold ProbeDraft.fetchMediaInfo.
    destruct (name p); try discriminate Hp; reflexivity.
  - unfold ApiDraft.fetchMediaInfo. destruct (name p); trivial.
Qed.

(** X6. The draft that probes the mirrors hides the cause of a failure:
    whatever its resolver throws, [fetchMediaInfo] throws an [Error]
    whose message is [Failed to fetch <platform> media], unless the
    message of the cause contains [coming soon]. *)
Theorem X6_probe_draft_masks_cause (W : World) (url : string) (p : Platform)
    (tr tr' : Trace) (e : JsError) :
  ProbeDraft.fetchMediaInfo W url p tr = (Thrown e, tr') ->
  e = Error ("Failed to fetch " ++ name_string (name p) ++ " media") \/
  (e = Error (message e) /\ Js.includes (message e) "coming soon" = true).
Proof.
  unfold ProbeDraft.fetchMediaInfo, try_catch.
  match goal with |- context [match ?run tr with _ => _ end] => destruct (run tr) as [[m|e0] t] end;
    [discriminate|].
  unfold throw. destruct (Js.includes (message e0) "coming soon") eqn:E; intros [= <- _].
  - right. split; [reflexivity | exact E].
  - now left.
Qed.

Lemma X6_probe_draft_masks_cause_witness :
  fst (ProbeDraft.fetchTikTokInfo Scenario.offline "https://www.tiktok.com/@u/video/1" [])
    = Thrown Scenario.failed_to_fetch /\
  (Error "Failed to fetch TikTok media" = Error ("Failed to fetch " ++ name_string TikTok ++ " media") \/
   (Error "Failed to fetch TikTok media" = Error (message (Error "Failed to fetch TikTok media")) /\
    Js.includes (message (Error "Failed to fetch TikTok media")) "coming soon" = true)).
Proof.
  split; [reflexivity|].
  apply (X6_probe_draft_masks_cause Scenario.offline "https://www.tiktok.com/@u/video/1"
           (mkPlatform TikTok "#000000" "TikTokIcon" Detector.tiktok_regex)
           [] [Fetch (GET "https://www.tikwm.com/api/?url=https%3A%2F%2Fwww.tiktok.com%2F%40u%2Fvideo%2F1&hd=1")]).
  vm_compute. reflexivity.
Defined.

(** X7. Whatever goes wrong in a resolver, the four drafts of
    [fetchMediaInfo] throw a plain [Error] whose message is not empty, so
    [handleFetch] always has a text to show. *)
Theorem X7_thrown_message_not_empty (W : World) (backend : Service FallbackDraft.BackendDoc)
    (hostname : option string) (saveig : Service SaveIgReply.t)
    (url : string) (p : Platform) (tr tr' : Trace) (e : JsError) :
  MirrorDraft.fetchMediaInfo W url p tr = (Thrown e, tr') \/
  ProbeDraft.fetchMediaInfo W url p tr = (Thrown e, tr') \/
  FallbackDraft.fetchMediaInfo W backend url p tr = (Thrown e, tr') \/
  ApiDraft.fetchMediaInfo W hostname backend saveig url p tr = (Thrown e, tr') ->
  error_name e = "Error" /\ Js.nonempty (message e) = true.
Proof.
  intros [H|[H|[H|H]]]; revert H.
  - unfold MirrorDraft.fetchMediaInfo, try_catch.
    match goal with |- context [match ?run tr with _ => _ end] => destruct (run tr) as [[m|e0] t] end;
      [discriminate|].
    unfold throw. intros [= <- _]. split; [reflexivity|]. simpl.
    destruct (message e0); reflexivity.
  - unfold ProbeDraft.fetchMediaInfo, try_catch.
    match goal with |- context [match ?run tr with _ => _ end] => destruct (run tr) as [[m|e0] t] end;
      [discriminate|].
    unfold throw. intros [= <- _]. split; [reflexivity|]. simpl.
    destruct (Js.includes (message e0) "coming soon") eqn:E; [|reflexivity].
    destruct (message e0); [discriminate E | reflexivity].
  - unfold FallbackDraft.fetchMediaInfo, try_catch.
    match goal with |- context [match ?run tr with _ => _ end] => destruct (run tr) as [[m|e0] t] end;
      [discriminate|].
    unfold throw. intros [= <- _]. split; [reflexivity|]. simpl.
    destruct (message e0); reflexivity.
  - unfold ApiDraft.fetchMediaInfo, try_catch.
    match goal with |- context [match ?run tr with _ => _ end] => destruct (run tr) as [[m|e0] t] end;
      [discriminate|].
    unfold throw. intros [= <- _]. split; [reflexivity|]. simpl.
    destruct (message e0); reflexivity.
Qed.

Lemma X7_thrown_message_not_empty_witness :
  error_name (Error "All YouTube mirrors failed. Try again later.") = "Error" /\
  Js.nonempty (message (Error "All YouTube mirrors failed. Try again later.")) = true.
Proof.
  apply (X7_thrown_message_not_empty Scenario.offline Scenario.down None Scenario.down
           Scenario.watch Scenario.youtube []
           (attempts (mirror_request "abc12345678") MirrorDraft.INV_MIRRORS)).
  left. vm_compute. reflexivity.
Defined.

(** Takes a run apart, whatever the services answer. *)
Ltac run_cases :=
  repeat
    match goal with
    | |- context [match ?x with _ => _ end] =>
        match type of x with
        | Fetched _ => destruct x
        | sum _ _ => destruct x
        | option _ => destruct x
        | bool => destruct x
        | list _ => destruct x
        end
    end.

(** X8. The resolvers with a single upstream service make exactly one
    request per resolution, whatever the outcome: a [GET] to the address
    built from the URL, without time-out in the drafts with the mirrors,
    with one in the draft with the serverless function. *)
Theorem X8_single_request_resolvers (W : World) (hostname : option string)
    (youtube_api : Service FallbackDraft.BackendDoc) (url : string) (tr : Trace) :
  let asked (api : string) := (tr ++ [Fetch (GET api)])%list in
  let enc := JsText.encodeURIComponent url in
  snd (MirrorDraft.fetchTikTokInfo W url tr)
    = asked ("https://www.tikwm.com/api/?url=" ++ enc ++ "&hd=1") /\
  snd (MirrorDraft.fetchTwitterInfo W url tr)
    = asked (JsText.replace_at_start MirrorDraft.twitter_host "https://api.vxtwitter.com" url) /\
  snd (MirrorDraft.fetchInstagramInfo W url tr)
    = asked ("https://ddinstagram.com/api/?url=" ++ enc) /\
  snd (MirrorDraft.fetchFacebookInfo W url tr)
    = asked ("https://fbdownloader.org/api/?url=" ++ enc) /\
  snd (MirrorDraft.fetchPinterestInfo W url tr)
    = asked ("https://pinloader.net/api/?url=" ++ enc) /\
  snd (ProbeDraft.fetchTikTokInfo W url tr)
    = asked ("https://www.tikwm.com/api/?url=" ++ enc ++ "&hd=1") /\
  snd (ProbeDraft.fetchTwitterInfo W url tr)
    = asked (JsText.replace_at_start (ProbeDraft.host_pattern "x.com") "https://api.vxtwitter.com"
               (JsText.replace_at_start (ProbeDraft.host_pattern "twitter.com")
                  "https://api.vxtwitter.com" url)) /\
  snd (ApiDraft.fetchYouTubeInfo hostname youtube_api url tr)
    = (tr ++ [Fetch (GET_json_within 15000
                       (ApiDraft.API_BASE_URL hostname ++ "/api/youtube-info?url=" ++ enc))])%list /\
  snd (ApiDraft.fetchTikTokInfo W url tr)
    = (tr ++ [Fetch (GET_within 10000
                       ("https://www.tikwm.com/api/?url=" ++ enc ++ "&hd=1"))])%list /\
  snd (ApiDraft.fetchTwitterInfo W url tr)
    = (tr ++ [Fetch (GET_within 8000
                       (JsText.replace_at_start MirrorDraft.twitter_host
                          "https://api.vxtwitter.com" url))])%list.
Proof.
  intros asked enc. subst asked enc.
  repeat split.
  - unfold MirrorDraft.fetchTikTokInfo, clock, bind, fetch, json, lift, throw_if, throw, ret.
    run_cases; reflexivity.
  - unfold MirrorDraft.fetchTwitterInfo, clock, bind, fetch, json, lift, throw_if, throw, ret.
    run_cases; reflexivity.
  - unfold MirrorDraft.fetchInstagramInfo, clock, bind, fetch, json, lift, throw_if, throw, ret.
    run_cases; reflexivity.
  - unfold MirrorDraft.fetchFacebookInfo, clock, bind, fetch, json, lift, throw_if, throw, ret.
    run_cases; reflexivity.
  - unfold MirrorDraft.fetchPinterestInfo, clock, bind, fetch, json, lift, throw_if, throw, ret.
    run_cases; reflexivity.
  - unfold ProbeDraft.fetchTikTokInfo, ProbeDraft.TIKTOK_API, clock, bind, fetch, json, lift,
      throw_if, throw, ret.
    run_cases; reflexivity.
  - unfold ProbeDraft.fetchTwitterInfo, clock, bind, fetch, json, lift, throw_if, throw, ret.
    run_cases; reflexivity.
  - unfold ApiDraft.fetchYouTubeInfo, ApiDraft.youtube_request, try_catch, bind, fetch, json,
      throw, ret.
    run_cases; reflexivity.
  - unfold ApiDraft.fetchTikTokInfo, ApiDraft.tiktok_request, try_catch, clock, bind, fetch,
      json, lift, throw_if, throw, ret.
    run_cases; reflexivity.
  - unfold ApiDraft.fetchTwitterInfo, ApiDraft.twitter_request, try_catch, clock, bind, fetch,
      json, lift, throw_if, throw, ret.
    run_cases; reflexivity.
Qed.

(* ===================================================================== *)
(** * The mirror loops, whatever the mirrors answer                       *)
(* ===================================================================== *)

Lemma moves_on_or_answers {B : Type} (f : Fetched B) :
  moves_on f = true \/ exists b, answers f b.
Proof.
  destruct f as [e|r]; [now left|]. simpl.
  destruct (ok r) eqn:Hok; [|now left].
  destruct (body r) as [e|b] eqn:Hbody; [now left|].
  right. exists b, r. auto.
Qed.

Lemma id_nonempty (id : string) : String.length id = 11%nat -> Js.nonempty id = true.
Proof. destruct id; [discriminate | reflexivity]. Qed.

Section LoopFacts.
Variable W : World.

(** The mirror loop never throws, and asks a front part of its list. *)
Lemma mirror_loop_run (videoId : string) (mirrors : list string) (tr : Trace) :
  exists k found,
    MirrorDraft.mirror_loop W mirrors videoId tr
      = (Returned found, (tr ++ attempts (mirror_request videoId) (firstn k mirrors))%list) /\
    (k <= List.length mirrors)%nat /\
    (found = None -> k = List.length mirrors) /\
    (k = 0%nat -> mirrors = []).
Proof.
  revert tr. induction mirrors as [|base rest IH]; intros tr.
  - exists 0%nat, None. simpl. rewrite app_nil_r. repeat split; auto.
  - destruct (moves_on_or_answers (invidious W (List.length tr) (mirror_request videoId base)))
      as [Hnext|[d Hd]].
    + rewrite (mirror_loop_next W videoId base rest tr Hnext).
      destruct (IH (tr ++ [Fetch (mirror_request videoId base)])%list)
        as (k & found & Hrun & Hk & Hnone & _).
      exists (S k), found. rewrite Hrun. simpl. rewrite <- app_assoc.
      repeat split; [lia | intros H; now rewrite Hnone | discriminate].
    + rewrite (mirror_loop_stop W videoId base rest tr d Hd).
      exists 1%nat, (Some d). simpl. repeat split; [lia | discriminate | discriminate].
Qed.

(** [getInvidiousUrl] probes a front part of its list, and returns the
    address of the last mirror probed or throws at the end of the list. *)
Lemma probe_loop_run (path : string) (mirrors : list string) (tr : Trace) :
  exists k r,
    ProbeDraft.probe_loop W mirrors path tr
      = (r, (tr ++ attempts (probe_request path) (firstn k mirrors))%list) /\
    (k <= List.length mirrors)%nat /\
    match r with
    | Returned address =>
        exists base, nth_error mirrors (k - 1) = Some base /\ address = base ++ path /\
                     (1 <= k)%nat
    | Thrown e => k = List.length mirrors /\ e = Error "All Invidious mirrors are down"
    end.
Proof.
  revert tr. induction mirrors as [|base rest IH]; intros tr.
  - exists 0%nat, (Thrown (Error "All Invidious mirrors are down")).
    simpl. rewrite app_nil_r. repeat split. lia.
  - destruct (probe_fails (invidious W (List.length tr) (probe_request path base))) eqn:Ef.
    + rewrite (probe_loop_next W path base rest tr Ef).
      destruct (IH (tr ++ [Fetch (probe_request path base)])%list) as (k & r & Hrun & Hk & Hr).
      exists (S k), r. rewrite Hrun. simpl firstn. simpl attempts. rewrite <- app_assoc.
      repeat split; [simpl; lia|].
      destruct r as [address|e].
      * destruct Hr as (b & Hb & -> & Hk1). exists b. repeat split; [|lia].
        destruct k as [|k]; [lia|]. simpl in *. now rewrite Nat.sub_0_r in *.
      * destruct Hr as [-> ->]. split; reflexivity.
    + rewrite (probe_loop_stop W path base rest tr Ef).
      exists 1%nat, (Returned (base ++ path)). simpl. repeat split; [lia|].
      exists base. repeat split. lia.
Qed.

End LoopFacts.

(** X9. The requests of the two YouTube resolvers that go through the
    mirrors, whatever the mirrors answer and whether the resolution
    succeeds or not.  Both refuse an address without a video id with no
    request.  Otherwise the draft with the mirror loop asks exactly the
    first [k] mirrors, in the order of the list and with the time-out of
    8000 ms, for some [k] between 1 and 5; the draft that probes the
    mirrors probes the first [k] mirrors, and then either gives up, all
    five probes made, or requests the document once, from the mirror
    probed last. *)
Theorem X9_youtube_requests (W : World) (url : string) (tr : Trace) :
  match MirrorDraft.getYoutubeVideoId url with
  | None =>
      MirrorDraft.fetchYouTubeInfo W url tr = (Thrown (Error "Invalid YouTube URL"), tr)
  | Some videoId =>
      exists k, (1 <= k <= 5)%nat /\
        snd (MirrorDraft.fetchYouTubeInfo W url tr)
          = (tr ++ attempts (mirror_request videoId) (firstn k MirrorDraft.INV_MIRRORS))%list
  end /\
  match ProbeDraft.getYoutubeVideoId url with
  | None =>
      ProbeDraft.fetchYouTubeInfo W url tr = (Thrown (Error "Invalid YouTube URL"), tr)
  | Some videoId =>
      let path := "/api/v1/videos/" ++ videoId in
      let run := ProbeDraft.fetchYouTubeInfo W url tr in
      exists k, (1 <= k <= 5)%nat /\
        let probes := attempts (probe_request path) (firstn k ProbeDraft.INV_MIRRORS) in
        (run = (Thrown (Error "All Invidious mirrors are down"), (tr ++ probes)%list) /\
         k = 5%nat) \/
        (exists base,
           nth_error ProbeDraft.INV_MIRRORS (k - 1) = Some base /\
           snd run = (tr ++ probes ++ [Fetch (GET (base ++ path))])%list)
  end.
Proof.
  split.
  - unfold MirrorDraft.fetchYouTubeInfo.
    destruct (MirrorDraft.getYoutubeVideoId url) as [videoId|] eqn:Hid; [|reflexivity].
    assert (Hne : Js.nonempty videoId = true).
    { unfold MirrorDraft.getYoutubeVideoId in Hid.
      apply first_some_found in Hid as (p & _ & Hid).
      apply match_group1_shape in Hid as (Hlen & _). now apply id_nonempty. }
    rewrite Hne.
    destruct (mirror_loop_run W videoId MirrorDraft.INV_MIRRORS tr)
      as (k & found & Hrun & Hk & _ & Hzero).
    exists k. split.
    + split; [|exact Hk]. destruct k; [now specialize (Hzero eq_refl) | lia].
    + unfold bind at 1. cbn [negb throw_if ret]. unfold bind at 1. rewrite Hrun.
      destruct found as [data|]; [|reflexivity].
      unfold clock, bind, lift, throw_if, throw, ret. run_cases; reflexivity.
  - unfold ProbeDraft.fetchYouTubeInfo.
    destruct (ProbeDraft.getYoutubeVideoId url) as [videoId|] eqn:Hid; [|reflexivity].
    assert (Hne : Js.nonempty videoId = true).
    { apply match_group1_shape in Hid as (Hlen & _). now apply id_nonempty. }
    rewrite Hne. cbv zeta. set (path := "/api/v1/videos/" ++ videoId).
    destruct (probe_loop_run W path ProbeDraft.INV_MIRRORS tr) as (k & r & Hrun & Hk & Hr).
    exists k. unfold ProbeDraft.getInvidiousUrl, bind.
    cbn [negb throw_if ret]. rewrite Hrun.
    destruct r as [address|e].
    + destruct Hr as (base & Hbase & -> & Hk1). split; [split; [exact Hk1 | exact Hk]|].
      right. exists base. split; [exact Hbase|].
      rewrite app_assoc.
      unfold clock, bind, fetch, json, lift, throw_if, throw, ret. run_cases; reflexivity.
    + destruct Hr as [-> ->]. split; [simpl; lia|]. left. split; reflexivity.
Qed.

(* ===================================================================== *)
(** * The serverless function, whatever the services answer               *)
(* ===================================================================== *)

Section ApiFacts.
Variable W : World.

(** The loop over the instances never throws, and asks a front part of
    its list. *)
Lemma api_instance_loop_run (videoId : string) (instances : list string) (tr : Trace) :
  exists k found,
    YoutubeInfoApi.instance_loop W instances videoId tr
      = (Returned found, (tr ++ attempts (api_request videoId) (firstn k instances))%list) /\
    (k <= List.length instances)%nat /\
    (found = None -> k = List.length instances) /\
    (forall data, found = Some data ->
                  exists f fs, InvVideo.formatStreams data = Some (f :: fs)).
Proof.
  revert tr. induction instances as [|instance rest IH]; intros tr.
  - exists 0%nat, None. simpl. rewrite app_nil_r. repeat split; auto. discriminate.
  - destruct (IH (tr ++ [Fetch (api_request videoId instance)])%list)
      as (k & found & Hrun & Hk & Hnone & Hsome).
    assert (Hgo : exists k' found',
              YoutubeInfoApi.instance_loop W rest videoId
                (tr ++ [Fetch (api_request videoId instance)])%list
              = (Returned found',
                 (tr ++ attempts (api_request videoId) (firstn k' (instance :: rest)))%list) /\
              (k' <= List.length (instance :: rest))%nat /\
              (found' = None -> k' = List.length (instance :: rest)) /\
              (forall data, found' = Some data ->
                            exists f fs, InvVideo.formatStreams data = Some (f :: fs))).
    { exists (S k), found. rewrite Hrun. simpl. rewrite <- app_assoc.
      repeat split; [lia | intros H; now rewrite Hnone | exact Hsome]. }
    clear IH Hrun Hk Hnone Hsome.
    cbn [YoutubeInfoApi.instance_loop]. unfold bind, try_catch, fetch, json, ret.
    fold (api_request videoId instance).
    destruct (invidious W (List.length tr) (api_request videoId instance)) as [e|r];
      [exact Hgo|].
    destruct (ok r); cbn [negb]; [|exact Hgo].
    destruct (body r) as [e|data]; [exact Hgo|].
    destruct (InvVideo.formatStreams data) as [[|f fs]|] eqn:Ef; [exact Hgo | | exact Hgo].
    exists 1%nat, (Some data). simpl. repeat split; [lia | discriminate |].
    intros d [= <-]. now exists f, fs.
Qed.

(** A run of the [try] block of the function. *)
Lemma api_resolve_run (url : string) (tr : Trace) :
  match Regex.match_group1 YoutubeInfoApi.id_prefix Regex.is_word_dash 11 url with
  | None =>
      YoutubeInfoApi.resolve W url tr
        = (Returned (YoutubeInfoApi.mkReply 400
                       (YoutubeInfoApi.JsonError "Could not extract video ID")), tr)
  | Some videoId =>
      exists k, (k <= 4)%nat /\
        snd (YoutubeInfoApi.resolve W url tr)
          = (tr ++ Fetch (oembed_request videoId)
                :: attempts (api_request videoId)
                            (firstn k YoutubeInfoApi.invidiousInstances))%list /\
        match fst (YoutubeInfoApi.resolve W url tr) with
        | Returned reply =>
            YoutubeInfoApi.code reply = 200%Z /\
            exists m,
              YoutubeInfoApi.payload reply = YoutubeInfoApi.JsonMedia m /\
              platform m = YouTube /\
              source_url m = Some ("https://www.youtube.com/watch?v=" ++ videoId) /\
              thumbnail m
                = Some ("https://img.youtube.com/vi/" ++ videoId ++ "/maxresdefault.jpg") /\
              (downloadOptions m = [YoutubeInfoApi.watch_on_youtube videoId] \/
               exists videoData l,
                 InvVideo.formatStreams videoData = Some l /\ l <> [] /\
                 downloadOptions m
                   = YoutubeInfoApi.normalize (YoutubeInfoApi.downloadOptions_of videoData))
        | Thrown _ => True
        end
  end.
Proof.
  destruct (Regex.match_group1 YoutubeInfoApi.id_prefix Regex.is_word_dash 11 url)
    as [videoId|] eqn:Hid.
  - unfold YoutubeInfoApi.resolve. rewrite Hid.
    destruct (api_instance_loop_run videoId YoutubeInfoApi.invidiousInstances
                (tr ++ [Fetch (oembed_request videoId)])%list)
      as (k & found & Hrun & Hk & _ & Hsome).
    unfold bind, fetch, throw_if, json, throw, ret. fold (oembed_request videoId).
    destruct (youtube_oembed W (List.length tr) (oembed_request videoId)) as [e|r];
      [exists 0%nat; repeat split; first [lia | reflexivity]|].
    destruct (ok r); cbn [negb]; [|exists 0%nat; repeat split; first [lia | reflexivity]].
    destruct (body r) as [e|oembedData]; [exists 0%nat; repeat split; first [lia | reflexivity]|].
    rewrite Hrun. exists k. rewrite <- app_assoc. split; [exact Hk|].
    destruct found as [videoData|].
    + destruct (Hsome videoData eq_refl) as (f & fs & Hfs).
      unfold clock, bind, lift, throw, ret.
      destruct (InvVideo.lengthSeconds videoData) as [secs|];
        [destruct (secs =? 0)%Z; [|destruct (toISOString W (secs * 1000))]|];
        (split; [reflexivity|]); cbn [fst]; trivial;
        (split; [reflexivity|]); eexists; (split; [reflexivity|]);
        repeat split; cbn [downloadOptions];
        (match goal with |- context [(0 <? ?n)%nat] => destruct (0 <? n)%nat end;
         [right; exists videoData, (f :: fs); repeat split; [exact Hfs | discriminate]
         | now left]).
    + split; [reflexivity|]. cbn. split; [reflexivity|].
      eexists. split; [reflexivity|]. cbn. repeat split. now left.
  - unfold YoutubeInfoApi.resolve. now rewrite Hid.
Qed.

(** A run of the function: it answers at once, or looks the video up. *)
Lemma api_handler_run (req : YoutubeInfoApi.VercelRequest) (tr : Trace) :
  exists reply tr',
    YoutubeInfoApi.handler W req tr = (Returned reply, tr') /\
    ((tr' = tr /\
      ((reply = YoutubeInfoApi.mkReply 200 YoutubeInfoApi.End_ /\
        YoutubeInfoApi.method req = "OPTIONS") \/
       exists msg, reply = YoutubeInfoApi.mkReply 400 (YoutubeInfoApi.JsonError msg))) \/
     exists url videoId k,
       YoutubeInfoApi.query_url req = Some (YoutubeInfoApi.QString url) /\
       Regex.test Detector.youtube_regex url = true /\
       Regex.match_group1 YoutubeInfoApi.id_prefix Regex.is_word_dash 11 url = Some videoId /\
       (k <= 4)%nat /\
       tr' = (tr ++ Fetch (oembed_request videoId)
                 :: attempts (api_request videoId)
                             (firstn k YoutubeInfoApi.invidiousInstances))%list /\
       ((exists msg, reply = YoutubeInfoApi.mkReply 500 (YoutubeInfoApi.JsonError msg)) \/
        (YoutubeInfoApi.code reply = 200%Z /\
         exists m,
           YoutubeInfoApi.payload reply = YoutubeInfoApi.JsonMedia m /\
           platform m = YouTube /\
           source_url m = Some ("https://www.youtube.com/watch?v=" ++ videoId) /\
           thumbnail m
             = Some ("https://img.youtube.com/vi/" ++ videoId ++ "/maxresdefault.jpg") /\
           (downloadOptions m = [YoutubeInfoApi.watch_on_youtube videoId] \/
            exists videoData l,
              InvVideo.formatStreams videoData = Some l /\ l <> [] /\
              downloadOptions m
                = YoutubeInfoApi.normalize (YoutubeInfoApi.downloadOptions_of videoData))))).
Proof.
  unfold YoutubeInfoApi.handler.
  destruct (String.eqb_spec (YoutubeInfoApi.method req) "OPTIONS") as [Hm|Hm].
  { eexists. eexists. split; [reflexivity|]. left. split; [reflexivity|]. left. now split. }
  destruct (YoutubeInfoApi.query_url req) as [[url|l]|] eqn:Hq;
    try (eexists; eexists; split; [reflexivity|]; left; split; [reflexivity|];
         right; eexists; reflexivity).
  destruct (Js.nonempty url); cbn [negb];
    [|eexists; eexists; split; [reflexivity|]; left; split; [reflexivity|];
      right; eexists; reflexivity].
  unfold YoutubeInfoApi.youtubeRegex.
  destruct (Regex.test Detector.youtube_regex url) eqn:Ht; cbn [negb];
    [|eexists; eexists; split; [reflexivity|]; left; split; [reflexivity|];
      right; eexists; reflexivity].
  pose proof (api_resolve_run url tr) as Hrun. unfold try_catch.
  destruct (Regex.match_group1 YoutubeInfoApi.id_prefix Regex.is_word_dash 11 url)
    as [videoId|] eqn:Hid.
  - destruct Hrun as (k & Hk & Htr & Hreply).
    destruct (YoutubeInfoApi.resolve W url tr) as [[reply|e] tr'].
    + exists reply, tr'. split; [reflexivity|]. right. exists url, videoId, k.
      simpl in Htr, Hreply. repeat split; trivial. now right.
    + eexists. exists tr'. split; [reflexivity|]. right. exists url, videoId, k.
      simpl in Htr. repeat split; trivial. left. eexists. reflexivity.
  - rewrite Hrun. eexists. eexists. split; [reflexivity|]. left. split; [reflexivity|].
    right. eexists. reflexivity.
Qed.

End ApiFacts.

(** X10. The serverless function never throws: it always completes the
    response.  A reply without a body has the status 200 and answers an
    [OPTIONS] request; an error document has the status 400 or 500; a
    record has the status 200.  The replies to [OPTIONS] and the replies
    400 are sent without any request to the network.  Every other reply
    is sent after the video was looked up: the address passed the test
    of the YouTube pattern and holds a video id, the first request went
    to the oEmbed end point of YouTube for that id and the following
    ones to the first [k] Invidious instances, in the order of the list
    and with the time-out of 5000 ms, for some [k] of at most 4. *)
Theorem X10_handler_always_answers (W : World) (req : YoutubeInfoApi.VercelRequest)
    (tr : Trace) :
  exists reply tr',
    YoutubeInfoApi.handler W req tr = (Returned reply, tr') /\
    let looked_up :=
      exists url videoId k,
        YoutubeInfoApi.query_url req = Some (YoutubeInfoApi.QString url) /\
        Regex.test Detector.youtube_regex url = true /\
        Regex.match_group1 YoutubeInfoApi.id_prefix Regex.is_word_dash 11 url = Some videoId /\
        (k <= 4)%nat /\
        tr' = (tr ++ Fetch (oembed_request videoId)
                  :: attempts (api_request videoId)
                              (firstn k YoutubeInfoApi.invidiousInstances))%list in
    match YoutubeInfoApi.payload reply with
    | YoutubeInfoApi.End_ =>
        YoutubeInfoApi.code reply = 200%Z /\ YoutubeInfoApi.method req = "OPTIONS" /\ tr' = tr
    | YoutubeInfoApi.JsonError _ =>
        (YoutubeInfoApi.code reply = 400%Z /\ tr' = tr) \/
        (YoutubeInfoApi.code reply = 500%Z /\ looked_up)
    | YoutubeInfoApi.JsonMedia _ => YoutubeInfoApi.code reply = 200%Z /\ looked_up
    end.
Proof.
  destruct (api_handler_run W req tr) as (reply & tr' & Hrun & Hcases).
  exists reply, tr'. split; [exact Hrun|]. cbv zeta.
  destruct Hcases
    as [[-> [[-> Hm]|[msg ->]]]|(url & videoId & k & Hq & Ht & Hid & Hk & -> & Hreply)].
  - simpl. auto.
  - simpl. left. auto.
  - destruct Hreply as [[msg ->]|(Hcode & m & Hm & _)].
    + simpl. right. split; [reflexivity|]. exists url, videoId, k. auto.
    + rewrite Hm. split; [exact Hcode|]. exists url, videoId, k. auto.
Qed.



(* ===================================================================== *)
(** * The options of a record, ranked                                     *)
(* ===================================================================== *)

Section SortedByKey.
Context {A : Type}.
Variable compareFn : A -> A -> Z.
Variable key : A -> Z.
Hypothesis compare_key : forall a b, compareFn a b = (key b - key a)%Z.

(** Sorting by a numeric key, largest first, leaves no element in front
    of one with a larger key. *)
Lemma sort_descending (l : list A) :
  StronglySorted (fun a b => (key b <= key a)%Z) (JsArray.sort compareFn l).
Proof.
  apply Sorted_StronglySorted.
  - intros a b c Hab Hbc. lia.
  - eapply Sorted_ind with (P := fun l => Sorted _ l);
      [constructor | | apply (sort_sorted compareFn)].
    + intros a l' _ IH Hd. constructor; [exact IH|].
      destruct Hd as [|b l'' Hab]; constructor.
      unfold JsArray.in_order in Hab. rewrite compare_key in Hab. lia.
    + intros x y. rewrite !compare_key. lia.
Qed.

End SortedByKey.






(** X13. The YouTube resolver of the draft that probes the mirrors
    returns its options in the order of the rank table: no option stands
    in front of one of a better rank, and the options whose label is not
    in the table come after all the others. *)
Theorem X13_probe_draft_ranked (W : World) (url : string) (tr tr' : Trace) (m : MediaInfo) :
  ProbeDraft.fetchYouTubeInfo W url tr = (Returned m, tr') ->
  StronglySorted (fun a b => (ProbeDraft.rank (quality a) <= ProbeDraft.rank (quality b))%Z)
                 (downloadOptions m) /\
  downloadOptions m
    = (filter known (downloadOptions m) ++ filter unknown (downloadOptions m))%list.
Proof.
  unfold ProbeDraft.fetchYouTubeInfo.
  destruct (ProbeDraft.getYoutubeVideoId url) as [videoId|]; [|discriminate].
  intros H. returned H. cbn [downloadOptions].
  match goal with |- context [ProbeDraft.options ?d] =>
    destruct (probe_ranking_contract (ProbeDraft.options d)) as (_ & Hsorted & _)
  end.
  split; [exact Hsorted|].
  apply (sorted_partition _ known _ Hsorted).
  intros a b Ha Hb Hab.
  assert (Hu : unknown a = true) by (unfold unknown; now rewrite Ha).
  apply rank_unknown in Hu. apply rank_known in Hb. lia.
Qed.

Lemma X13_probe_draft_ranked_witness :
  exists m,
    fst (ProbeDraft.fetchYouTubeInfo Scenario.mirrors_up Scenario.watch []) = Returned m /\
    map quality (downloadOptions m) = ["720p"; "audio"; "1080p60"] /\
    downloadOptions m
      = (filter known (downloadOptions m) ++ filter unknown (downloadOptions m))%list.
Proof.
  eexists. split; [vm_compute; reflexivity|]. split; [reflexivity|].
  match goal with |- downloadOptions ?m = _ =>
    apply (X13_probe_draft_ranked Scenario.mirrors_up Scenario.watch []
             (snd (ProbeDraft.fetchYouTubeInfo Scenario.mirrors_up Scenario.watch [])) m)
  end.
  vm_compute. reflexivity.
Defined.

(** X14. The YouTube resolver of the draft with the mirror loop returns
    the options whose label is not in its table first, in the order they
    were extracted, and the options of the table after them, in the
    order of the table. *)
Theorem X14_mirror_draft_ranked (W : World) (url : string) (tr tr' : Trace) (m : MediaInfo) :
  MirrorDraft.fetchYouTubeInfo W url tr = (Returned m, tr') ->
  exists data,
    Permutation (downloadOptions m) (MirrorDraft.options data) /\
    downloadOptions m
      = (filter unknown (MirrorDraft.options data) ++ filter known (downloadOptions m))%list /\
    StronglySorted
      (fun a b => (JsArray.indexOf MirrorDraft.order (quality a)
                   <= JsArray.indexOf MirrorDraft.order (quality b))%Z)
      (downloadOptions m).
Proof.
  unfold MirrorDraft.fetchYouTubeInfo.
  destruct (MirrorDraft.getYoutubeVideoId url) as [videoId|]; [|discriminate].
  intros H. returned H. destruct x0 as [data|]; [|discriminate].
  returned H. cbn [downloadOptions]. exists data.
  split; [apply sort_perm|]. split; [apply mirror_ranking_unknown_first|].
  pose proof (sort_descending MirrorDraft.by_order
                (fun o => (- JsArray.indexOf MirrorDraft.order (quality o))%Z)) as Hs.
  eapply StronglySorted_ind with (P := fun l => StronglySorted _ l);
    [constructor | | apply Hs].
  - intros a l _ IH Ha. constructor; [exact IH|].
    eapply Forall_impl; [|exact Ha]. simpl. intros; lia.
  - intros a b. unfold MirrorDraft.by_order. lia.
Qed.

Lemma X14_mirror_draft_ranked_witness :
  let ranked := JsArray.sort MirrorDraft.by_order (MirrorDraft.options Scenario.sample) in
  map quality ranked = ["1080p60"; "720p"; "audio"] /\
  exists data,
    Permutation ranked (MirrorDraft.options data) /\
    ranked = (filter unknown (MirrorDraft.options data) ++ filter known ranked)%list /\
    StronglySorted
      (fun a b => (JsArray.indexOf MirrorDraft.order (quality a)
                   <= JsArray.indexOf MirrorDraft.order (quality b))%Z)
      ranked.
Proof.
  intros ranked. split; [reflexivity|].
  apply (X14_mirror_draft_ranked Scenario.mirrors_up Scenario.watch []
           (snd (MirrorDraft.fetchYouTubeInfo Scenario.mirrors_up Scenario.watch []))
           {| title := Some "Sample";
              thumbnail := None;
              duration := Some "00:03:20";
              author := Some "Uploader";
              platform := YouTube;
              source_url := Some "https://youtube.com/watch?v=abc12345678";
              description := None;
              downloadOptions := ranked |}).
  vm_compute. reflexivity.
Defined.

(* ===================================================================== *)
(** * The addresses asked                                                 *)
(* ===================================================================== *)

Lemma all_chars_append (p : ascii -> bool) (a b : string) :
  all_chars p (a ++ b) = all_chars p a && all_chars p b.
Proof.
  induction a as [|c a IH]; simpl; [reflexivity|]. now rewrite IH, andb_assoc.
Qed.

Lemma encode_cons (c : ascii) (t : string) :
  JsText.encodeURIComponent (String c t)
    = JsText.encodeURIComponent (String c "") ++ JsText.encodeURIComponent t.
Proof.
  cbn [JsText.encodeURIComponent]. rewrite append_assoc. reflexivity.
Qed.

Lemma encode_char_safe (c : ascii) :
  all_chars is_uri_safe (JsText.encodeURIComponent (String c "")) = true.
Proof. destruct c as [[] [] [] [] [] [] [] []]; reflexivity. Qed.

Lemma encode_char_unreserved (c : ascii) :
  JsText.unreserved c = true -> JsText.encodeURIComponent (String c "") = String c "".
Proof. intros H. cbn [JsText.encodeURIComponent]. now rewrite H. Qed.

Lemma prefix_all_chars (p : ascii -> bool) (s : string) (c : ascii) :
  all_chars p s = true -> p c = false ->
  Js.includes s (String c "") = false.
Proof.
  intros Hs Hc. induction s as [|d s IH]; [reflexivity|].
  simpl in Hs. apply andb_true_iff in Hs as [Hd Hs].
  cbn [Js.includes String.prefix].
  destruct (ascii_dec c d) as [->|_]; [congruence|].
  now rewrite IH.
Qed.

(** X15. [encodeURIComponent] writes unreserved characters and percent
    escapes only, so the address given to an upstream service occupies
    one query parameter: none of the characters that end or split a
    parameter occurs in it.  A string of unreserved characters is left
    as it is. *)
Theorem X15_encodeURIComponent_safe (s : string) :
  all_chars is_uri_safe (JsText.encodeURIComponent s) = true /\
  Forall (fun c => Js.includes (JsText.encodeURIComponent s) (String c "") = false)
         ["&"; "="; "?"; "#"; "/"; ":"; " "; "+"]%char /\
  (all_chars JsText.unreserved s = true -> JsText.encodeURIComponent s = s).
Proof.
  assert (Hsafe : all_chars is_uri_safe (JsText.encodeURIComponent s) = true).
  { induction s as [|c s IH]; [reflexivity|].
    rewrite encode_cons, all_chars_append, encode_char_safe, IH. reflexivity. }
  split; [exact Hsafe|]. split.
  - repeat constructor; apply (prefix_all_chars is_uri_safe); trivial.
  - clear Hsafe. induction s as [|c s IH]; [reflexivity|]. simpl all_chars.
    intros H. apply andb_true_iff in H as [Hc Hs].
    now rewrite encode_cons, (encode_char_unreserved c Hc), IH.
Qed.

(** X16. The address of a tweet is turned into the address of the
    vxtwitter service by replacing its scheme and host and leaving the
    rest as it is, for [twitter.com] and [x.com], with or without
    [www.], over [http] or [https]; the draft with the mirror loop also
    does so for an address without a scheme. *)
Theorem X16_twitter_api_address (rest : string) :
  Forall (fun head =>
            JsText.replace_at_start MirrorDraft.twitter_host "https://api.vxtwitter.com"
              (head ++ rest) = "https://api.vxtwitter.com" ++ rest)
         [ "https://twitter.com"; "https://www.twitter.com"; "http://twitter.com";
           "http://www.twitter.com"; "https://x.com"; "https://www.x.com";
           "http://x.com"; "http://www.x.com";
           "twitter.com"; "www.twitter.com"; "x.com"; "www.x.com" ] /\
  Forall (fun head =>
            JsText.replace_at_start (ProbeDraft.host_pattern "x.com")
              "https://api.vxtwitter.com"
              (JsText.replace_at_start (ProbeDraft.host_pattern "twitter.com")
                 "https://api.vxtwitter.com" (head ++ rest))
            = "https://api.vxtwitter.com" ++ rest)
         [ "https://twitter.com"; "https://www.twitter.com"; "http://twitter.com";
           "http://www.twitter.com"; "https://x.com"; "https://www.x.com";
           "http://x.com"; "http://www.x.com" ].
Proof. split; repeat constructor. Qed.

(* ===================================================================== *)
(** * The page: downloads, the preview and the theme                      *)
(* ===================================================================== *)

(** X17. [handleDownload] does nothing while no record is shown.
    Otherwise it puts an entry made from the record in front of the
    history and keeps the four most recent entries behind it, so the
    history never exceeds five entries; then it clicks one link and
    empties the form, or, when the record has no title, throws with the
    history already written, the form left as it was and no link
    clicked. *)
Theorem X17_download_history (now : Z) (stamp : string) (opt : DownloadOption)
    (p : AppHistory.Page) :
  let p' := fst (fst (AppHistory.handleDownload now stamp opt p)) in
  let clicks := snd (fst (AppHistory.handleDownload now stamp opt p)) in
  let thrown := snd (AppHistory.handleDownload now stamp opt p) in
  match App.mediaInfo (AppHistory.app p) with
  | None => p' = p /\ clicks = [] /\ thrown = None
  | Some m =>
      AppHistory.history p'
        = AppHistory.mkItem (Js.decimal now) (title m) (thumbnail m) (platform m)
                            (source_url m) stamp
          :: firstn 4 (AppHistory.history p) /\
      List.length (AppHistory.history p')
        = S (Nat.min 4 (List.length (AppHistory.history p))) /\
      (List.length (AppHistory.history p') <= 5)%nat /\
      match title m with
      | Some t =>
          thrown = None /\
          clicks = [AppHistory.Click (Js.nullish_str (url opt) "undefined")
                                     (AppHistory.filename t opt)] /\
          App.mediaInfo (AppHistory.app p') = None /\
          App.aiSummary (AppHistory.app p') = None /\
          App.url (AppHistory.app p') = ""
      | None =>
          thrown = Some (undefined_property "replace") /\
          clicks = [] /\
          AppHistory.app p' = AppHistory.app p
      end
  end.
Proof.
  unfold AppHistory.handleDownload.
  destruct (App.mediaInfo (AppHistory.app p)) as [m|]; [|now repeat split].
  assert (Hlen : List.length (firstn 4 (AppHistory.history p))
                 = Nat.min 4 (List.length (AppHistory.history p))) by apply length_firstn.
  destruct (title m) as [t|]; cbn [fst snd AppHistory.history AppHistory.app];
    (split; [reflexivity|]); cbn [List.length]; rewrite Hlen;
    (split; [reflexivity|]); (split; [lia|]); repeat split.
Qed.

Lemma safe_char (c : ascii) :
  let c' := AppHistory.lower (if AppHistory.is_alnum c then c else "_"%char) in
  is_lower_word c' = true /\
  AppHistory.lower (if AppHistory.is_alnum c' then c' else "_"%char) = c'.
Proof. destruct c as [[] [] [] [] [] [] [] []]; split; reflexivity. Qed.

(** X18. The title part of a download's file name has as many characters
    as the title, all of them lower-case letters, digits or underscores;
    making a title safe twice changes nothing more. *)
Theorem X18_safe_title (title : string) :
  String.length (AppHistory.safeTitle title) = String.length title /\
  all_chars is_lower_word (AppHistory.safeTitle title) = true /\
  AppHistory.safeTitle (AppHistory.safeTitle title) = AppHistory.safeTitle title.
Proof.
  unfold AppHistory.safeTitle.
  induction title as [|c t (Hlen & Hall & Hidem)]; [repeat split|].
  destruct (safe_char c) as [Hc Hcc].
  cbn [AppHistory.replace_non_alnum AppHistory.toLowerCase String.length all_chars] in *.
  rewrite Hlen, Hall, Hc, Hcc, Hidem. repeat split.
Qed.

Lemma find_first_with {A : Type} (f : A -> bool) (l : list A) (o : A) :
  find f l = Some o <->
  exists before after,
    l = (before ++ o :: after)%list /\ f o = true /\ Forall (fun x => f x = false) before.
Proof.
  induction l as [|x l IH]; simpl.
  - split; [discriminate | intros (b & a & H & _); now destruct b].
  - destruct (f x) eqn:E.
    + split.
      * intros [= <-]. exists [], l. repeat split; [exact E | constructor].
      * intros (b & a & H & Ho & Hb). destruct b as [|y b]; simpl in H.
        -- now injection H as ->.
        -- injection H as -> _. inversion Hb; subst. congruence.
    + rewrite IH. split.
      * intros (b & a & -> & Ho & Hb). exists (x :: b), a. repeat split; auto.
      * intros (b & a & H & Ho & Hb). destruct b as [|y b]; simpl in H.
        -- injection H as -> _. congruence.
        -- injection H as -> ->. inversion Hb; subst. now exists b, a.
Qed.

(** X19. The preview downloads the first option that carries the label
    chosen in the list, and only that one: an option that shares its
    label with an earlier option of the record cannot be downloaded. *)
Theorem X19_selected_is_first_with_label (m : MediaInfo) (selectedQuality : string)
    (o : DownloadOption) :
  MediaPreview.handleDownloadClick m selectedQuality = Some o <->
  exists before after,
    downloadOptions m = (before ++ o :: after)%list /\
    quality o = selectedQuality /\
    Forall (fun x => quality x <> selectedQuality) before.
Proof.
  unfold MediaPreview.handleDownloadClick, MediaPreview.selectedOption.
  rewrite find_first_with. split.
  - intros (b & a & Hl & Ho & Hb). exists b, a. repeat split; trivial.
    + now apply String.eqb_eq.
    + eapply Forall_impl; [|exact Hb]. intros x. apply String.eqb_neq.
  - intros (b & a & Hl & Ho & Hb). exists b, a. repeat split; trivial.
    + now apply String.eqb_eq.
    + eapply Forall_impl; [|exact Hb]. intros x. apply String.eqb_neq.
Qed.

Lemma find_unique_label (l : list DownloadOption) (o : DownloadOption) :
  NoDup (map quality l) -> In o l ->
  find (fun opt => String.eqb (quality opt) (quality o)) l = Some o.
Proof.
  induction l as [|x l IH]; simpl; intros Hnd Hin; [contradiction|].
  inversion Hnd as [|? ? Hx Hl]; subst.
  destruct Hin as [->|Hin]; [now rewrite String.eqb_refl|].
  destruct (String.eqb_spec (quality x) (quality o)) as [E|_]; [|now apply IH].
  exfalso. apply Hx. rewrite E. now apply in_map.
Qed.

(** X20. Every option of a record that the backend sends, or that the
    serverless function answers with, can be downloaded from the
    preview: choosing its label selects it. *)
Theorem X20_served_options_selectable (W : World)
    (filterFormats : list Backend.Format -> string -> list Backend.Format)
    (info : Backend.Info) (req : YoutubeInfoApi.VercelRequest) (tr tr' : Trace) (c : Z)
    (m : MediaInfo) (o : DownloadOption) :
  Backend.mediaInfo_of W filterFormats info = inr m \/
  YoutubeInfoApi.handler W req tr
    = (Returned (YoutubeInfoApi.mkReply c (YoutubeInfoApi.JsonMedia m)), tr') ->
  In o (downloadOptions m) ->
  MediaPreview.handleDownloadClick m (quality o) = Some o.
Proof.
  intros Hm Ho. apply find_unique_label; [|exact Ho].
  assert (Hnormal : forall compareFn l,
            NoDup (map quality (JsArray.sort compareFn (last_per_label l)))).
  { intros compareFn l. eapply Permutation_NoDup; [|apply last_per_label_nodup].
    apply Permutation_map, Permutation_sym, sort_perm. }
  destruct Hm as [Hm|Hm].
  - revert Hm. unfold Backend.mediaInfo_of.
    destruct (last _ None) as [thumb|]; [|discriminate].
    destruct (Js.parseInt _) as [secs|]; [|discriminate].
    destruct (toISOString W _) as [e|iso]; [discriminate|].
    intros [= <-]. apply Hnormal.
  - destruct (api_handler_run W req tr) as (reply & t & Hrun & Hcases).
    rewrite Hrun in Hm. injection Hm as -> ->.
    destruct Hcases as [[_ [[[=] _]|[msg [=]]]]|(u & videoId & k & _ & _ & _ & _ & _ & Hreply)].
    destruct Hreply as [[msg [=]]|(_ & m' & [= <-] & _ & _ & _ & Hopts)].
    destruct Hopts as [->|(videoData & l & _ & _ & ->)]; [repeat constructor; auto|].
    apply Hnormal.
Qed.

Lemma X20_served_options_selectable_witness :
  MediaPreview.handleDownloadClick Standin.record (quality (Backend.muxed_option Scenario.itag18))
  = Some (Backend.muxed_option Scenario.itag18).
Proof.
  apply (X20_served_options_selectable Scenario.offline Scenario.all_muxed Standin.info
           Scenario.get_watch [] [] 200).
  - left. vm_compute. reflexivity.
  - right. left. reflexivity.
Defined.

(** X21. The preview of a record that [fetchMediaInfo] returned, in the
    draft with the mirror loop or in the draft that probes the mirrors,
    opens without an error, with the first option chosen. *)
Theorem X21_preview_opens_on_first_option (W : World) (url : string) (p : Platform)
    (tr tr' : Trace) (m : MediaInfo) :
  MirrorDraft.fetchMediaInfo W url p tr = (Returned m, tr') \/
  ProbeDraft.fetchMediaInfo W url p tr = (Returned m, tr') ->
  exists o,
    JsArray.first (downloadOptions m) = Some o /\
    MediaPreview.initialQuality m = inr (quality o) /\
    MediaPreview.handleDownloadClick m (quality o) = Some o.
Proof.
  intros H.
  assert (Hm : well_stamped (name p) m).
  { destruct H as [H|H];
      [eapply mirror_fetchMediaInfo_returns | eapply probe_fetchMediaInfo_returns];
      exact H. }
  destruct Hm as [_ Hne].
  unfold MediaPreview.initialQuality, MediaPreview.handleDownloadClick,
    MediaPreview.selectedOption.
  destruct (downloadOptions m) as [|o l]; [congruence|].
  exists o. simpl. now rewrite String.eqb_refl.
Qed.

Lemma X21_preview_opens_on_first_option_witness :
  let m := {| title := Some "Sample";
              thumbnail := None;
              duration := Some "00:03:20";
              author := Some "Uploader";
              platform := YouTube;
              source_url := Some "https://youtube.com/watch?v=abc12345678";
              description := None;
              downloadOptions :=
                JsArray.sort MirrorDraft.by_order (MirrorDraft.options Scenario.sample) |} in
  exists o,
    JsArray.first (downloadOptions m) = Some o /\
    MediaPreview.initialQuality m = inr (quality o) /\
    MediaPreview.handleDownloadClick m (quality o) = Some o.
Proof.
  intros m.
  apply (X21_preview_opens_on_first_option Scenario.mirrors_up Scenario.watch Scenario.youtube []
           (snd (MirrorDraft.fetchMediaInfo Scenario.mirrors_up Scenario.watch
                   Scenario.youtube []))
           m).
  left. vm_compute. reflexivity.
Defined.

(** X22. The theme hook.  After mounting, and after every change of the
    theme, the stored value and the class of the root element agree with
    the theme.  Mounting picks the stored theme when there is one, the
    preference of the system otherwise.  A theme that was set is found
    again when the page is opened anew, whatever the system prefers. *)
Theorem X22_theme_persisted (b : UseTheme.Browser) (t : UseTheme.Theme)
    (prefers root : bool) :
  let st := UseTheme.mount b in
  let st' := UseTheme.setTheme t st in
  theme_persisted st /\
  theme_persisted st' /\
  fst st' = t /\
  fst st = match UseTheme.stored b with
           | Some v => if String.eqb v "dark" then UseTheme.dark else UseTheme.light
           | None => if UseTheme.prefersDark b then UseTheme.dark else UseTheme.light
           end /\
  fst (UseTheme.mount (UseTheme.mkBrowser (UseTheme.stored (snd st')) prefers root)) = t.
Proof.
  unfold theme_persisted, UseTheme.mount, UseTheme.setTheme, UseTheme.isDark.
  destruct b as [[v|] pd rd]; cbn [UseTheme.stored UseTheme.prefersDark].
  - destruct (String.eqb v "dark"), t; repeat split.
  - destruct pd, t; repeat split.
Qed.

(* ===================================================================== *)
(** * The cache of the backend                                            *)
(* ===================================================================== *)

Section CacheFacts.
Context {V : Type}.

Lemma get_set_same (k : string) (v : V) (m : list (string * V)) :
  JsMap.get k (JsMap.set k v m) = Some v.
Proof.
  induction m as [|[k' v'] rest IH]; simpl.
  - now rewrite String.eqb_refl.
  - destruct (String.eqb k' k) eqn:E; simpl; now rewrite E.
Qed.

Lemma get_set_other (k k' : string) (v : V) (m : list (string * V)) :
  k' <> k -> JsMap.get k' (JsMap.set k v m) = JsMap.get k' m.
Proof.
  intros Hne. induction m as [|[k0 v0] rest IH]; simpl.
  - destruct (String.eqb_spec k k'); [congruence | reflexivity].
  - destruct (String.eqb_spec k0 k) as [->|_]; simpl.
    + destruct (String.eqb_spec k k'); [congruence | reflexivity].
    + now rewrite IH.
Qed.

Lemma get_none (k : string) (m : list (string * V)) :
  ~ In k (JsMap.keys m) -> JsMap.get k m = None.
Proof.
  induction m as [|[k' v'] rest IH]; simpl; [reflexivity|].
  intros Hk. destruct (String.eqb_spec k' k) as [->|_]; [exfalso; auto | apply IH; auto].
Qed.

Lemma get_delete_same (k : string) (m : list (string * V)) :
  NoDup (JsMap.keys m) -> JsMap.get k (JsMap.delete k m) = None.
Proof.
  induction m as [|[k' v'] rest IH]; simpl; [reflexivity|].
  intros Hnd. inversion Hnd as [|? ? Hk Hrest]; subst.
  destruct (String.eqb_spec k' k) as [->|Hne].
  - now apply get_none.
  - simpl. destruct (String.eqb_spec k' k); [congruence | now apply IH].
Qed.

Lemma get_delete_other (k k' : string) (m : list (string * V)) :
  k' <> k -> JsMap.get k' (JsMap.delete k m) = JsMap.get k' m.
Proof.
  intros Hne. induction m as [|[k0 v0] rest IH]; simpl; [reflexivity|].
  destruct (String.eqb_spec k0 k) as [->|_]; simpl.
  - destruct (String.eqb_spec k k'); [congruence | reflexivity].
  - now rewrite IH.
Qed.

Lemma delete_keys_in (k k' : string) (m : list (string * V)) :
  In k' (JsMap.keys (JsMap.delete k m)) -> In k' (JsMap.keys m).
Proof.
  induction m as [|[k0 v0] rest IH]; simpl; [trivial|].
  destruct (String.eqb k0 k); simpl; [auto | intros [H|H]; auto].
Qed.

Lemma delete_keys_nodup (k : string) (m : list (string * V)) :
  NoDup (JsMap.keys m) -> NoDup (JsMap.keys (JsMap.delete k m)).
Proof.
  induction m as [|[k0 v0] rest IH]; simpl; [trivial|].
  intros Hnd. inversion Hnd as [|? ? Hk Hrest]; subst.
  destruct (String.eqb k0 k); simpl; [exact Hrest|].
  constructor; [|now apply IH]. intro Hin. apply Hk. eapply delete_keys_in; exact Hin.
Qed.

End CacheFacts.

Section RouteFacts.
Variable W : World.
Variable filterFormats : list Backend.Format -> string -> list Backend.Format.
Variable validateURL : string -> bool.
Variable getVideoID : string -> string.
Variable getInfo : nat -> string -> JsError + Backend.Info.

(** A run of the route, by what it answers. *)
Lemma route_run (url : option string) (srv : BackendRoute.Server) :
  let route := BackendRoute.route W filterFormats validateURL getVideoID getInfo in
  (route url srv = (BackendRoute.invalid_link, srv) /\
   match url with
   | Some u => Js.nonempty u && validateURL u = false
   | None => True
   end) \/
  exists u,
    url = Some u /\ Js.nonempty u = true /\ validateURL u = true /\
    ((exists m,
        JsMap.get (getVideoID u) (BackendRoute.cache srv) = Some m /\
        route url srv = (YoutubeInfoApi.mkReply 200 (YoutubeInfoApi.JsonMedia m), srv)) \/
     (JsMap.get (getVideoID u) (BackendRoute.cache srv) = None /\
      ((route url srv
          = (BackendRoute.unavailable,
             BackendRoute.mkServer (BackendRoute.cache srv) (S (BackendRoute.lookups srv)))) \/
       exists info m,
         getInfo (BackendRoute.lookups srv) u = inr info /\
         Backend.mediaInfo_of W filterFormats info = inr m /\
         route url srv
           = (YoutubeInfoApi.mkReply 200 (YoutubeInfoApi.JsonMedia m),
              BackendRoute.mkServer (JsMap.set (getVideoID u) m (BackendRoute.cache srv))
                                    (S (BackendRoute.lookups srv)))))).
Proof.
  intros route. unfold route, BackendRoute.route. destruct url as [u|]; [|now left].
  destruct (Js.nonempty u) eqn:Hu; cbn [negb orb andb]; [|now left].
  destruct (validateURL u) eqn:Hv; cbn [negb]; [|now left].
  right. exists u. repeat split; trivial.
  destruct (JsMap.get (getVideoID u) (BackendRoute.cache srv)) as [m|] eqn:Hget.
  - left. now exists m.
  - right. split; [reflexivity|].
    destruct (getInfo (BackendRoute.lookups srv) u) as [e|info]; [now left|].
    destruct (Backend.mediaInfo_of W filterFormats info) as [e|m] eqn:Hm; [now left|].
    right. now exists info, m.
Qed.

End RouteFacts.

(** X23. The cache of the backend gives back what it was given: once the
    route has answered an address with a record, it answers every valid
    address of the same video with that record, without asking
    [ytdl.getInfo] again and without changing its state. *)
Theorem X23_cache_round_trip (W : World)
    (filterFormats : list Backend.Format -> string -> list Backend.Format)
    (validateURL : string -> bool) (getVideoID : string -> string)
    (getInfo : nat -> string -> JsError + Backend.Info)
    (u u' : string) (srv srv' : BackendRoute.Server) (c : Z) (m : MediaInfo) :
  let route := BackendRoute.route W filterFormats validateURL getVideoID getInfo in
  route (Some u) srv = (YoutubeInfoApi.mkReply c (YoutubeInfoApi.JsonMedia m), srv') ->
  Js.nonempty u' = true ->
  validateURL u' = true ->
  getVideoID u' = getVideoID u ->
  route (Some u') srv' = (YoutubeInfoApi.mkReply 200 (YoutubeInfoApi.JsonMedia m), srv').
Proof.
  intros route Hfirst Hu' Hv' Hid.
  assert (Hget : JsMap.get (getVideoID u) (BackendRoute.cache srv') = Some m).
  { destruct (route_run W filterFormats validateURL getVideoID getInfo (Some u) srv)
      as [[H _]|(u0 & [= <-] & _ & _ & [(m0 & Hget & H)|[_ [H|(info & m0 & _ & _ & H)]]])];
      fold route in H; rewrite H in Hfirst; try discriminate Hfirst;
      injection Hfirst as _ -> <-; [exact Hget | apply get_set_same]. }
  unfold route, BackendRoute.route. rewrite Hu', Hv', Hid, Hget. reflexivity.
Qed.

Lemma X23_cache_round_trip_witness :
  let srv' := snd (Standin.route (Some Scenario.watch) Standin.started) in
  BackendRoute.lookups srv' = 1%nat /\
  Standin.route (Some "https://youtu.be/abc12345678") srv'
    = (YoutubeInfoApi.mkReply 200 (YoutubeInfoApi.JsonMedia Standin.record), srv').
Proof.
  intros srv'. split; [reflexivity|].
  apply (X23_cache_round_trip Scenario.offline Scenario.all_muxed Standin.validateURL
           Standin.getVideoID Standin.getInfo Scenario.watch "https://youtu.be/abc12345678"
           Standin.started srv' 200 Standin.record); reflexivity.
Defined.

(** X24. What the route does to the server.  A refusal (400) leaves it
    as it was; every other answer that is not served from the cache
    counts one call of [ytdl.getInfo]; the cache changes only when a
    record is sent that was not in it, and then only at the id of the
    video asked for.  A failure (500) is never stored. *)
Theorem X24_route_state (W : World)
    (filterFormats : list Backend.Format -> string -> list Backend.Format)
    (validateURL : string -> bool) (getVideoID : string -> string)
    (getInfo : nat -> string -> JsError + Backend.Info)
    (url : option string) (srv : BackendRoute.Server) :
  let reply := fst (BackendRoute.route W filterFormats validateURL getVideoID getInfo url srv) in
  let srv' := snd (BackendRoute.route W filterFormats validateURL getVideoID getInfo url srv) in
  match YoutubeInfoApi.payload reply with
  | YoutubeInfoApi.JsonError _ =>
      BackendRoute.cache srv' = BackendRoute.cache srv /\
      ((YoutubeInfoApi.code reply = 400%Z /\ srv' = srv) \/
       (YoutubeInfoApi.code reply = 500%Z /\
        BackendRoute.lookups srv' = S (BackendRoute.lookups srv)))
  | YoutubeInfoApi.JsonMedia m =>
      YoutubeInfoApi.code reply = 200%Z /\
      exists u,
        url = Some u /\
        JsMap.get (getVideoID u) (BackendRoute.cache srv') = Some m /\
        (forall k, k <> getVideoID u ->
                   JsMap.get k (BackendRoute.cache srv') = JsMap.get k (BackendRoute.cache srv)) /\
        (srv' = srv \/
         (JsMap.get (getVideoID u) (BackendRoute.cache srv) = None /\
          BackendRoute.lookups srv' = S (BackendRoute.lookups srv)))
  | YoutubeInfoApi.End_ => False
  end.
Proof.
  intros reply srv'. subst reply srv'.
  destruct (route_run W filterFormats validateURL getVideoID getInfo url srv)
    as [[H _]|(u & -> & _ & _ & [(m & Hget & H)|[Hget [H|(info & m & _ & _ & H)]]])];
    rewrite H; cbn [fst snd YoutubeInfoApi.payload YoutubeInfoApi.code
                    BackendRoute.invalid_link BackendRoute.unavailable
                    BackendRoute.cache BackendRoute.lookups].
  - split; [reflexivity|]. left. now split.
  - split; [reflexivity|]. exists u. repeat split; trivial. now left.
  - split; [reflexivity|]. right. now split.
  - split; [reflexivity|]. exists u. repeat split.
    + apply get_set_same.
    + intros k Hk. now apply get_set_other.
    + right. now split.
Qed.

(** X25. When the timer of an entry fires, that entry is gone and the
    others stay: the next request for the video asks [ytdl.getInfo]
    again.  The keys of the cache stay distinct through requests and
    timers. *)
Theorem X25_cache_expiry (W : World)
    (filterFormats : list Backend.Format -> string -> list Backend.Format)
    (validateURL : string -> bool) (getVideoID : string -> string)
    (getInfo : nat -> string -> JsError + Backend.Info)
    (url : option string) (videoId : string) (srv : BackendRoute.Server) :
  NoDup (JsMap.keys (BackendRoute.cache srv)) ->
  let srv' := snd (BackendRoute.route W filterFormats validateURL getVideoID getInfo url srv) in
  NoDup (JsMap.keys (BackendRoute.cache srv')) /\
  NoDup (JsMap.keys (BackendRoute.cache (BackendRoute.expire videoId srv'))) /\
  JsMap.get videoId (BackendRoute.cache (BackendRoute.expire videoId srv')) = None /\
  (forall k, k <> videoId ->
             JsMap.get k (BackendRoute.cache (BackendRoute.expire videoId srv'))
             = JsMap.get k (BackendRoute.cache srv')) /\
  BackendRoute.lookups (BackendRoute.expire videoId srv') = BackendRoute.lookups srv'.
Proof.
  intros Hnd srv'.
  assert (Hnd' : NoDup (JsMap.keys (BackendRoute.cache srv'))).
  { subst srv'.
    destruct (route_run W filterFormats validateURL getVideoID getInfo url srv)
      as [[H _]|(u & -> & _ & _ & [(m & Hget & H)|[Hget [H|(info & m & _ & _ & H)]]])];
      rewrite H; cbn [snd BackendRoute.cache]; trivial.
    now apply set_keys_nodup. }
  split; [exact Hnd'|]. unfold BackendRoute.expire. cbn [BackendRoute.cache BackendRoute.lookups].
  split; [now apply delete_keys_nodup|]. split; [now apply get_delete_same|].
  split; [|reflexivity]. intros k Hk. now apply get_delete_other.
Qed.

Lemma X25_cache_expiry_witness :
  let srv' := snd (Standin.route (Some Scenario.watch) Standin.started) in
  JsMap.get "abc12345678" (BackendRoute.cache srv') = Some Standin.record /\
  JsMap.get "abc12345678" (BackendRoute.cache (BackendRoute.expire "abc12345678" srv')) = None.
Proof.
  intros srv'. split; [reflexivity|].
  apply (X25_cache_expiry Scenario.offline Scenario.all_muxed Standin.validateURL
           Standin.getVideoID Standin.getInfo (Some Scenario.watch) "abc12345678" Standin.started).
  constructor.
Defined.

(* ===================================================================== *)
(** * The draft with the local backend                                    *)
(* ===================================================================== *)

Section FallbackFacts.
Variable W : World.

Lemma fallback_options_usable (data : InvVideo.t) :
  Forall usable (FallbackDraft.downloadOptions_of data).
Proof.
  unfold FallbackDraft.downloadOptions_of.
  destruct (InvVideo.formatStreams data) as [fs|]; [|constructor].
  apply Forall_map, Forall_forall. intros f Hf. apply filter_In in Hf as [_ Hf].
  apply andb_true_iff in Hf as [Hu Hq]. unfold usable.
  cbn [url quality YoutubeInfoApi.stream_option].
  split; [exact Hu|]. now destruct (InvStream.qualityLabel f).
Qed.

(** One turn of the loop asks one instance and never throws. *)
Lemma fallback_attempt_run (url videoId instance : string) (tr : Trace) :
  exists found,
    try_catch (FallbackDraft.attempt W url videoId instance) (fun _ => ret None) tr
      = (Returned found, (tr ++ [Fetch (FallbackDraft.instance_request videoId instance)])%list) /\
    forall m, found = Some m ->
      platform m = YouTube /\ source_url m = Some url /\ downloadOptions m <> [] /\
      Forall usable (downloadOptions m).
Proof.
  assert (Hnone : forall t : Trace,
            exists found : option MediaInfo,
              (Returned (@None MediaInfo), t) = (Returned found, t) /\
              forall m, found = Some m ->
                platform m = YouTube /\ source_url m = Some url /\ downloadOptions m <> [] /\
                Forall usable (downloadOptions m)).
  { intros t. exists None. split; [reflexivity | discriminate]. }
  unfold FallbackDraft.attempt, try_catch, bind, fetch, json, clock, lift, throw, ret.
  destruct (invidious W (List.length tr) _) as [e|r]; [apply Hnone|].
  destruct (ok r); cbn [negb]; [|apply Hnone].
  destruct (body r) as [e|data]; [apply Hnone|].
  destruct (InvVideo.formatStreams data) as [[|f fs]|] eqn:Hfs; [apply Hnone | | apply Hnone].
  destruct (FallbackDraft.downloadOptions_of data) as [|o l] eqn:Hopts; [apply Hnone|].
  cbn [List.length Nat.eqb].
  destruct (InvVideo.lengthSeconds data) as [secs|]; [|apply Hnone].
  destruct (toISOString W _) as [e|iso]; [apply Hnone|].
  eexists. split; [reflexivity|]. intros m [= <-]. cbn [platform source_url downloadOptions].
  repeat split; [discriminate|]. rewrite <- Hopts. apply fallback_options_usable.
Qed.

(** The loop over the instances asks a front part of its list, and
    returns a record of the last instance asked or throws at the end of
    the list. *)
Lemma fallback_loop_run (url videoId : string) (instances : list string) (tr : Trace) :
  exists k r,
    FallbackDraft.instance_loop W instances url videoId tr
      = (r, (tr ++ attempts (FallbackDraft.instance_request videoId)
                            (firstn k instances))%list) /\
    (k <= List.length instances)%nat /\
    match r with
    | Returned m =>
        (1 <= k)%nat /\
        platform m = YouTube /\ source_url m = Some url /\ downloadOptions m <> [] /\
        Forall usable (downloadOptions m)
    | Thrown e =>
        k = List.length instances /\
        e = Error "The local service is down and all public YouTube APIs failed. Please try again later."
    end.
Proof.
  revert tr. induction instances as [|instance rest IH]; intros tr.
  - exists 0%nat. eexists. simpl. rewrite app_nil_r. split; [reflexivity|].
    split; [lia|]. split; reflexivity.
  - destruct (fallback_attempt_run url videoId instance tr) as (found & Hrun & Hfound).
    cbn [FallbackDraft.instance_loop]. unfold bind at 1. rewrite Hrun.
    destruct found as [m|].
    + exists 1%nat, (Returned m). simpl. split; [reflexivity|]. split; [lia|].
      split; [lia|]. now apply Hfound.
    + destruct (IH (tr ++ [Fetch (FallbackDraft.instance_request videoId instance)])%list)
        as (k & r & Hloop & Hk & Hr).
      exists (S k), r. rewrite Hloop. simpl. rewrite <- app_assoc.
      split; [reflexivity|]. split; [lia|].
      destruct r as [m|e]; [|destruct Hr as [-> ->]; now split].
      destruct Hr as (Hk1 & Hr). split; [lia | exact Hr].
Qed.

End FallbackFacts.

(** X26. The fallback resolver of the draft with the local backend: an
    address without a video id is refused with no request; otherwise it
    asks the first [k] instances, in the order of the list and with the
    time-out of 5000 ms, for some [k] of at most 4.  A record it returns
    is stamped [YouTube], carries the address asked for, and has at
    least one option, every option with an address and a label; if it
    throws, all four instances were asked. *)
Theorem X26_fallback_resolver (W : World) (url : string) (tr : Trace) :
  let run := FallbackDraft.fetchYouTubeInfoFromInvidious W url tr in
  match Regex.match_group1 FallbackDraft.id_prefix Regex.is_word_dash 11 url with
  | None => run = (Thrown (Error "Invalid YouTube URL for fallback API"), tr)
  | Some videoId =>
      exists k, (k <= 4)%nat /\
        snd run = (tr ++ attempts (FallbackDraft.instance_request videoId)
                                  (firstn k FallbackDraft.invidiousInstances))%list /\
        match fst run with
        | Returned m =>
            (1 <= k)%nat /\
            platform m = YouTube /\ source_url m = Some url /\ downloadOptions m <> [] /\
            Forall usable (downloadOptions m)
        | Thrown e =>
            k = 4%nat /\
            e = Error "The local service is down and all public YouTube APIs failed. Please try again later."
        end
  end.
Proof.
  intros run. subst run. unfold FallbackDraft.fetchYouTubeInfoFromInvidious.
  destruct (Regex.match_group1 FallbackDraft.id_prefix Regex.is_word_dash 11 url)
    as [videoId|]; [|reflexivity].
  destruct (fallback_loop_run W url videoId FallbackDraft.invidiousInstances tr)
    as (k & r & Hrun & Hk & Hr).
  exists k. rewrite Hrun. split; [exact Hk|]. split; [reflexivity|]. exact Hr.
Qed.

(** X27. The YouTube resolver of the draft with the local backend asks
    the backend first, once and with the time-out of 3000 ms; whatever
    follows are requests of the fallback resolver, to the first [k]
    instances for some [k] of at most 4.  When the backend answers with
    a success and a body that parses, nothing follows and the record of
    the body is returned as it is.  A record returned is that of the
    backend, or one of the fallback resolver: stamped [YouTube], with
    the address asked for and at least one option. *)
Theorem X27_backend_first (W : World) (backend : Service FallbackDraft.BackendDoc)
    (url : string) (tr : Trace) :
  let run := FallbackDraft.fetchYouTubeInfo W backend url tr in
  let asked := (tr ++ [Fetch (FallbackDraft.backend_request url)])%list in
  (exists k, (k <= 4)%nat /\
     snd run
       = (asked ++
          match Regex.match_group1 FallbackDraft.id_prefix Regex.is_word_dash 11 url with
          | Some videoId =>
              attempts (FallbackDraft.instance_request videoId)
                       (firstn k FallbackDraft.invidiousInstances)
          | None => []
          end)%list) /\
  (forall r doc,
     backend (List.length tr) (FallbackDraft.backend_request url) = Responded r ->
     ok r = true -> body r = inr doc ->
     run = (Returned (FallbackDraft.doc_media doc), asked)) /\
  (forall m,
     fst run = Returned m ->
     (exists r doc,
        backend (List.length tr) (FallbackDraft.backend_request url) = Responded r /\
        ok r = true /\ body r = inr doc /\ m = FallbackDraft.doc_media doc) \/
     (platform m = YouTube /\ source_url m = Some url /\ downloadOptions m <> [])).
Proof.
  intros run asked.
  assert (Hfallback :
    exists k, (k <= 4)%nat /\
      snd (FallbackDraft.fetchYouTubeInfoFromInvidious W url asked)
        = (asked ++
           match Regex.match_group1 FallbackDraft.id_prefix Regex.is_word_dash 11 url with
           | Some videoId =>
               attempts (FallbackDraft.instance_request videoId)
                        (firstn k FallbackDraft.invidiousInstances)
           | None => []
           end)%list /\
      forall m, fst (FallbackDraft.fetchYouTubeInfoFromInvidious W url asked) = Returned m ->
                platform m = YouTube /\ source_url m = Some url /\ downloadOptions m <> []).
  { unfold FallbackDraft.fetchYouTubeInfoFromInvidious.
    destruct (Regex.match_group1 FallbackDraft.id_prefix Regex.is_word_dash 11 url)
      as [videoId|].
    - destruct (fallback_loop_run W url videoId FallbackDraft.invidiousInstances asked)
        as (k & r & Hrun & Hk & Hr).
      exists k. rewrite Hrun. split; [exact Hk|]. split; [reflexivity|].
      intros m [= ->]. destruct Hr as (_ & Hp & Hs & Ho & _). auto.
    - exists 0%nat. split; [lia|]. split; [symmetry; apply app_nil_r | discriminate]. }
  assert (Hstop : forall o : Outcome MediaInfo,
            exists k, (k <= 4)%nat /\
              snd (o, asked)
                = (asked ++
                   match Regex.match_group1 FallbackDraft.id_prefix Regex.is_word_dash 11 url with
                   | Some videoId =>
                       attempts (FallbackDraft.instance_request videoId)
                                (firstn k FallbackDraft.invidiousInstances)
                   | None => []
                   end)%list).
  { intros o. exists 0%nat. split; [lia|]. simpl.
    destruct (Regex.match_group1 _ _ _ url); symmetry; apply app_nil_r. }
  destruct Hfallback as (k & Hk & Htrace & Hrecord).
  subst run. unfold FallbackDraft.fetchYouTubeInfo, try_catch, bind, fetch, json, throw, ret.
  fold asked.
  destruct (backend (List.length tr) (FallbackDraft.backend_request url)) as [e|r].
  - destruct (FallbackDraft.is_network_error e).
    + split; [now exists k|]. split; [discriminate|]. intros m Hm. right. now apply Hrecord.
    + split; [apply Hstop|]. split; discriminate.
  - destruct (ok r) eqn:Hok; cbn [negb].
    + destruct (body r) as [e|doc] eqn:Hbody.
      * destruct (FallbackDraft.is_network_error e).
        -- split; [now exists k|]. split; [intros r0 doc0 [= <-]; congruence|].
           intros m Hm. right. now apply Hrecord.
        -- split; [apply Hstop|]. split; [intros r0 doc0 [= <-]; congruence | discriminate].
      * split; [apply Hstop|]. split.
        -- intros r0 doc0 [= <-] _ Hb. rewrite Hbody in Hb. now injection Hb as ->.
        -- intros m [= <-]. left. now exists r, doc.
    + destruct (FallbackDraft.is_network_error (Error (FallbackDraft.backend_message r))).
      * split; [now exists k|]. split; [intros r0 doc0 [= <-]; congruence|].
        intros m Hm. right. now apply Hrecord.
      * split; [apply Hstop|]. split; [intros r0 doc0 [= <-]; congruence | discriminate].
Qed.

Lemma backend_message_nonempty (r : Response FallbackDraft.BackendDoc) :
  Js.nonempty (FallbackDraft.backend_message r) = true.
Proof.
  unfold FallbackDraft.backend_message, Js.or_str.
  destruct (body r) as [e|doc]; [reflexivity|].
  destruct (FallbackDraft.doc_error doc) as [[|c s]|]; reflexivity.
Qed.

Lemma api_message_nonempty (r : Response FallbackDraft.BackendDoc) :
  Js.nonempty (ApiDraft.api_message r) = true.
Proof.
  unfold ApiDraft.api_message, Js.or_str.
  destruct (body r) as [e|doc]; [reflexivity|].
  destruct (FallbackDraft.doc_error doc) as [[|c s]|]; reflexivity.
Qed.

(** X28. A refusal of the service asked for YouTube reaches the user as
    the service worded it, after the one request to it.  In the draft
    with the local backend: when the backend answers with a status that
    is not a success, and its message does not mention
    [Failed to fetch], [fetchMediaInfo] throws an [Error] with that very
    message, and the fallback is not tried.  In the draft with the
    serverless function: when the function answers with a status that is
    not a success, [fetchMediaInfo] throws an [Error] with its
    message. *)
Theorem X28_refusal_forwarded (W : World) (service : Service FallbackDraft.BackendDoc)
    (hostname : option string) (saveig : Service SaveIgReply.t)
    (url : string) (p : Platform) (tr : Trace) (r : Response FallbackDraft.BackendDoc) :
  name p = YouTube ->
  ok r = false ->
  (service (List.length tr) (FallbackDraft.backend_request url) = Responded r ->
   Js.includes (FallbackDraft.backend_message r) "Failed to fetch" = false ->
   FallbackDraft.fetchMediaInfo W service url p tr
     = (Thrown (Error (FallbackDraft.backend_message r)),
        (tr ++ [Fetch (FallbackDraft.backend_request url)])%list)) /\
  (service (List.length tr) (ApiDraft.youtube_request hostname url) = Responded r ->
   ApiDraft.fetchMediaInfo W hostname service saveig url p tr
     = (Thrown (Error (ApiDraft.api_message r)),
        (tr ++ [Fetch (ApiDraft.youtube_request hostname url)])%list)).
Proof.
  intros Hp Hok. split.
  - intros Hr Hmsg.
    unfold FallbackDraft.fetchMediaInfo. rewrite Hp.
    unfold FallbackDraft.fetchYouTubeInfo, try_catch, bind, fetch, throw.
    assert (Hnet : FallbackDraft.is_network_error (Error (FallbackDraft.backend_message r))
                   = false).
    { unfold FallbackDraft.is_network_error. cbn [error_name message Error].
      rewrite Hmsg. reflexivity. }
    rewrite Hr, Hok. cbn [negb]. rewrite Hnet. cbn [message Error Js.or_str].
    now rewrite backend_message_nonempty.
  - intros Hr.
    unfold ApiDraft.fetchMediaInfo. rewrite Hp.
    unfold ApiDraft.fetchYouTubeInfo, try_catch, bind, fetch, throw.
    rewrite Hr, Hok. cbn [negb error_name message Error Js.or_str].
    change (String.eqb "Error" "AbortError") with false. cbv iota.
    cbn [message Error Js.or_str].
    now rewrite !api_message_nonempty.
Qed.

Lemma X28_refusal_forwarded_witness :
  FallbackDraft.fetchMediaInfo Standin.instances_up Standin.refusing "https://youtu.be/nothing"
    Scenario.youtube []
  = (Thrown (Error "Invalid YouTube link"),
     [Fetch (GET_within 3000
               "http://localhost:3001/api/youtube-info?url=https%3A%2F%2Fyoutu.be%2Fnothing")]).
Proof.
  apply (X28_refusal_forwarded Standin.instances_up Standin.refusing None Scenario.down
           "https://youtu.be/nothing" Scenario.youtube []
           (mkResponse 400 "Bad Request"
              (inr (FallbackDraft.mkDoc (Some "Invalid YouTube link") Standin.record))));
    reflexivity.
Defined.

(* ===================================================================== *)
(** * The draft with the serverless function                              *)
(* ===================================================================== *)

(** X29. The Twitter resolver of the draft with the serverless function
    makes one request, with the time-out of 8000 ms, and words every
    failure the same way, whatever its cause: a rejected request, a
    status that is not a success, a body that does not parse, a missing
    tweet, a tweet without media.  A record it returns is stamped
    [Twitter] and has an option.  The wording is kept by
    [fetchMediaInfo]. *)
Theorem X29_twitter_failures_masked (W : World) (hostname : option string)
    (youtube_api : Service FallbackDraft.BackendDoc) (saveig : Service SaveIgReply.t)
    (url : string) (p : Platform) (tr : Trace) :
  let run := ApiDraft.fetchTwitterInfo W url tr in
  snd run = (tr ++ [Fetch (ApiDraft.twitter_request url)])%list /\
  match fst run with
  | Returned m => platform m = Twitter /\ downloadOptions m <> []
  | Thrown e => e = ApiDraft.twitter_failure
  end /\
  (name p = Twitter ->
   forall e tr',
     ApiDraft.fetchMediaInfo W hostname youtube_api saveig url p tr = (Thrown e, tr') ->
     e = ApiDraft.twitter_failure).
Proof.
  intros run.
  assert (Hrun : snd run = (tr ++ [Fetch (ApiDraft.twitter_request url)])%list /\
                 match fst run with
                 | Returned m => platform m = Twitter /\ downloadOptions m <> []
                 | Thrown e => e = ApiDraft.twitter_failure
                 end).
  { subst run.
    unfold ApiDraft.fetchTwitterInfo, try_catch, bind, fetch, json, lift, throw_if, throw, ret.
    destruct (vxtwitter W (List.length tr) (ApiDraft.twitter_request url)) as [e|r];
      [now split|].
    destruct (ok r); cbn [negb]; [|now split].
    destruct (body r) as [e|reply]; [now split|].
    destruct (VxReply.tweet reply) as [t|]; [|now split].
    destruct (MirrorDraft.media_options _) as [e|opts]; [now split|].
    destruct opts as [|o l]; [now split|].
    cbn [List.length Nat.eqb fst snd platform downloadOptions]. repeat split. discriminate. }
  destruct Hrun as [Htrace Hout]. split; [exact Htrace|]. split; [exact Hout|].
  intros Hp e tr'. unfold ApiDraft.fetchMediaInfo, try_catch. rewrite Hp.
  fold run. destruct run as [[m|e0] t]; [discriminate|].
  simpl in Hout. subst e0. unfold throw. now intros [= <- _].
Qed.

Lemma or_opt_truthy (a b : option string) :
  Js.truthy_str b = true -> Js.truthy_str (Js.or_opt a b) = true.
Proof.
  intros Hb. unfold Js.or_opt. destruct (Js.truthy_str a) eqn:E; [exact E | exact Hb].
Qed.

Section InstagramFacts.
Variable saveig : Service SaveIgReply.t.

Lemma item_options_usable (many : bool) (items : list SaveIgItem.t) (i : nat) :
  Forall usable (ApiDraft.item_options many i items).
Proof.
  revert i. induction items as [|item rest IH]; intros i; [constructor|].
  cbn [ApiDraft.item_options]. apply Forall_app. split; [|apply IH].
  unfold ApiDraft.item_option.
  destruct (SaveIgItem.url item) as [u|]; [|constructor].
  destruct (Js.nonempty u) eqn:Hu; [|constructor].
  constructor; [|constructor]. unfold usable. cbn [url quality Js.truthy_str].
  split; [exact Hu|].
  destruct many; [reflexivity|]. now destruct (_ || _).
Qed.

Lemma instagram_options_usable (d : SaveIgData) :
  Forall usable (ApiDraft.instagram_options d).
Proof.
  destruct d as [l|p]; [apply item_options_usable|].
  unfold ApiDraft.instagram_options.
  destruct (SaveIgPost.url p) as [u|]; [|constructor].
  destruct (Js.nonempty u) eqn:Hu; [|constructor].
  constructor; [|constructor]. now split.
Qed.

(** One turn of the loop asks one service and never throws. *)
Lemma instagram_attempt_run (url api : string) (tr : Trace) :
  exists found,
    try_catch (ApiDraft.attempt saveig url api) (fun _ => ret None) tr
      = (Returned found, (tr ++ [Fetch (ApiDraft.instagram_request api)])%list) /\
    forall m, found = Some m ->
      platform m = Instagram /\ source_url m = Some url /\ downloadOptions m <> [] /\
      Forall usable (downloadOptions m) /\ Js.truthy_str (thumbnail m) = true.
Proof.
  assert (Hnone : forall t : Trace,
            exists found : option MediaInfo,
              (Returned (@None MediaInfo), t) = (Returned found, t) /\
              forall m, found = Some m ->
                platform m = Instagram /\ source_url m = Some url /\ downloadOptions m <> [] /\
                Forall usable (downloadOptions m) /\ Js.truthy_str (thumbnail m) = true).
  { intros t. exists None. split; [reflexivity | discriminate]. }
  unfold ApiDraft.attempt, try_catch, bind, fetch, json, throw, ret.
  destruct (saveig (List.length tr) _) as [e|r]; [apply Hnone|].
  destruct (ok r); cbn [negb]; [|apply Hnone].
  destruct (body r) as [e|reply]; [apply Hnone|].
  destruct (SaveIgReply.data reply) as [d|]; [|apply Hnone].
  pose proof (instagram_options_usable d) as Husable.
  destruct (ApiDraft.instagram_options d) as [|o l] eqn:Hopts; [apply Hnone|].
  cbn [List.length Nat.eqb].
  eexists. split; [reflexivity|]. intros m [= <-].
  cbn [platform source_url downloadOptions thumbnail ApiDraft.instagram_record].
  repeat split; [discriminate | exact Husable |].
  inversion Husable as [|? ? [Ho _] _]; subst.
  apply or_opt_truthy. exact Ho.
Qed.

Lemma instagram_loop_run (url : string) (apis : list string) (tr : Trace) :
  exists k r,
    ApiDraft.api_loop saveig apis url tr
      = (r, (tr ++ attempts ApiDraft.instagram_request (firstn k apis))%list) /\
    (k <= List.length apis)%nat /\
    match r with
    | Returned m =>
        (1 <= k)%nat /\
        platform m = Instagram /\ source_url m = Some url /\ downloadOptions m <> [] /\
        Forall usable (downloadOptions m) /\ Js.truthy_str (thumbnail m) = true
    | Thrown e => k = List.length apis /\ e = ApiDraft.instagram_failure
    end.
Proof.
  revert tr. induction apis as [|api rest IH]; intros tr.
  - exists 0%nat. eexists. simpl. rewrite app_nil_r. split; [reflexivity|].
    split; [lia|]. split; reflexivity.
  - destruct (instagram_attempt_run url api tr) as (found & Hrun & Hfound).
    cbn [ApiDraft.api_loop]. unfold bind at 1. rewrite Hrun.
    destruct found as [m|].
    + exists 1%nat, (Returned m). simpl. split; [reflexivity|]. split; [lia|].
      split; [lia|]. now apply Hfound.
    + destruct (IH (tr ++ [Fetch (ApiDraft.instagram_request api)])%list)
        as (k & r & Hloop & Hk & Hr).
      exists (S k), r. rewrite Hloop. simpl. rewrite <- app_assoc.
      split; [reflexivity|]. split; [lia|].
      destruct r as [m|e]; [|destruct Hr as [-> ->]; now split].
      destruct Hr as (Hk1 & Hr). split; [lia | exact Hr].
Qed.

End InstagramFacts.

(** X30. The Instagram resolver of the draft with the serverless
    function asks its two services in turn, [api.saveig.app] first, each
    with the time-out of 8000 ms, and stops at the first that yields an
    option.  A record it returns is stamped [Instagram], carries the
    address asked for, a thumbnail, and at least one option, every option
    with an address and a label; if it throws, both services were asked
    and the message is the stock one. *)
Theorem X30_instagram_services_in_turn (saveig : Service SaveIgReply.t) (url : string)
    (tr : Trace) :
  let run := ApiDraft.fetchInstagramInfo saveig url tr in
  exists k, (k <= 2)%nat /\
    snd run = (tr ++ attempts ApiDraft.instagram_request (firstn k (ApiDraft.apis url)))%list /\
    match fst run with
    | Returned m =>
        (1 <= k)%nat /\
        platform m = Instagram /\ source_url m = Some url /\ downloadOptions m <> [] /\
        Forall usable (downloadOptions m) /\ Js.truthy_str (thumbnail m) = true
    | Thrown e => k = 2%nat /\ e = ApiDraft.instagram_failure
    end.
Proof.
  intros run. subst run. unfold ApiDraft.fetchInstagramInfo.
  destruct (instagram_loop_run saveig url (ApiDraft.apis url) tr) as (k & r & Hrun & Hk & Hr).
  exists k. rewrite Hrun. split; [exact Hk|]. split; [reflexivity|]. exact Hr.
Qed.
